(** * Parts catalogue: data-access layer, application workflow, renderer

    A shallow embedding of [src/services/firebase.ts] (and of the other
    revisions of that module that the repository carries),
    [src/pages/take-photo.tsx] and the image loop of [src/services/pdf.ts].

    - Values read from the Remote Document Store are JSON values ([json]);
      a JavaScript object is an association list in its own-property
      enumeration order.
    - A remote read is an oracle from queries to outcomes ([Reader]); the
      workflow that also writes runs in a small state-and-exception monad
      over a [World] made of the application collection, the blob store, a
      fault plan and a log of the remote calls issued.
    - Strings are given by their UTF-8 bytes. [trim] strips the white space
      of ECMAScript; [toLowerCase] is the engine's, a parameter of the
      definitions that use it.
    - An identifier addresses a child of a collection when it is a key of
      the store ([Remote.valid_key]). *)

From Stdlib Require Import String Ascii List ZArith NArith Lia Bool QArith_base.
From Stdlib Require Import DecimalString Decimal DecimalNat DecimalN.
From stdpp Require Import base option list strings gmap.

Close Scope Q_scope.
Set Warnings "-register-all".
Open Scope string_scope.
Open Scope list_scope.

(** ** JavaScript values *)

Module JS.

(** What [snapshot.val()] can return. [undefined] is not a value of the
    store: a property lookup returns an [option json], [None] standing for
    [undefined]. An array hole is [JNull] (the store holds no null). *)
Inductive json : Type :=
| JNull
| JBool (b : bool)
| JNum (q : Q)
| JStr (s : string)
| JArr (l : list json)
| JObj (o : list (string * json)).

(** An object in own-property enumeration order. *)
Definition obj : Type := list (string * json).

Definition obj_keys (o : obj) : list string := map fst o.

(** ToBoolean. *)
Definition truthy (v : json) : bool :=
  match v with
  | JNull => false
  | JBool b => b
  | JNum q => negb (Qnum q =? 0)%Z
  | JStr s => negb (String.eqb s "")
  | JArr _ | JObj _ => true
  end.

(** ToBoolean of a possibly [undefined] value. *)
Definition truthy_opt (v : option json) : bool :=
  match v with Some x => truthy x | None => false end.

(** [typeof v === 'object'] (true of [null] and of arrays as well). *)
Definition typeof_object (v : json) : bool :=
  match v with
  | JNull | JArr _ | JObj _ => true
  | _ => false
  end.

(** [x || d] on a possibly [undefined] left operand. *)
Definition or_default (x : option json) (d : json) : json :=
  match x with
  | Some v => if truthy v then v else d
  | None => d
  end.

(** *** Strings *)

Definition string_of_nat (n : nat) : string :=
  NilEmpty.string_of_uint (Nat.to_uint n).

(** [s.includes(t)]. *)
Fixpoint includes (s t : string) : bool :=
  String.prefix t s ||
  match s with
  | EmptyString => false
  | String _ r => includes r t
  end.

Definition is_space (c : ascii) : bool :=
  let n := nat_of_ascii c in
  ((9 <=? n)%nat && (n <=? 13)%nat) || (n =? 32)%nat.

(** U+00A0, as its two UTF-8 bytes. *)
Definition is_space2 (a b : ascii) : bool :=
  (nat_of_ascii a =? 194)%nat && (nat_of_ascii b =? 160)%nat.

(** U+1680, U+2000 to U+200A, U+2028, U+2029, U+202F, U+205F, U+3000 and
    U+FEFF, as their three UTF-8 bytes. *)
Definition is_space3 (a b c : ascii) : bool :=
  let x := nat_of_ascii a in
  let y := nat_of_ascii b in
  let z := nat_of_ascii c in
  ((x =? 225) && (y =? 154) && (z =? 128))%nat
  || ((x =? 226) && (y =? 128)
      && (((128 <=? z) && (z <=? 138)) || (z =? 168) || (z =? 169) || (z =? 175)))%nat
  || ((x =? 226) && (y =? 129) && (z =? 159))%nat
  || ((x =? 227) && (y =? 128) && (z =? 128))%nat
  || ((x =? 239) && (y =? 187) && (z =? 191))%nat.

(** The string is one character of ECMAScript's WhiteSpace or
    LineTerminator: one of the six of ASCII, or one of those above. *)
Definition is_space_string (s : string) : bool :=
  match s with
  | String a EmptyString => is_space a
  | String a (String b EmptyString) => is_space2 a b
  | String a (String b (String c EmptyString)) => is_space3 a b c
  | _ => false
  end.

(** The string begins with such a character. *)
Definition starts_space (s : string) : bool :=
  match s with
  | EmptyString => false
  | String a r1 =>
      is_space a ||
      match r1 with
      | EmptyString => false
      | String b r2 =>
          is_space2 a b ||
          match r2 with
          | EmptyString => false
          | String c _ => is_space3 a b c
          end
      end
  end.

Fixpoint trimStart (s : string) : string :=
  match s with
  | EmptyString => EmptyString
  | String a r1 =>
      if is_space a then trimStart r1
      else
        match r1 with
        | EmptyString => s
        | String b r2 =>
            if is_space2 a b then trimStart r2
            else
              match r2 with
              | EmptyString => s
              | String c r3 => if is_space3 a b c then trimStart r3 else s
              end
        end
  end.

Fixpoint trimEnd (s : string) : string :=
  match s with
  | EmptyString => EmptyString
  | String c r =>
      let kept := String c (trimEnd r) in
      if is_space_string kept then EmptyString else kept
  end.

(** [String.prototype.trim], on a string given by its UTF-8 bytes: the
    white space and the line terminators of ECMAScript go, at both
    ends. *)
Definition trim (s : string) : string := trimEnd (trimStart s).

Fixpoint repeat_string (c : ascii) (n : nat) : string :=
  match n with
  | O => EmptyString
  | S m => String c (repeat_string c m)
  end.

(** [s.padStart(n, c)] with a one-character filler. *)
Definition padStart (s : string) (n : nat) (c : ascii) : string :=
  repeat_string c (n - String.length s) +:+ s.

Definition hex_digit (n : nat) : ascii :=
  if (n <? 10)%nat then ascii_of_nat (48 + n) else ascii_of_nat (55 + n).

(** The characters [encodeURIComponent] leaves alone:
    [A-Z a-z 0-9 - _ . ! ~ * ' ( )]. *)
Definition uri_unreserved (c : ascii) : bool :=
  let n := nat_of_ascii c in
  ((65 <=? n)%nat && (n <=? 90)%nat) || ((97 <=? n)%nat && (n <=? 122)%nat) ||
  ((48 <=? n)%nat && (n <=? 57)%nat) ||
  existsb (Nat.eqb n) (45 :: 95 :: 46 :: 33 :: 126 :: 42 :: 39 :: 40 :: 41 :: nil)%nat.

(** [encodeURIComponent] on a string given by its UTF-8 bytes. *)
Fixpoint encodeURIComponent (s : string) : string :=
  match s with
  | EmptyString => EmptyString
  | String c r =>
      if uri_unreserved c then String c (encodeURIComponent r)
      else
        let n := nat_of_ascii c in
        String "%" (String (hex_digit (n / 16)) (String (hex_digit (n mod 16))
          (encodeURIComponent r)))
  end.

(** *** Objects *)

(** [o[k]] on an object: the value of the own property, if any. *)
Fixpoint obj_get (k : string) (o : obj) : option json :=
  match o with
  | nil => None
  | (k', v) :: r => if String.eqb k' k then Some v else obj_get k r
  end.

Definition obj_has (k : string) (o : obj) : bool :=
  match obj_get k o with Some _ => true | None => false end.

(** A key is an array index when it is the canonical decimal form of an
    integer below [2^32 - 1]; such keys enumerate first, in ascending
    numeric order, before all other keys. *)
Definition array_index (k : string) : option N :=
  match NilEmpty.uint_of_string k with
  | Some u =>
      let n := N.of_uint u in
      if String.eqb (NilEmpty.string_of_uint (N.to_uint n)) k && (n <? 4294967295)%N
      then Some n else None
  | None => None
  end.

Fixpoint obj_replace (k : string) (v : json) (o : obj) : obj :=
  match o with
  | nil => nil
  | (k', v') :: r =>
      if String.eqb k' k then (k', v) :: r else (k', v') :: obj_replace k v r
  end.

Fixpoint obj_insert_index (n : N) (k : string) (v : json) (o : obj) : obj :=
  match o with
  | nil => (k, v) :: nil
  | (k', v') :: r =>
      match array_index k' with
      | Some m =>
          if (m <? n)%N then (k', v') :: obj_insert_index n k v r
          else (k, v) :: o
      | None => (k, v) :: o
      end
  end.

(** [o[k] = v]: an existing property keeps its place; a new array-index
    key goes among the index keys, any other new key goes last. *)
Definition obj_set (k : string) (v : json) (o : obj) : obj :=
  if obj_has k o then obj_replace k v o
  else
    match array_index k with
    | Some n => obj_insert_index n k v o
    | None => o ++ (k, v) :: nil
    end.

(** [delete o[k]]. *)
Definition obj_delete (k : string) (o : obj) : obj :=
  List.filter (fun kv => negb (String.eqb (fst kv) k)) o.

Fixpoint index_entries (i : nat) (l : list json) : obj :=
  match l with
  | nil => nil
  | v :: r =>
      match v with
      | JNull => index_entries (S i) r
      | _ => (string_of_nat i, v) :: index_entries (S i) r
      end
  end.

Fixpoint char_entries (i : nat) (s : string) : obj :=
  match s with
  | EmptyString => nil
  | String c r => (string_of_nat i, JStr (String c EmptyString)) :: char_entries (S i) r
  end.

(** The own enumerable properties of a value that is not [null]: what
    [Object.entries(v)] lists and what [{...v}] copies. *)
Definition own_entries (v : json) : obj :=
  match v with
  | JObj o => o
  | JArr l => index_entries 0 l
  | JStr s => char_entries 0 s
  | _ => nil
  end.

(** [{ ...o, ...src }]: the properties of [src] assigned onto [o] one
    after the other. *)
Definition assign (o : obj) (src : obj) : obj :=
  fold_left (fun acc kv => obj_set (fst kv) (snd kv) acc) src o.

(** [{...v}] (spreading [null] or [undefined] copies nothing). *)
Definition spread (v : json) : obj := assign nil (own_entries v).

(** [v.k] for a data property name [k] (not an index, not a built-in
    such as [length]) on a value that is not [null]: only plain objects
    carry such properties. *)
Definition prop (k : string) (v : json) : option json :=
  match v with
  | JObj o => obj_get k o
  | _ => None
  end.

(** An object has no two properties of the same name. *)
Fixpoint distinct (keys : list string) : bool :=
  match keys with
  | nil => true
  | k :: r => negb (existsb (String.eqb k) r) && distinct r
  end.

Definition unique_keys (o : obj) : bool := distinct (obj_keys o).

(** [delete a[i]] on an array leaves a hole. *)
Fixpoint arr_delete (i : nat) (l : list json) : list json :=
  match l, i with
  | nil, _ => nil
  | _ :: r, O => JNull :: r
  | v :: r, S j => v :: arr_delete j r
  end.

(** The index of the first element of an array that is not a hole. *)
Fixpoint first_index (i : nat) (l : list json) : option nat :=
  match l with
  | nil => None
  | JNull :: r => first_index (S i) r
  | _ :: _ => Some i
  end.

End JS.

(** ** The Remote Document Store, as the read paths see it *)

Module Remote.
Import JS.

(** How an awaited remote call settles. *)
Inductive outcome (A : Type) : Type :=
| Done (a : A)
| Fault.
Arguments Done {A} a.
Arguments Fault {A}.

(** [query(ref(database, path), startAt(k), limitToFirst(n))]. *)
Record Query : Type := mkQuery {
  q_path : string;
  q_startAt : option string;
  q_limitToFirst : option nat
}.

(** [ref(database, path)]. *)
Definition ref (path : string) : Query := mkQuery path None None.

(** A character that a key of the store may hold: none of [. $ # [ ] /]
    and no ASCII control character. *)
Definition key_char (c : ascii) : bool :=
  let n := nat_of_ascii c in
  (32 <=? n)%nat && negb (n =? 127)%nat
  && negb (existsb (Nat.eqb n) (46 :: 36 :: 35 :: 91 :: 93 :: 47 :: nil)%nat).

Fixpoint key_chars (s : string) : bool :=
  match s with
  | EmptyString => true
  | String c r => key_char c && key_chars r
  end.

(** A key of the store: one path segment, not empty, of at most 768
    bytes. For such a key, and only then, [ref(database, c + '/' + key)]
    is the child [key] of the collection [c]: an empty key gives the
    collection itself, a [/] a place further down, and the client refuses
    the other characters. *)
Definition valid_key (s : string) : bool :=
  negb (String.eqb s "") && key_chars s && (String.length s <=? 768)%nat.

(** [get(q)] followed by [snapshot.val()]: whatever the store answers. *)
Definition Reader : Type := Query -> outcome json.

(** The client library refuses a limit that is not a positive integer
    before anything is sent: [limitToFirst(0)] throws. *)
Definition limitToFirst (n : nat) : outcome nat :=
  match n with O => Fault | S _ => Done n end.

(** How the store presents a list of children as a snapshot value: [null]
    when there is none, else an object (or an array) with exactly these
    properties. *)
Definition presents (v : json) (children : obj) : Prop :=
  match children with
  | nil => v = JNull
  | _ :: _ => typeof_object v = true /\ v <> JNull /\ own_entries v = children
  end.

End Remote.

(** ** [src/services/firebase.ts]: the parts and bill-of-materials reads *)

Module FirebaseService.
Import JS Remote.

(** [snapshot.val() || {}] *)
Definition val_or_empty (v : json) : json :=
  if truthy v then v else JObj nil.

Definition getAllParts (rd : Reader) : json :=
  match rd (ref "material_summary_2025") with
  | Done v => val_or_empty v
  | Fault => JObj nil
  end.

Section Search.

(** [String.prototype.toLowerCase], as the engine has it: the lower-casing
    of Unicode, of which nothing is modelled. What a proof uses of it is a
    hypothesis of that proof. *)
Variable toLowerCase : string -> string.

(** [(part.f || '').toLowerCase()]; [None] when the expression throws a
    TypeError: [part] is [null], or the property holds a truthy value that
    is not a string and so has no [toLowerCase]. *)
Definition lowered_field (f : string) (part : json) : option string :=
  match part with
  | JNull => None
  | _ =>
      match or_default (prop f part) (JStr "") with
      | JStr s => Some (toLowerCase s)
      | _ => None
      end
  end.

(** One turn of the [forEach] callback of [searchParts] on the entry
    [(material, part)], from the state [(filtered, count)]; [None] when
    the callback throws. *)
Definition search_step (searchLower : string) (limit : nat)
    (st : obj * nat) (entry : string * json) : option (obj * nat) :=
  let '(filtered, count) := st in
  let '(material, part) := entry in
  if (limit <=? count)%nat then Some st
  else
    let matchesMaterial := includes (toLowerCase material) searchLower in
    match lowered_field "SPRAS_EN" part with
    | None => None
    | Some d =>
        let matchesDescription := includes d searchLower in
        match lowered_field "Supplier_Name" part with
        | None => None
        | Some s =>
            let matchesSupplier := includes s searchLower in
            if matchesMaterial || matchesDescription || matchesSupplier
            then Some (obj_set material part filtered, S count)
            else Some st
        end
    end.

Fixpoint search_loop (searchLower : string) (limit : nat)
    (st : obj * nat) (entries : obj) : option (obj * nat) :=
  match entries with
  | nil => Some st
  | e :: r =>
      match search_step searchLower limit st e with
      | Some st' => search_loop searchLower limit st' r
      | None => None
      end
  end.

(** The client-side filter of [searchParts] over the fetched set. *)
Definition search_filter (allParts : json) (searchTerm : string) (limit : nat) : json :=
  let searchLower := toLowerCase searchTerm in
  match search_loop searchLower limit (nil, O) (own_entries allParts) with
  | Some (filtered, _) => JObj filtered
  | None => JObj nil
  end.

Definition searchParts (rd : Reader) (searchTerm : string) (limit : nat) : json :=
  if String.eqb searchTerm "" then
    match limitToFirst limit with
    | Done n =>
        match rd (mkQuery "material_summary_2025" None (Some n)) with
        | Done v => val_or_empty v
        | Fault => JObj nil
        end
    | Fault => JObj nil
    end
  else search_filter (getAllParts rd) searchTerm limit.

End Search.

(** [delete data[keys[0]]] with [keys = Object.keys(data)], in strict
    mode: an object loses its first property, an array gets a hole at its
    first index in use; [None] when the deletion throws (an index of a
    primitive string cannot be deleted). *)
Definition delete_first_key (data : json) : option json :=
  match data with
  | JObj o =>
      match o with
      | (k, _) :: _ => Some (JObj (obj_delete k o))
      | nil => Some data
      end
  | JArr l =>
      match first_index 0 l with
      | Some i => Some (JArr (arr_delete i l))
      | None => Some data
      end
  | JStr (String _ _) => None
  | _ => Some data
  end.

Definition getPaginatedParts (rd : Reader) (limit : nat) (startAfter : option string) : json :=
  let cursor :=
    match startAfter with
    | Some k => if String.eqb k "" then None else Some k
    | None => None
    end in
  let queryRef :=
    match cursor with
    | Some k =>
        match limitToFirst (limit + 1) with
        | Done n => Done (mkQuery "Parts" (Some k) (Some n))
        | Fault => Fault
        end
    | None =>
        match limitToFirst limit with
        | Done n => Done (mkQuery "Parts" None (Some n))
        | Fault => Fault
        end
    end in
  match queryRef with
  | Fault => JObj nil
  | Done q =>
      match rd q with
      | Fault => JObj nil
      | Done v =>
          let data := val_or_empty v in
          match cursor, obj_keys (own_entries data) with
          | Some k, key0 :: _ =>
              if String.eqb key0 k then
                match delete_first_key data with
                | Some data' => data'
                | None => JObj nil
                end
              else data
          | _, _ => data
          end
      end
  end.

(** The [BoMComponent] literal that [getBoMComponents] builds for the
    child [(materialCode, componentData)]. *)
Definition bom_component (materialCode : string) (componentData : json) : json :=
  JObj (("Component_Material", JStr materialCode)
     :: ("Component_Description",
           or_default (prop "Component_Description" componentData) (JStr ""))
     :: ("Standard_Price",
           or_default (prop "Standard_Price" componentData) (JNum 0))
     :: ("Supplier", or_default (prop "Supplier" componentData) (JStr ""))
     :: nil).

(** [componentData && typeof componentData === 'object'] *)
Definition is_component_data (componentData : json) : bool :=
  truthy componentData && typeof_object componentData.

(** The [forEach] callback of [getBoMComponents]. *)
Definition bom_step (components : obj) (entry : string * json) : obj :=
  let '(materialCode, componentData) := entry in
  if is_component_data componentData
  then obj_set materialCode (bom_component materialCode componentData) components
  else components.

Definition getBoMComponents (rd : Reader) (modelWithMY : string) : obj :=
  match rd (ref ("BoM/" +:+ modelWithMY)) with
  | Fault => nil
  | Done data =>
      if truthy data then fold_left bom_step (own_entries data) nil
      else nil
  end.

(** [getPartImageUrlWithFallback]: the guessed public URLs of a part image. *)
Definition getPartImageUrlWithFallback (material : string) : list string :=
  let baseUrl := "https://firebasestorage.googleapis.com/v0/b/partssr.firebasestorage.app/o/" in
  (baseUrl +:+ encodeURIComponent material +:+ ".png?alt=media")
  :: (baseUrl +:+ encodeURIComponent material +:+ ".jpg?alt=media")
  :: (baseUrl +:+ encodeURIComponent material +:+ ".webp?alt=media")
  :: nil.

End FirebaseService.

(** ** The hosted back end, as the application workflow sees it *)

Module Backend.
Import JS.

(** The bytes of a file or of a stored object. *)
Definition Blob : Type := list Byte.byte.

(** A remote call. [DbGet id] and [DbSet id v] address the child [id] of
    the collection, which is what [ref(database, 'partApplications/' + id)]
    is for an identifier that is a key of the store ([Remote.valid_key]). *)
Inductive Call : Type :=
| DbGet (id : string)
| DbGetAll
| DbSet (id : string) (v : json)
| Upload (key : string) (b : Blob)
| GetURL (key : string)
| Delete (key : string)
| Fetch (url : string).

Record Event : Type := mkEvent { ev_call : Call; ev_ok : bool }.

Inductive Error : Type :=
| RemoteFault (c : Call)
| ObjectNotFound (key : string)
| UndefinedValue (field : string)
| Failure (msg : string).

(** The collection [partApplications], the root of the Blob Store, the
    reading of [new Date().toISOString()], the faults to come (one flag per
    remote call, [true] for a call that fails; calls beyond the plan are
    not disturbed), and the remote calls issued so far. *)
Record World : Type := mkWorld {
  partApplications : gmap string json;
  blobs : gmap string Blob;
  clock : string;
  plan : list bool;
  log : list Event
}.

Inductive result (A : Type) : Type :=
| Ok (a : A)
| Throw (e : Error).
Arguments Ok {A} a.
Arguments Throw {A} e.

(** An [async] function: it runs on the world and fulfils or rejects. *)
Definition M (A : Type) : Type := World -> result A * World.

Definition ret {A} (a : A) : M A := fun w => (Ok a, w).

Definition throw {A} (e : Error) : M A := fun w => (Throw e, w).

Definition bind {A B} (m : M A) (k : A -> M B) : M B :=
  fun w =>
    match m w with
    | (Ok a, w') => k a w'
    | (Throw e, w') => (Throw e, w')
    end.

(** [try { m } catch (e) { h(e) }] *)
Definition try_catch {A} (m : M A) (h : Error -> M A) : M A :=
  fun w =>
    match m w with
    | (Ok a, w') => (Ok a, w')
    | (Throw e, w') => h e w'
    end.

Declare Scope async_scope.
Delimit Scope async_scope with async.
Notation "'let*' x := m 'in' k" := (bind m (fun x => k))
  (at level 10, x name, m at level 100, k at level 200) : async_scope.
Notation "'do' m 'then' k" := (bind m (fun _ => k))
  (at level 10, m at level 100, k at level 200) : async_scope.
Open Scope async_scope.

(** The base of the public URLs, as [getPartImageUrl] has it. *)
Definition storageBaseUrl : string :=
  "https://firebasestorage.googleapis.com/v0/b/partssr.firebasestorage.app/o/".

(** Modelled from the spec: the URL that the Blob Store issues for a key
    has the shape [{storageBaseUrl}/{urlEncodedKey}?alt=media]. *)
Definition downloadURL (key : string) : string :=
  storageBaseUrl +:+ encodeURIComponent key +:+ "?alt=media".

Definition record_event (c : Call) (ok : bool) (p : list bool) (w : World) : World :=
  mkWorld (partApplications w) (blobs w) (clock w) p (log w ++ mkEvent c ok :: nil).

(** One remote call: it fails when the plan says so, and otherwise does
    [act], which may itself fail. The call and how it went are logged. *)
Definition remote {A} (c : Call) (act : World -> result A * World) : M A :=
  fun w =>
    match plan w with
    | true :: p => (Throw (RemoteFault c), record_event c false p w)
    | p0 =>
        match act w with
        | (Ok a, w') => (Ok a, record_event c true (tl p0) w')
        | (Throw e, w') => (Throw e, record_event c false (tl p0) w')
        end
    end.

(** [get(ref(database, 'partApplications/' + id))], for an [id] that is a
    key of the store: the child [id] of the collection, [None] when
    [snapshot.exists()] is false. *)
Definition db_get (id : string) : M (option json) :=
  remote (DbGet id) (fun w => (Ok (partApplications w !! id), w)).

(** [get(ref(database, 'partApplications'))] *)
Definition db_get_all : M (list (string * json)) :=
  remote DbGetAll (fun w => (Ok (map_to_list (partApplications w)), w)).

(** [set(ref(database, 'partApplications/' + id), v)], for an [id] that
    is a key of the store: the child [id] of the collection becomes [v]. *)
Definition db_set (id : string) (v : json) : M unit :=
  remote (DbSet id v) (fun w =>
    (Ok tt, mkWorld (<[id := v]> (partApplications w)) (blobs w) (clock w) (plan w) (log w))).

(** A name that [ref(storage, name)] takes as it is: one without [/]
    (the client drops empty path components and reads a name with [://] as
    a URL). *)
Definition plain_name (name : string) : bool := negb (includes name "/").

Definition uploadBytes (key : string) (b : Blob) : M unit :=
  remote (Upload key b) (fun w =>
    (Ok tt, mkWorld (partApplications w) (<[key := b]> (blobs w)) (clock w) (plan w) (log w))).

Definition getDownloadURL (key : string) : M string :=
  remote (GetURL key) (fun w =>
    match blobs w !! key with
    | Some _ => (Ok (downloadURL key), w)
    | None => (Throw (ObjectNotFound key), w)
    end).

Definition deleteObject (key : string) : M unit :=
  remote (Delete key) (fun w =>
    match blobs w !! key with
    | Some _ =>
        (Ok tt, mkWorld (partApplications w) (delete key (blobs w)) (clock w) (plan w) (log w))
    | None => (Throw (ObjectNotFound key), w)
    end).

(** What an HTTP GET answers: [response.ok] and the body. *)
Record Response : Type := mkResponse { resp_ok : bool; resp_body : Blob }.

(** The stored object a URL points at, if any. *)
Definition resolve (w : World) (url : string) : option Blob :=
  snd <$> List.find (fun kb => String.eqb (downloadURL (fst kb)) url)
            (map_to_list (blobs w)).

(** [fetch(url)] resolves for every HTTP status; it rejects only when the
    request itself fails. *)
Definition fetch (url : string) : M Response :=
  remote (Fetch url) (fun w =>
    match resolve w url with
    | Some b => (Ok (mkResponse true b), w)
    | None => (Ok (mkResponse false nil), w)
    end).

(** [new Date().toISOString()] *)
Definition now : M string := fun w => (Ok (clock w), w).

End Backend.

(** ** [src/services/firebase.ts]: the legacy application collection *)

Module Applications.
Import JS Backend.

Inductive Priority : Type := low | medium | high.

Inductive Status : Type := pending | approved | rejected.

Definition priority_string (p : Priority) : string :=
  match p with low => "low" | medium => "medium" | high => "high" end.

Definition status_string (s : Status) : string :=
  match s with pending => "pending" | approved => "approved" | rejected => "rejected" end.

(** The interface [PartApplication] of the application page. *)
Record PartApplication : Type := mkPartApplication {
  id : string;
  requestedBy : string;
  department : string;
  priority : Priority;
  specifications : string;
  supplier : string;
  standardPrice : string;
  notes : string;
  submittedAt : string;
  status : Status;
  imageUrl : option string;
  partCode : option string
}.

(** [getPartApplications]: every stored application with its key as
    [id]; the empty list when the read fails. (Only the number of rows
    matters to the page; the store's own row order is not modelled.) *)
Definition getPartApplications : M (list json) :=
  try_catch
    (let* data := db_get_all in
     ret (map (fun kv => JObj (assign (("id", JStr (fst kv)) :: nil) (own_entries (snd kv))))
            data))
    (fun _ => ret nil).

(** The object literal that [savePartApplication] writes. *)
Definition application_record (a : PartApplication) (url : string) : json :=
  JObj (("requestedBy", JStr (requestedBy a))
     :: ("department", JStr (department a))
     :: ("priority", JStr (priority_string (priority a)))
     :: ("specifications", JStr (specifications a))
     :: ("supplier", JStr (supplier a))
     :: ("standardPrice", JStr (standardPrice a))
     :: ("notes", JStr (notes a))
     :: ("submittedAt", JStr (submittedAt a))
     :: ("status", JStr (status_string (status a)))
     :: ("imageUrl", JStr url)
     :: nil).

(** [savePartApplication]. The client refuses, before sending anything, a
    value with an [undefined] property. *)
Definition savePartApplication (a : PartApplication) : M unit :=
  try_catch
    (match imageUrl a with
     | Some url => db_set (id a) (application_record a url)
     | None => throw (UndefinedValue "imageUrl")
     end)
    (fun e => throw e).

(** The object literal
    [{ ...currentData, status: 'approved', partCode, approvedAt }]. *)
Definition approved_record (currentData : json) (code : string) (stamp : string) : json :=
  JObj (obj_set "approvedAt" (JStr stamp)
         (obj_set "partCode" (JStr code)
           (obj_set "status" (JStr "approved") (spread currentData)))).

Definition approvePartApplication (applicationId : string) (code : string) : M unit :=
  try_catch
    (let* snapshot := db_get applicationId in
     match snapshot with
     | Some currentData =>
         let* stamp := now in
         db_set applicationId (approved_record currentData code stamp)
     | None => ret tt
     end)
    (fun e => throw e).

(** [uploadPartApplicationImage]: the image goes to the root of the Blob
    Store as [{applicationId}.png]. *)
Definition uploadPartApplicationImage (file : Blob) (applicationId : string) : M string :=
  try_catch
    (do uploadBytes (applicationId +:+ ".png") file then
     getDownloadURL (applicationId +:+ ".png"))
    (fun e => throw e).

(** [renamePartApplicationImage]: copy [{applicationId}.png] to
    [{partCode}.png], delete the old object, point the record at the new
    one. *)
Definition renamePartApplicationImage (applicationId : string) (code : string) : M unit :=
  try_catch
    (let oldRef := applicationId +:+ ".png" in
     let* oldUrl := getDownloadURL oldRef in
     let* resp := fetch oldUrl in
     let blob := resp_body resp in
     let newRef := code +:+ ".png" in
     do uploadBytes newRef blob then
     do try_catch (deleteObject oldRef) (fun _ => ret tt) then
     let* newUrl := getDownloadURL newRef in
     let* snap := db_get applicationId in
     match snap with
     | Some current =>
         db_set applicationId (JObj (obj_set "imageUrl" (JStr newUrl) (spread current)))
     | None =>
         db_set applicationId (JObj (("imageUrl", JStr newUrl) :: nil))
     end)
    (fun e => throw e).

End Applications.

(** ** [src/pages/take-photo.tsx]: the application page *)

Module PartApplicationPage.
Import JS Backend Applications.

Record FormData : Type := mkFormData {
  f_requestedBy : string;
  f_department : string;
  f_priority : Priority;
  f_specifications : string;
  f_supplier : string;
  f_standardPrice : string;
  f_notes : string
}.

Inductive MessageType : Type := success | error.

(** The component state. *)
Record Page : Type := mkPage {
  isSubmitting : bool;
  applications : list json;
  message : option (MessageType * string);
  selectedFile : option Blob;
  approveDialog : option PartApplication;
  partCodeInput : string;
  formData : FormData
}.

Definition emptyForm : FormData := mkFormData "" "" medium "" "" "" "".

Definition showMessage (t : MessageType) (text : string) (p : Page) : Page :=
  mkPage (isSubmitting p) (applications p) (Some (t, text)) (selectedFile p)
    (approveDialog p) (partCodeInput p) (formData p).

Definition setIsSubmitting (b : bool) (p : Page) : Page :=
  mkPage b (applications p) (message p) (selectedFile p)
    (approveDialog p) (partCodeInput p) (formData p).

Definition setApplications (apps : list json) (p : Page) : Page :=
  mkPage (isSubmitting p) apps (message p) (selectedFile p)
    (approveDialog p) (partCodeInput p) (formData p).

Definition resetForm (p : Page) : Page :=
  mkPage (isSubmitting p) (applications p) (message p) None
    (approveDialog p) (partCodeInput p) emptyForm.

Definition closeApproveDialog (p : Page) : Page :=
  mkPage (isSubmitting p) (applications p) (message p) (selectedFile p)
    None "" (formData p).

(** [loadApplications] never throws: [getPartApplications] swallows the
    fault and answers the empty list. *)
Definition loadApplications (p : Page) : M Page :=
  try_catch
    (let* apps := getPartApplications in ret (setApplications apps p))
    (fun _ => ret (showMessage error "Failed to load applications" p)).

(** [`APP${nextNumber.toString().padStart(4, '0')}`] *)
Definition generateApplicationId (p : Page) : string :=
  let nextNumber := length (applications p) + 1 in
  "APP" +:+ padStart (string_of_nat nextNumber) 4 "0".

Definition is_empty (s : string) : bool := String.eqb s "".

Definition handleSubmit (p : Page) : M Page :=
  let f := formData p in
  if is_empty (f_requestedBy f) || is_empty (f_department f)
     || is_empty (f_specifications f) || is_empty (f_supplier f)
     || is_empty (f_standardPrice f)
  then ret (showMessage error "Please fill in all required fields" p)
  else
    match selectedFile p with
    | None => ret (showMessage error "Please upload an image" p)
    | Some file =>
        let p1 := setIsSubmitting true p in
        let* p' :=
          try_catch
            (let applicationId := generateApplicationId p1 in
             let* url := uploadPartApplicationImage file applicationId in
             let* stamp := now in
             let newApplication :=
               mkPartApplication applicationId (f_requestedBy f) (f_department f)
                 (f_priority f) (f_specifications f) (f_supplier f)
                 (f_standardPrice f) (f_notes f) stamp pending (Some url) None in
             do savePartApplication newApplication then
             let* p2 := loadApplications p1 in
             ret (resetForm
                    (showMessage success
                       ("Part application " +:+ applicationId +:+ " submitted successfully!")
                       p2)))
            (fun _ => ret (showMessage error "Failed to submit part application" p1)) in
        ret (setIsSubmitting false p')
    end.

(** A truthy [imageUrl]. *)
Definition has_image (a : PartApplication) : bool :=
  match imageUrl a with
  | Some u => negb (is_empty u)
  | None => false
  end.

(** [handleApprove], over the [renamePartApplicationImage] of the service
    module in use (the repository carries more than one revision of it). *)
Definition handleApprove_with (rename : string -> string -> M unit) (p : Page) : M Page :=
  match approveDialog p with
  | None => ret (showMessage error "Please enter a part code" p)
  | Some application =>
      if is_empty (trim (partCodeInput p))
      then ret (showMessage error "Please enter a part code" p)
      else
        let p1 := setIsSubmitting true p in
        let code := trim (partCodeInput p) in
        let* p' :=
          try_catch
            (do approvePartApplication (id application) code then
             do (if has_image application
                 then rename (id application) code
                 else ret tt) then
             let* p2 := loadApplications p1 in
             ret (closeApproveDialog
                    (showMessage success
                       ("Application " +:+ id application +:+ " approved with part code "
                          +:+ partCodeInput p)
                       p2)))
            (fun _ => ret (showMessage error "Failed to approve application" p1)) in
        ret (setIsSubmitting false p')
  end.

(** [handleApprove] with [src/services/firebase.ts]. *)
Definition handleApprove (p : Page) : M Page :=
  handleApprove_with renamePartApplicationImage p.

End PartApplicationPage.

(** ** The revision of the service with admin overrides
    (the second module of [src/services/pdf.ts]) *)

Module FirebaseServiceOverrides.
Import JS Remote.

(** [typeof value === 'object' && value !== null && !Array.isArray(value)] *)
Definition isRecord (value : json) : bool :=
  match value with
  | JObj _ => true
  | _ => false
  end.

(** The callback [if (isRecord(part)) parts[material] = part]. *)
Definition keep_record (parts : obj) (entry : string * json) : obj :=
  if isRecord (snd entry) then obj_set (fst entry) (snd entry) parts else parts.

(** The records among the children of a snapshot value that is itself a
    record. *)
Definition records_of (val : json) : obj :=
  if isRecord val then fold_left keep_record (own_entries val) nil else nil.

(** [x ?? {}] *)
Definition or_empty (x : option json) : json :=
  match x with
  | Some JNull | None => JObj nil
  | Some v => v
  end.

(** The callback
    [merged[material] = { ...(merged[material] ?? {}), ...overrides }]. *)
Definition merge_step (merged : obj) (entry : string * json) : obj :=
  let '(material, overrides) := entry in
  obj_set material
    (JObj (assign (spread (or_empty (obj_get material merged))) (own_entries overrides)))
    merged.

(** [getAllParts]: both subtrees are read jointly; a fault of either read
    gives the empty mapping (the [catch] clause, whose opening line is not
    in the file as kept). *)
Definition getAllParts (rd : Reader) : json :=
  match rd (ref "material_summary_2025"), rd (ref "Parts") with
  | Done baseVal, Done adminVal =>
      let baseParts := records_of baseVal in
      let adminParts := records_of adminVal in
      let merged := assign nil baseParts in
      JObj (fold_left merge_step adminParts merged)
  | _, _ => JObj nil
  end.

Definition searchParts (toLowerCase : string -> string)
    (rd : Reader) (searchTerm : string) (limit : nat) : json :=
  if String.eqb searchTerm "" then
    match limitToFirst limit with
    | Done n =>
        match rd (mkQuery "material_summary_2025" None (Some n)) with
        | Done v => FirebaseService.val_or_empty v
        | Fault => JObj nil
        end
    | Fault => JObj nil
    end
  else FirebaseService.search_filter toLowerCase (getAllParts rd) searchTerm limit.

End FirebaseServiceOverrides.

(** ** [src/services/pdf.ts]: embedding the image *)

Module PDFService.
Import JS.

(** The fields of the renderer's [PartApplication] that the image step
    reads. *)
Record PartApplication : Type := mkApplication {
  ticket_id : string;
  image_url : option string
}.

(** How loading one candidate ends: [onerror]; [onload] with the image
    drawn and added; [onload] without a 2D context (nothing is added, the
    promise still resolves [true]); [onload] whose processing throws. *)
Inductive LoadResult : Type :=
| LoadError
| Decoded (width height : Q)
| DecodedNoContext
| DecodedThrows.

Inductive DrawOp : Type :=
| AddPage
| Heading (text : string) (y : Q)
| Picture (url : string) (y width height : Q).

Record Cursor : Type := mkCursor { yPosition : Q; ops : list DrawOp }.

Definition Qgtb (a b : Q) : bool := negb (Qle_bool a b).

(** The size at which an image is placed: at most [maxWidth] by 120,
    aspect ratio kept. *)
Definition fit (width height maxWidth : Q) : Q * Q :=
  let maxHeight := 120%Q in
  let aspectRatio := (width / height)%Q in
  let '(w1, h1) :=
    if Qgtb width maxWidth then (maxWidth, (maxWidth / aspectRatio)%Q)
    else (width, height) in
  if Qgtb h1 maxHeight then ((maxHeight * aspectRatio)%Q, maxHeight) else (w1, h1).

Definition firebaseImageUrl (a : PartApplication) (ext : string) : string :=
  "https://firebasestorage.googleapis.com/v0/b/parts-catalogue-mgx.appspot.com/o/part-applications%2F"
    +:+ ticket_id a +:+ ext +:+ "?alt=media".

(** The candidates, in the order in which they are pushed. *)
Definition imageUrls (a : PartApplication) : list string :=
  (match image_url a with
   | Some u => if String.eqb u "" then nil else u :: nil
   | None => nil
   end)
  ++ firebaseImageUrl a ".jpg" :: firebaseImageUrl a ".png" :: nil.

(** One turn of the loop on [imageUrl]: the cursor afterwards, and
    whether the loop breaks. *)
Definition try_image (load : string -> LoadResult) (pageHeight margin contentWidth : Q)
    (c : Cursor) (imageUrl : string) : Cursor * bool :=
  let c1 :=
    if Qgtb (yPosition c) (pageHeight - 100)%Q
    then mkCursor margin (ops c ++ AddPage :: nil) else c in
  let c2 :=
    mkCursor (yPosition c1 + 10)%Q (ops c1 ++ Heading "Attached Image" (yPosition c1) :: nil) in
  match load imageUrl with
  | LoadError => (c2, false)
  | DecodedThrows => (c2, false)
  | DecodedNoContext => (c2, true)
  | Decoded width height =>
      let '(w, h) := fit width height contentWidth in
      (mkCursor (yPosition c2 + h + 10)%Q
         (ops c2 ++ Picture imageUrl (yPosition c2) w h :: nil), true)
  end.

(** The loop [for (const imageUrl of imageUrls)]; with the final cursor it
    gives the candidates that were tried, in order. *)
Fixpoint embed_loop (load : string -> LoadResult) (pageHeight margin contentWidth : Q)
    (c : Cursor) (urls : list string) : Cursor * list string :=
  match urls with
  | nil => (c, nil)
  | u :: r =>
      let '(c', stop) := try_image load pageHeight margin contentWidth c u in
      if stop then (c', u :: nil)
      else
        let '(c'', tried) := embed_loop load pageHeight margin contentWidth c' r in
        (c'', u :: tried)
  end.

(** The image step of [generateEnglishPage]. *)
Definition embedImage (load : string -> LoadResult) (pageHeight margin contentWidth : Q)
    (c : Cursor) (a : PartApplication) : Cursor * list string :=
  embed_loop load pageHeight margin contentWidth c (imageUrls a).

End PDFService.

(** ** The revision of the service that copies the image
    (the second module of [src/services/pdf.ts]) *)

Module CopyStrategy.
Import JS Backend.

Section Browser.

(** What drawing the image at a URL on a canvas and encoding the canvas as
    PNG gives; [None] when the image does not load, no 2D context is to be
    had, or no blob comes out. *)
Variable canvas : string -> option Blob.

(** [String(v)], for a stored [imageUrl] that is not a string. *)
Variable toString : json -> string.

Definition copyImageViaCanvas (imageUrl code : string) : M string :=
  match canvas imageUrl with
  | None => throw (Failure "Failed to load image for canvas copy")
  | Some blob =>
      do uploadBytes (code +:+ ".png") blob then
      getDownloadURL (code +:+ ".png")
  end.

Definition url_of (v : json) : string :=
  match v with JStr s => s | _ => toString v end.

Definition copyImageToPartCode (applicationId code : string) : M json :=
  try_catch
    (let* appSnapshot := db_get applicationId in
     match appSnapshot with
     | None => throw (Failure "Application not found")
     | Some appData =>
         match prop "imageUrl" appData with
         | Some currentImageUrl =>
             if truthy currentImageUrl then
               let* response := fetch (url_of currentImageUrl) in
               if negb (resp_ok response) then
                 let* url := copyImageViaCanvas (url_of currentImageUrl) code in
                 ret (JStr url)
               else
                 do uploadBytes (code +:+ ".png") (resp_body response) then
                 let* newImageUrl := getDownloadURL (code +:+ ".png") in
                 ret (JStr newImageUrl)
             else ret (JStr "")
         | None => ret (JStr "")
         end
     end)
    (fun _ =>
       let* appSnapshot := db_get applicationId in
       match appSnapshot with
       | Some appData => ret (or_default (prop "imageUrl" appData) (JStr ""))
       | None => ret (JStr "")
       end).

(** [renamePartApplicationImage], "now with the copy strategy": the old
    object stays, and no error is thrown, so that the approval goes on. *)
Definition renamePartApplicationImage (applicationId code : string) : M unit :=
  try_catch
    (let* newImageUrl := copyImageToPartCode applicationId code in
     if truthy newImageUrl then
       let* appSnapshot := db_get applicationId in
       match appSnapshot with
       | Some currentData =>
           db_set applicationId
             (JObj (obj_set "partCodeImageUrl" newImageUrl
                      (obj_set "imageUrl" newImageUrl (spread currentData))))
       | None => ret tt
       end
     else ret tt)
    (fun _ => ret tt).

End Browser.

End CopyStrategy.

(** ** The predicates of the statements *)

Module Statements.
Import JS.

Section Matching.

(** The engine's [toLowerCase]. *)
Variable toLowerCase : string -> string.

(** [hay] contains [term] when letter case is ignored. *)
Definition contains_ci (hay term : string) : Prop :=
  exists pre post, toLowerCase hay = pre +:+ toLowerCase term +:+ post.

(** The entry matches on its material code, on its English description or
    on its supplier name. *)
Definition entry_matches (term : string) (material : string) (part : json) : Prop :=
  contains_ci material term
  \/ (exists d, prop "SPRAS_EN" part = Some (JStr d) /\ contains_ci d term)
  \/ (exists s, prop "Supplier_Name" part = Some (JStr s) /\ contains_ci s term).

(** What the loop keeps true of [(filtered, count)]. *)
Definition search_inv (term : string) (limit : nat) (st : obj * nat) : Prop :=
  length (fst st) <= snd st /\ snd st <= limit /\
  forall material part, In (material, part) (fst st) -> entry_matches term material part.

End Matching.



(** A structured record, as the repository's own [isRecord] has it: an
    object that is not an array. *)
Definition structured_record (v : json) : bool :=
  match v with
  | JObj _ => true
  | _ => false
  end.

(** A value of JavaScript type [object] that is not [null]: a record or an
    array. *)
Definition object_or_array (v : json) : bool :=
  match v with
  | JObj _ | JArr _ => true
  | _ => false
  end.

(** What a component shows for a field: the stored value when there is
    one and it is truthy, the default otherwise. *)
Definition shown (stored : option json) (default : json) : json :=
  match stored with
  | Some v => if truthy v then v else default
  | None => default
  end.

(** The keys of the children for which the claim has a component: those
    whose value is a structured record. *)
Definition claimed_component_keys (data : json) : list string :=
  obj_keys (List.filter (fun kv => structured_record (snd kv)) (own_entries data)).

(** The next remote call is not made to fail by the plan. *)
Definition next_call_undisturbed (w : Backend.World) : Prop :=
  hd_error (Backend.plan w) <> Some true.

(** The stored record under [id] is in the state [status], with the part
    code [code] when there is one. *)
Definition stored_with (w : Backend.World) (id : string) (status : string)
    (code : option string) : Prop :=
  exists record,
    Backend.partApplications w !! id = Some record /\
    prop "status" record = Some (JStr status) /\
    prop "partCode" record = (JStr <$> code).

(** The candidate loads: the promise of the image resolves [true]. *)
Definition loads (load : string -> PDFService.LoadResult) (url : string) : bool :=
  match load url with
  | PDFService.Decoded _ _ | PDFService.DecodedNoContext => true
  | PDFService.LoadError | PDFService.DecodedThrows => false
  end.

(** The stored image URL of the record, when it has one. *)
Definition stored_url (a : PDFService.PartApplication) : list string :=
  match PDFService.image_url a with
  | Some u => if String.eqb u "" then nil else u :: nil
  | None => nil
  end.

(** The candidates as the claim lists them: the stored URL, then the
    public URLs of the identifier with [.png], [.jpg], [.webp]. *)
Definition claimed_candidates (a : PDFService.PartApplication) : list string :=
  stored_url a ++ FirebaseService.getPartImageUrlWithFallback (PDFService.ticket_id a).

(** Trying [urls] in order and stopping at the first that loads. *)
Fixpoint tried_until_loaded (load : string -> PDFService.LoadResult)
    (urls : list string) : list string :=
  match urls with
  | nil => nil
  | u :: r => if loads load u then u :: nil else u :: tried_until_loaded load r
  end.

(** A required field of the form is left empty. *)
Definition missing_required (f : PartApplicationPage.FormData) : Prop :=
  PartApplicationPage.f_requestedBy f = "" \/ PartApplicationPage.f_department f = "" \/
  PartApplicationPage.f_specifications f = "" \/ PartApplicationPage.f_supplier f = "" \/
  PartApplicationPage.f_standardPrice f = "".

End Statements.

(** ** Sample data *)

Module Samples.
Import JS Remote.

Definition lower_ascii (c : ascii) : ascii :=
  let n := nat_of_ascii c in
  if (65 <=? n)%nat && (n <=? 90)%nat then ascii_of_nat (n + 32) else c.

(** What [toLowerCase] is on ASCII text, which is all that the samples
    hold: the letters A to Z go to a to z, and nothing else changes. *)
Fixpoint toLowerCase (s : string) : string :=
  match s with
  | EmptyString => EmptyString
  | String c r => String (lower_ascii c) (toLowerCase r)
  end.

Definition part (description supplierName : string) : json :=
  JObj (("SPRAS_EN", JStr description) :: ("Supplier_Name", JStr supplierName) :: nil).

(** Three rows of [material_summary_2025]. *)
Definition base_rows : obj :=
  ("M-100", part "Hex Bolt M8" "Acme Fasteners")
  :: ("M-200", part "Steel nut" "Bolton Ltd")
  :: ("M-300", part "Washer" "Acme Fasteners")
  :: nil.

(** Two rows of [Parts]: an override of [M-200] and a row of its own. *)
Definition admin_rows : obj :=
  ("M-200", JObj (("SPRAS_EN", JStr "Steel nut M8") :: ("notes", JStr "check stock") :: nil))
  :: ("M-900", JObj (("notes", JStr "admin only") :: nil))
  :: nil.

Definition rows_from (k : string) (rows : obj) : obj :=
  List.filter (fun kv => negb (String.ltb (fst kv) k)) rows.

(** A store that holds these rows and answers every query. *)
Definition store : Reader := fun q =>
  let rows :=
    if String.eqb (q_path q) "material_summary_2025" then base_rows
    else if String.eqb (q_path q) "Parts" then admin_rows
    else if String.eqb (q_path q) "BoM/X1-2024" then
      ("C-1", JObj (("Component_Description", JStr "Bracket") :: ("Standard_Price", JNum 12) :: nil))
      :: ("C-2", JStr "n/a")
      :: nil
    else nil in
  let rows := match q_startAt q with Some k => rows_from k rows | None => rows end in
  let rows := match q_limitToFirst q with Some n => firstn n rows | None => rows end in
  Done (match rows with nil => JNull | _ => JObj rows end).

(** A bill of materials in which one child is a list: the store presents
    children with the keys 0, 1, ... as an array. *)
Definition bom_rows_with_list : obj :=
  ("C-1", JObj (("Component_Description", JStr "Bracket") :: ("Standard_Price", JNum 12) :: nil))
  :: ("C-3", JArr (JStr "left" :: JStr "right" :: nil))
  :: nil.

Definition store_with_list : Reader := fun q =>
  if String.eqb (q_path q) "BoM/X1-2024" then Done (JObj bom_rows_with_list) else Done JNull.

(** A pending application with its image in the Blob Store. *)
Definition application : Applications.PartApplication :=
  Applications.mkPartApplication "APP0001" "Dana" "Service" Applications.high
    "M8 bolt, zinc plated" "Acme Fasteners" "0.40" "" "2025-01-05T10:00:00.000Z"
    Applications.pending (Some (Backend.downloadURL "APP0001.png")) None.

Definition world : Backend.World :=
  Backend.mkWorld
    {[ "APP0001" := Applications.application_record application
                      (Backend.downloadURL "APP0001.png") ]}
    {[ "APP0001.png" := (Byte.x89 :: Byte.x50 :: Byte.x4e :: Byte.x47 :: nil) ]}
    "2025-02-01T09:00:00.000Z" nil nil.

(** The same world with a Blob Store whose first call fails: the two
    calls of the approval go through, the third remote call does not. *)
Definition world_faulty_blob_store : Backend.World :=
  Backend.mkWorld (Backend.partApplications world) (Backend.blobs world)
    (Backend.clock world) (false :: false :: true :: nil) nil.

(** The same world, where only the deletion of the old object fails. *)
Definition world_faulty_delete : Backend.World :=
  Backend.mkWorld (Backend.partApplications world) (Backend.blobs world)
    (Backend.clock world) (false :: false :: false :: true :: nil) nil.

(** The page with the approval dialog open on the application. *)
Definition approve_page : PartApplicationPage.Page :=
  PartApplicationPage.mkPage false nil None None (Some application) "PC-100"
    PartApplicationPage.emptyForm.

(** The page with a filled form and a selected image. *)
Definition submit_page : PartApplicationPage.Page :=
  PartApplicationPage.mkPage false nil None (Some (Byte.xff :: Byte.xd8 :: nil)) None ""
    (PartApplicationPage.mkFormData "Lee" "Workshop" Applications.low
       "Gasket 40 mm" "Sealco" "2.10" "").

End Samples.

(** ** [src/services/firebase.ts]: the part images *)

Module Images.
Import JS Backend.

Definition getPartImageUrl (material : string) : string :=
  let baseUrl := "https://firebasestorage.googleapis.com/v0/b/partssr.firebasestorage.app/o/" in
  baseUrl +:+ encodeURIComponent material +:+ ".png?alt=media".



(** [uploadPartImageWithCode], used by the Take Photo page. *)
Definition uploadPartImageWithCode (file : Blob) (code : string) : M string :=
  try_catch
    (do uploadBytes (code +:+ ".png") file then
     getDownloadURL (code +:+ ".png"))
    (fun e => throw e).

End Images.

(** ** [src/pages/take-photo.tsx]: the Take Photo page *)

Module TakePhotoPage.
Import JS Backend.

(** A [File]: its MIME type and its bytes. *)
Record File : Type := mkFile { file_type : string; file_bytes : Blob }.

Inductive MessageType : Type := success | error.

(** The component state; [imagePreview] holds the bytes that the preview
    shows (the data URL that the [FileReader] delivers). *)
Record Page : Type := mkPage {
  selectedFile : option File;
  imagePreview : option Blob;
  partCode : string;
  isUploading : bool;
  message : option (MessageType * string)
}.

Definition initial : Page := mkPage None None "" false None.

Definition showMessage (t : MessageType) (text : string) (p : Page) : Page :=
  mkPage (selectedFile p) (imagePreview p) (partCode p) (isUploading p) (Some (t, text)).

Definition setIsUploading (b : bool) (p : Page) : Page :=
  mkPage (selectedFile p) (imagePreview p) (partCode p) b (message p).

(** [setPartCode(e.target.value)] *)
Definition setPartCode (code : string) (p : Page) : Page :=
  mkPage (selectedFile p) (imagePreview p) code (isUploading p) (message p).

(** [handleFileSelect] on [event.target.files?.[0]]. *)
Definition handleFileSelect (file : option File) (p : Page) : Page :=
  match file with
  | None => p
  | Some f =>
      if String.prefix "image/" (file_type f)
      then mkPage (Some f) (Some (file_bytes f)) (partCode p) (isUploading p) (message p)
      else showMessage error "Please select an image file" p
  end.

Definition clearPhoto (p : Page) : Page :=
  mkPage None None (partCode p) (isUploading p) (message p).

Definition handleUpload (p : Page) : M Page :=
  match selectedFile p with
  | None => ret (showMessage error "Please select or take a photo first" p)
  | Some file =>
      if String.eqb (trim (partCode p)) ""
      then ret (showMessage error "Please enter a part code" p)
      else
        let p1 := setIsUploading true p in
        let* p' :=
          try_catch
            (let* imageUrl :=
               Images.uploadPartImageWithCode (file_bytes file) (trim (partCode p)) in
             let p2 :=
               showMessage success
                 ("Photo uploaded successfully as " +:+ partCode p) p1 in
             ret (mkPage None None "" (isUploading p2) (message p2)))
            (fun _ => ret (showMessage error "Failed to upload photo" p1)) in
        ret (setIsUploading false p')
  end.

(** What the user can do on the page. *)
Inductive Action : Type :=
| SelectFile (file : option File)
| ClearPhoto
| TypePartCode (code : string)
| Upload.

Definition act (a : Action) (p : Page) : M Page :=
  match a with
  | SelectFile file => ret (handleFileSelect file p)
  | ClearPhoto => ret (clearPhoto p)
  | TypePartCode code => ret (setPartCode code p)
  | Upload => handleUpload p
  end.

(** A session: the actions one after the other (no handler throws). *)
Fixpoint session (actions : list Action) (p : Page) : M Page :=
  match actions with
  | nil => ret p
  | a :: r => let* p' := act a p in session r p'
  end.

End TakePhotoPage.

(** ** [src/services/firebase.ts]: reads and writes of single documents *)

Module Documents.
Import JS Backend.

(** The two collections of single documents. *)
Inductive Collection : Type := Parts | PartApplications.

Definition collection_path (c : Collection) : string :=
  match c with Parts => "Parts" | PartApplications => "PartApplications" end.

(** The children of [Parts] and of [PartApplications] by key, the faults
    to come (one flag per remote call), the keys that [push] generates, in
    order, with the number generated so far, and the reading of
    [Date.now()]. *)
Record Db : Type := mkDb {
  parts : gmap string json;
  applications : gmap string json;
  faults : list bool;
  push_key : nat -> string;
  pushed : nat;
  date_now : Z
}.

Definition children (c : Collection) (db : Db) : gmap string json :=
  match c with Parts => parts db | PartApplications => applications db end.

Definition with_faults (f : list bool) (db : Db) : Db :=
  mkDb (parts db) (applications db) f (push_key db) (pushed db) (date_now db).

Definition with_children (c : Collection) (d : gmap string json) (db : Db) : Db :=
  match c with
  | Parts => mkDb d (applications db) (faults db) (push_key db) (pushed db) (date_now db)
  | PartApplications => mkDb (parts db) d (faults db) (push_key db) (pushed db) (date_now db)
  end.

(** [get(ref(database, c + '/' + key))] and [snapshot.val()], for a [key]
    that is a key of the store ([Remote.valid_key]): the child [key] of the
    collection, [null] when there is none. *)
Definition get (c : Collection) (key : string) (db : Db) : result json * Db :=
  match faults db with
  | true :: f =>
      (Throw (RemoteFault (DbGet (collection_path c +:+ "/" +:+ key))), with_faults f db)
  | f => (Ok (default JNull (children c db !! key)), with_faults (tl f) db)
  end.

(** A value that the store does not keep: [null], or an object without
    properties. *)
Definition is_nothing (v : json) : bool :=
  match v with
  | JNull => true
  | JObj nil => true
  | _ => false
  end.

(** [set(ref(database, c + '/' + key), v)], for a [key] that is a key of
    the store: the child [key] becomes [v]; writing nothing removes it. *)
Definition set (c : Collection) (key : string) (v : json) (db : Db) : result unit * Db :=
  match faults db with
  | true :: f =>
      (Throw (RemoteFault (DbSet (collection_path c +:+ "/" +:+ key) v)), with_faults f db)
  | f =>
      (Ok tt,
       with_faults (tl f)
         (with_children c
            (if is_nothing v then delete key (children c db) else <[key := v]> (children c db))
            db))
  end.

(** [push(ref)]: a new key, made on the client. *)
Definition push (db : Db) : string * Db :=
  (push_key db (pushed db),
   mkDb (parts db) (applications db) (faults db) (push_key db) (S (pushed db)) (date_now db)).

Definition getPartByMaterial (material : string) (db : Db) : json * Db :=
  match get Parts material db with
  | (Ok v, db') => (v, db')
  | (Throw _, db') => (JNull, db')
  end.

(** [updatePartData], with
    [updatedData = { ...(currentData.val() || {}), ...updates }]. *)
Definition updatePartData (material : string) (updates : obj) (db : Db) : result unit * Db :=
  match get Parts material db with
  | (Throw e, db') => (Throw e, db')
  | (Ok currentData, db') =>
      let updatedData :=
        JObj (assign (spread (FirebaseService.val_or_empty currentData)) updates) in
      set Parts material updatedData db'
  end.

(** The object literal [{ ...application, ticket_id, created_at }]. *)
Definition fullApplication (application : obj) (ticketId : string) (stamp : Z) : json :=
  JObj (obj_set "created_at" (JNum (inject_Z stamp))
         (obj_set "ticket_id" (JStr ticketId) (assign nil application))).

Definition submitPartApplication (application : obj) (db : Db) : result string * Db :=
  let '(ticketId, db1) := push db in
  match set PartApplications ticketId
          (fullApplication application ticketId (date_now db1)) db1 with
  | (Ok _, db2) => (Ok ticketId, db2)
  | (Throw e, db2) => (Throw e, db2)
  end.

Definition getPartApplication (ticketId : string) (db : Db) : json * Db :=
  match get PartApplications ticketId db with
  | (Ok v, db') => (v, db')
  | (Throw _, db') => (JNull, db')
  end.

End Documents.

(** ** The predicates of the further statements *)

Module MoreStatements.
Import JS.

(** The number in an identifier [APPnnnn]. *)
Definition application_number (id : string) : option nat :=
  match id with
  | String "A" (String "P" (String "P" digits)) =>
      Nat.of_uint <$> NilEmpty.uint_of_string digits
  | _ => None
  end.

Section Matches.

(** The engine's [toLowerCase]. *)
Variable toLowerCase : string -> string.

(** Whether the [forEach] callback of [searchParts] matches the entry;
    [None] when it throws. *)
Definition matches (searchLower : string) (entry : string * json) : option bool :=
  match FirebaseService.lowered_field toLowerCase "SPRAS_EN" (snd entry),
        FirebaseService.lowered_field toLowerCase "Supplier_Name" (snd entry) with
  | Some d, Some s =>
      Some (includes (toLowerCase (fst entry)) searchLower
            || includes d searchLower || includes s searchLower)
  | _, _ => None
  end.

(** The entries that match, in order. *)
Definition matching (searchLower : string) (entries : obj) : obj :=
  List.filter (fun e => match matches searchLower e with Some b => b | None => false end)
    entries.

(** No entry makes the callback throw. *)
Definition all_readable (searchLower : string) (entries : obj) : Prop :=
  forall e, In e entries -> matches searchLower e <> None.

End Matches.

(** The selected file, if any, is an image. *)
Definition selection_is_image (p : TakePhotoPage.Page) : Prop :=
  match TakePhotoPage.selectedFile p with
  | Some f => String.prefix "image/" (TakePhotoPage.file_type f) = true
  | None => True
  end.

(** White space at neither end. *)
Definition trimmed (s : string) : Prop := trim s = s.

(** The files that the actions of a session hand to the page. *)
Fixpoint offered (actions : list TakePhotoPage.Action) : list TakePhotoPage.File :=
  match actions with
  | nil => nil
  | TakePhotoPage.SelectFile (Some f) :: r => f :: offered r
  | _ :: r => offered r
  end.

(** What the Take Photo page may ask of the remote side: to store the
    bytes of an image among [files] under [{code}.png], for a code that is
    trimmed and not empty, and to issue a URL; nothing else. *)
Definition photo_event (files : list TakePhotoPage.File) (e : Backend.Event) : Prop :=
  match Backend.ev_call e with
  | Backend.Upload key b =>
      exists f code,
        In f files /\ String.prefix "image/" (TakePhotoPage.file_type f) = true /\
        b = TakePhotoPage.file_bytes f /\
        key = code +:+ ".png" /\ trimmed code /\ code <> ""
  | Backend.GetURL _ => True
  | _ => False
  end.

(** An object literal whose fields are all strings. *)
Definition strings (fields : list (string * string)) : obj :=
  map (fun kv => (fst kv, JStr (snd kv))) fields.

(** The values of the object are strings, numbers and booleans, which the
    store keeps as they are. *)
Definition plain (o : obj) : bool :=
  forallb (fun kv => match snd kv with JStr _ | JNum _ | JBool _ => true | _ => false end) o.

(** What the headings and pictures of a list of drawing operations
    are. *)
Definition headings (ops : list PDFService.DrawOp) : list PDFService.DrawOp :=
  List.filter (fun o => match o with PDFService.Heading _ _ => true | _ => false end) ops.

Definition pictures (ops : list PDFService.DrawOp) : list PDFService.DrawOp :=
  List.filter (fun o => match o with PDFService.Picture _ _ _ _ => true | _ => false end) ops.

End MoreStatements.

(** * Properties *)

(** ** Objects and strings *)

Module JSFacts.
Import JS.

Lemma eqb_false_ne (a b : string) : String.eqb a b = false <-> a <> b.
Proof. apply String.eqb_neq. Qed.

Lemma obj_get_app (k : string) (o1 o2 : obj) :
  obj_get k (o1 ++ o2) =
  match obj_get k o1 with Some v => Some v | None => obj_get k o2 end.
Proof.
  induction o1 as [|[k' v'] r IH]; simpl; [reflexivity|].
  destruct (String.eqb k' k); [reflexivity|apply IH].
Qed.

Lemma obj_get_replace_same (k : string) (v : json) (o : obj) :
  obj_get k (obj_replace k v o) =
  match obj_get k o with Some _ => Some v | None => None end.
Proof.
  induction o as [|[k' v'] r IH]; simpl; [reflexivity|].
  destruct (String.eqb k' k) eqn:E; simpl; rewrite E; [reflexivity|apply IH].
Qed.

Lemma obj_get_replace_other (k k' : string) (v : json) (o : obj) :
  k <> k' -> obj_get k' (obj_replace k v o) = obj_get k' o.
Proof.
  intros Hne. induction o as [|[k0 v0] r IH]; simpl; [reflexivity|].
  destruct (String.eqb k0 k) eqn:E; simpl.
  - apply String.eqb_eq in E. subst k0.
    destruct (String.eqb k k') eqn:E'; [|reflexivity].
    apply String.eqb_eq in E'. contradiction.
  - destruct (String.eqb k0 k'); [reflexivity|apply IH].
Qed.

Lemma obj_get_insert_index_same (n : N) (k : string) (v : json) (o : obj) :
  obj_get k o = None -> obj_get k (obj_insert_index n k v o) = Some v.
Proof.
  induction o as [|[k0 v0] r IH]; simpl; intros Hnone.
  - now rewrite String.eqb_refl.
  - destruct (String.eqb k0 k) eqn:E; [discriminate|].
    destruct (array_index k0) as [m|]; simpl.
    + destruct (m <? n)%N; simpl.
      * rewrite E. now apply IH.
      * now rewrite String.eqb_refl.
    + now rewrite String.eqb_refl.
Qed.

Lemma obj_get_insert_index_other (n : N) (k k' : string) (v : json) (o : obj) :
  k <> k' -> obj_get k' (obj_insert_index n k v o) = obj_get k' o.
Proof.
  intros Hne. apply String.eqb_neq in Hne.
  induction o as [|[k0 v0] r IH]; simpl.
  - now rewrite Hne.
  - destruct (array_index k0) as [m|]; simpl.
    + destruct (m <? n)%N; simpl.
      * destruct (String.eqb k0 k'); [reflexivity|apply IH].
      * now rewrite Hne.
    + now rewrite Hne.
Qed.

(** Reading back the property just written. *)
Lemma obj_get_set_same (k : string) (v : json) (o : obj) :
  obj_get k (obj_set k v o) = Some v.
Proof.
  unfold obj_set, obj_has. destruct (obj_get k o) eqn:G.
  - rewrite obj_get_replace_same, G. reflexivity.
  - destruct (array_index k).
    + now apply obj_get_insert_index_same.
    + rewrite obj_get_app, G. simpl. now rewrite String.eqb_refl.
Qed.

(** Writing a property leaves the others alone. *)
Lemma obj_get_set_other (k k' : string) (v : json) (o : obj) :
  k <> k' -> obj_get k' (obj_set k v o) = obj_get k' o.
Proof.
  intros Hne. unfold obj_set. destruct (obj_has k o).
  - now apply obj_get_replace_other.
  - destruct (array_index k).
    + now apply obj_get_insert_index_other.
    + rewrite obj_get_app. destruct (obj_get k' o); [reflexivity|].
      simpl. apply String.eqb_neq in Hne. now rewrite Hne.
Qed.

Lemma obj_get_set (k k' : string) (v : json) (o : obj) :
  obj_get k' (obj_set k v o) = if String.eqb k k' then Some v else obj_get k' o.
Proof.
  destruct (String.eqb k k') eqn:E.
  - apply String.eqb_eq in E. subst. apply obj_get_set_same.
  - apply String.eqb_neq in E. now apply obj_get_set_other.
Qed.

Lemma length_obj_replace (k : string) (v : json) (o : obj) :
  length (obj_replace k v o) = length o.
Proof.
  induction o as [|[k0 v0] r IH]; simpl; [reflexivity|].
  destruct (String.eqb k0 k); simpl; [reflexivity|now rewrite IH].
Qed.

Lemma length_obj_insert_index (n : N) (k : string) (v : json) (o : obj) :
  length (obj_insert_index n k v o) = S (length o).
Proof.
  induction o as [|[k0 v0] r IH]; simpl; [reflexivity|].
  destruct (array_index k0) as [m|]; simpl; [|reflexivity].
  destruct (m <? n)%N; simpl; [now rewrite IH|reflexivity].
Qed.

(** A write adds at most one property. *)
Lemma length_obj_set (k : string) (v : json) (o : obj) :
  length (obj_set k v o) = if obj_has k o then length o else S (length o).
Proof.
  unfold obj_set. destruct (obj_has k o).
  - apply length_obj_replace.
  - destruct (array_index k).
    + apply length_obj_insert_index.
    + rewrite length_app. simpl. lia.
Qed.

Lemma In_obj_replace (k : string) (v : json) (o : obj) (e : string * json) :
  In e (obj_replace k v o) -> e = (k, v) \/ In e o.
Proof.
  induction o as [|[k0 v0] r IH]; simpl; [tauto|].
  destruct (String.eqb k0 k) eqn:E; simpl.
  - apply String.eqb_eq in E. subst. intros [H|H]; [left; now symmetry|right; now right].
  - intros [H|H]; [right; now left|]. destruct (IH H); [now left|right; now right].
Qed.

Lemma In_obj_insert_index (n : N) (k : string) (v : json) (o : obj) (e : string * json) :
  In e (obj_insert_index n k v o) -> e = (k, v) \/ In e o.
Proof.
  induction o as [|[k0 v0] r IH]; simpl.
  - intros [H|[]]. left; now symmetry.
  - destruct (array_index k0) as [m|]; simpl.
    + destruct (m <? n)%N; simpl.
      * intros [H|H]; [right; now left|]. destruct (IH H); [now left|right; now right].
      * intros [H|H]; [left; now symmetry|now right].
    + intros [H|H]; [left; now symmetry|now right].
Qed.

(** Every property of a written object is the one written or was there. *)
Lemma In_obj_set (k : string) (v : json) (o : obj) (e : string * json) :
  In e (obj_set k v o) -> e = (k, v) \/ In e o.
Proof.
  unfold obj_set. destruct (obj_has k o).
  - apply In_obj_replace.
  - destruct (array_index k).
    + apply In_obj_insert_index.
    + intros H. apply in_app_or in H. destruct H as [H|[H|[]]]; [now right|left; now symmetry].
Qed.

Lemma obj_get_None_keys (k : string) (o : obj) :
  obj_get k o = None <-> ~ In k (obj_keys o).
Proof.
  induction o as [|[k0 v0] r IH]; simpl; [tauto|].
  destruct (String.eqb k0 k) eqn:E.
  - apply String.eqb_eq in E. subst. split; [discriminate|]. intros H. exfalso. apply H. now left.
  - apply String.eqb_neq in E. rewrite IH. tauto.
Qed.

Lemma obj_get_In (k : string) (v : json) (o : obj) :
  obj_get k o = Some v -> In (k, v) o.
Proof.
  induction o as [|[k0 v0] r IH]; simpl; [discriminate|].
  destruct (String.eqb k0 k) eqn:E.
  - apply String.eqb_eq in E. intros [= ->]. subst. now left.
  - intros H. right. now apply IH.
Qed.

Lemma distinct_cons (k : string) (r : list string) :
  distinct (k :: r) = true <-> ~ In k r /\ distinct r = true.
Proof.
  simpl. rewrite andb_true_iff, negb_true_iff. split.
  - intros [Hex Hd]. split; [|exact Hd]. intros Hin.
    assert (existsb (String.eqb k) r = true) as Ht.
    { apply existsb_exists. exists k. split; [exact Hin|apply String.eqb_refl]. }
    congruence.
  - intros [Hnin Hd]. split; [|exact Hd].
    destruct (existsb (String.eqb k) r) eqn:E; [|reflexivity].
    apply existsb_exists in E as [x [Hin Hx]]. apply String.eqb_eq in Hx. subst.
    contradiction.
Qed.

Lemma unique_keys_cons (k : string) (v : json) (r : obj) :
  unique_keys ((k, v) :: r) = true <-> obj_get k r = None /\ unique_keys r = true.
Proof.
  unfold unique_keys. simpl obj_keys. rewrite distinct_cons, obj_get_None_keys. reflexivity.
Qed.

Lemma In_obj_get (k : string) (v : json) (o : obj) :
  unique_keys o = true -> In (k, v) o -> obj_get k o = Some v.
Proof.
  induction o as [|[k0 v0] r IH]; simpl; [tauto|].
  intros Hnd [H|H].
  - injection H as -> ->. now rewrite String.eqb_refl.
  - apply unique_keys_cons in Hnd as [Hnin Hnd].
    destruct (String.eqb k0 k) eqn:E.
    + apply String.eqb_eq in E. subst.
      exfalso. apply obj_get_None_keys in Hnin. apply Hnin.
      change k with (fst (k, v)). now apply in_map.
    + now apply IH.
Qed.

End JSFacts.

(** ** Substrings and letter case *)

Module StringFacts.
Import JS.

Lemma prefix_split (t s : string) :
  String.prefix t s = true <-> exists post, s = t +:+ post.
Proof.
  revert t. induction s as [|b s IH]; intros t; destruct t as [|a t]; simpl.
  - split; [exists ""; reflexivity|reflexivity].
  - split; [discriminate|]. intros [post H]. discriminate.
  - split; [intros _; exists (String b s); reflexivity|reflexivity].
  - destruct (ascii_dec a b) as [->|Hne].
    + rewrite IH. split; intros [post H]; exists post.
      * now rewrite H.
      * now injection H.
    + split; [discriminate|]. intros [post H]. injection H as H1 H2. congruence.
Qed.

(** [s.includes(t)] holds exactly when [t] occurs in [s]. *)
Lemma includes_split (s t : string) :
  includes s t = true <-> exists pre post, s = pre +:+ t +:+ post.
Proof.
  induction s as [|c s IH].
  - cbn [includes]. rewrite orb_false_r, prefix_split. split.
    + intros [post H]. exists "", post. exact H.
    + intros [pre [post H]]. destruct pre; [exists post; exact H|discriminate].
  - cbn [includes]. rewrite orb_true_iff, prefix_split, IH. split.
    + intros [[post H]|[pre [post H]]].
      * exists "", post. exact H.
      * exists (String c pre), post. simpl. now rewrite H.
    + intros [pre [post H]]. destruct pre as [|c' pre].
      * left. exists post. exact H.
      * right. simpl in H. injection H as _ H. exists pre, post. exact H.
Qed.

Lemma includes_empty_l (t : string) : includes "" t = true -> t = "".
Proof. cbn [includes]. rewrite orb_false_r. destruct t; [reflexivity|discriminate]. Qed.

(** The ASCII lowering of the samples keeps a string empty or not, as the
    engine's does. *)
Lemma toLowerCase_ascii_empty (s : string) : Samples.toLowerCase s = "" <-> s = "".
Proof. destruct s; split; try reflexivity; discriminate. Qed.

End StringFacts.

(** ** Searching the catalogue *)

Module SearchFacts.
Import JS Remote FirebaseService Statements JSFacts StringFacts.

Section Engine.

Variable toLowerCase : string -> string.

(** Lower-casing makes no string empty, and leaves the empty string as it
    is. *)
Hypothesis toLowerCase_empty : forall s, toLowerCase s = "" <-> s = "".

Lemma lowered_field_match (f : string) (part : json) (d term : string) :
  term <> "" ->
  lowered_field toLowerCase f part = Some d ->
  includes d (toLowerCase term) = true ->
  exists s, prop f part = Some (JStr s) /\ contains_ci toLowerCase s term.
Proof.
  intros Hterm Hlow Hinc. unfold lowered_field in Hlow.
  assert (match or_default (prop f part) (JStr "") with
          | JStr s => Some (toLowerCase s) | _ => None end = Some d) as H.
  { destruct part; try exact Hlow. discriminate. }
  clear Hlow. unfold or_default in H.
  destruct (prop f part) as [v|] eqn:P.
  - destruct (truthy v) eqn:T.
    + destruct v; try discriminate. injection H as <-.
      exists s. split; [reflexivity|]. now apply includes_split.
    + injection H as <-. rewrite (proj2 (toLowerCase_empty "") eq_refl) in Hinc.
      apply includes_empty_l in Hinc.
      destruct (Hterm (proj1 (toLowerCase_empty term) Hinc)).
  - injection H as <-. rewrite (proj2 (toLowerCase_empty "") eq_refl) in Hinc.
    apply includes_empty_l in Hinc.
      destruct (Hterm (proj1 (toLowerCase_empty term) Hinc)).
Qed.

Lemma search_step_inv (term : string) (limit : nat) (st st' : obj * nat)
    (e : string * json) :
  term <> "" ->
  search_inv toLowerCase term limit st ->
  search_step toLowerCase (toLowerCase term) limit st e = Some st' ->
  search_inv toLowerCase term limit st'.
Proof.
  intros Hterm Hinv Hstep. destruct st as [filtered count], e as [material part].
  unfold search_step in Hstep.
  destruct (limit <=? count)%nat eqn:L; [injection Hstep as <-; exact Hinv|].
  apply Nat.leb_gt in L.
  destruct (lowered_field toLowerCase "SPRAS_EN" part) as [d|] eqn:D; [|discriminate].
  destruct (lowered_field toLowerCase "Supplier_Name" part) as [s|] eqn:S; [|discriminate].
  destruct (includes (toLowerCase material) (toLowerCase term)
            || includes d (toLowerCase term) || includes s (toLowerCase term)) eqn:Hm;
    injection Hstep as <-; [|exact Hinv].
  destruct Hinv as (Hlen & Hcount & Hall). unfold search_inv. simpl in *.
  split; [|split].
  - rewrite length_obj_set. destruct (obj_has material filtered); lia.
  - lia.
  - intros m p Hin. apply In_obj_set in Hin as [Heq|Hin]; [|now apply Hall].
    injection Heq as -> ->.
    apply orb_true_iff in Hm as [Hm|Hm]; [apply orb_true_iff in Hm as [Hm|Hm]|].
    + left. now apply includes_split.
    + right; left. now apply (lowered_field_match "SPRAS_EN" part d).
    + right; right. now apply (lowered_field_match "Supplier_Name" part s).
Qed.

Lemma search_loop_inv (term : string) (limit : nat) (entries : obj) :
  term <> "" ->
  forall st st',
    search_inv toLowerCase term limit st ->
    search_loop toLowerCase (toLowerCase term) limit st entries = Some st' ->
    search_inv toLowerCase term limit st'.
Proof.
  intros Hterm. induction entries as [|e r IH]; simpl; intros st st' Hinv Hloop.
  - now injection Hloop as <-.
  - destruct (search_step toLowerCase (toLowerCase term) limit st e) as [st1|] eqn:Hs;
      [|discriminate].
    eapply IH; [|exact Hloop]. eapply search_step_inv; eauto.
Qed.

(** The client-side filter keeps at most [limit] entries, all matching. *)
Lemma search_filter_sound (allParts : json) (term : string) (limit : nat) :
  term <> "" ->
  length (own_entries (search_filter toLowerCase allParts term limit)) <= limit /\
  forall material part,
    In (material, part) (own_entries (search_filter toLowerCase allParts term limit)) ->
    entry_matches toLowerCase term material part.
Proof.
  intros Hterm. unfold search_filter.
  destruct (search_loop toLowerCase (toLowerCase term) limit (nil, 0) (own_entries allParts))
    as [[filtered count]|] eqn:Hl.
  - assert (search_inv toLowerCase term limit (filtered, count)) as (H1 & H2 & H3).
    { eapply search_loop_inv; [exact Hterm| |exact Hl].
      unfold search_inv; simpl. split; [lia|split; [lia|intros ? ? []]]. }
    simpl in *. split; [lia|exact H3].
  - simpl. split; [lia|intros ? ? []].
Qed.

End Engine.

End SearchFacts.

(** ** The parts repository *)

Module PartsRepository.
Import JS Remote FirebaseService Statements JSFacts StringFacts SearchFacts.

(** C5 — for a search term that is not empty and any limit, the mapping
    returned by [searchParts] has at most [limit] entries, and each entry's
    material code, its English description ([SPRAS_EN]) or its supplier name
    ([Supplier_Name]) contains the term, letter case ignored: the
    lower-cased text contains the lower-cased term, for the engine's own
    [toLowerCase], of which only this is used: it makes no string empty and
    leaves the empty string as it is. *)
Theorem searchParts_limit_and_match (toLowerCase : string -> string)
    (rd : Reader) (searchTerm : string) (limit : nat) :
  (forall s, toLowerCase s = "" <-> s = "") ->
  searchTerm <> "" ->
  length (own_entries (searchParts toLowerCase rd searchTerm limit)) <= limit /\
  forall material part,
    In (material, part) (own_entries (searchParts toLowerCase rd searchTerm limit)) ->
    entry_matches toLowerCase searchTerm material part.
Proof.
  intros Hlower Hterm. unfold searchParts.
  destruct (String.eqb searchTerm "") eqn:E.
  - apply String.eqb_eq in E. contradiction.
  - now apply search_filter_sound.
Qed.

Lemma searchParts_limit_and_match_witness :
  (forall s, Samples.toLowerCase s = "" <-> s = "") /\
  "BOLT" <> "" /\
  (length (own_entries (searchParts Samples.toLowerCase Samples.store "BOLT" 2)) <= 2 /\
   forall material part,
     In (material, part)
        (own_entries (searchParts Samples.toLowerCase Samples.store "BOLT" 2)) ->
     entry_matches Samples.toLowerCase "BOLT" material part).
Proof.
  split; [exact toLowerCase_ascii_empty|]. split; [discriminate|].
  apply (searchParts_limit_and_match Samples.toLowerCase Samples.store "BOLT" 2);
    [exact toLowerCase_ascii_empty|discriminate].
Defined.

(** The same filter runs over the merged set in the revision with admin
    overrides. *)
Lemma searchParts_overrides_limit_and_match (toLowerCase : string -> string)
    (rd : Reader) (searchTerm : string) (limit : nat) :
  (forall s, toLowerCase s = "" <-> s = "") ->
  searchTerm <> "" ->
  length (own_entries (FirebaseServiceOverrides.searchParts toLowerCase rd searchTerm limit))
    <= limit /\
  forall material part,
    In (material, part)
       (own_entries (FirebaseServiceOverrides.searchParts toLowerCase rd searchTerm limit)) ->
    entry_matches toLowerCase searchTerm material part.
Proof.
  intros Hlower Hterm. unfold FirebaseServiceOverrides.searchParts.
  destruct (String.eqb searchTerm "") eqn:E.
  - apply String.eqb_eq in E. contradiction.
  - now apply search_filter_sound.
Qed.

Example searchParts_sample :
  searchParts Samples.toLowerCase Samples.store "BOLT" 2 =
  JObj (("M-100", Samples.part "Hex Bolt M8" "Acme Fasteners")
     :: ("M-200", Samples.part "Steel nut" "Bolton Ltd") :: nil).
Proof. reflexivity. Qed.

Example searchParts_sample_limit :
  searchParts Samples.toLowerCase Samples.store "acme" 1 =
  JObj (("M-100", Samples.part "Hex Bolt M8" "Acme Fasteners") :: nil).
Proof. reflexivity. Qed.

Lemma presents_val_or_empty (v : json) (children : obj) :
  presents v children -> own_entries (val_or_empty v) = children.
Proof.
  unfold presents, val_or_empty. destruct children as [|c r].
  - intros ->. reflexivity.
  - intros (Hobj & Hnn & Hent). destruct v; try discriminate; try contradiction; exact Hent.
Qed.

(** C9 — with an empty search term, [searchParts] answers what the store
    gives for the limited query on the base dataset and asks for nothing
    else: when the store presents the first [limit] rows of the base
    dataset, these rows, untouched, are the result, whatever the store
    holds under [Parts] (also in the revision that has admin overrides);
    they are at most [limit], and exactly [limit] when the base dataset has
    at least [limit] rows. *)
Theorem searchParts_empty_term (toLowerCase : string -> string)
    (rd : Reader) (limit : nat) (base : obj) (v : json) :
  rd (mkQuery "material_summary_2025" None (Some limit)) = Done v ->
  presents v (firstn limit base) ->
  own_entries (searchParts toLowerCase rd "" limit) = firstn limit base /\
  length (own_entries (searchParts toLowerCase rd "" limit)) <= limit /\
  (limit <= length base ->
   length (own_entries (searchParts toLowerCase rd "" limit)) = limit) /\
  FirebaseServiceOverrides.searchParts toLowerCase rd "" limit
    = searchParts toLowerCase rd "" limit /\
  (forall rd' : Reader,
     rd' (mkQuery "material_summary_2025" None (Some limit)) = Done v ->
     searchParts toLowerCase rd' "" limit = searchParts toLowerCase rd "" limit).
Proof.
  intros Hrd Hpres.
  assert (own_entries (searchParts toLowerCase rd "" limit) = firstn limit base) as Heq.
  { unfold searchParts. simpl. destruct limit as [|n]; [reflexivity|].
    unfold limitToFirst. rewrite Hrd. now apply presents_val_or_empty. }
  rewrite Heq. split; [reflexivity|]. rewrite length_firstn.
  split; [lia|]. split; [lia|]. split; [reflexivity|].
  intros rd' Hrd'. unfold searchParts. simpl. destruct limit as [|n]; [reflexivity|].
  unfold limitToFirst. now rewrite Hrd, Hrd'.
Qed.

Lemma searchParts_empty_term_witness :
  own_entries (searchParts Samples.toLowerCase Samples.store "" 2)
    = firstn 2 Samples.base_rows /\
  length (own_entries (searchParts Samples.toLowerCase Samples.store "" 2)) <= 2 /\
  (2 <= length Samples.base_rows ->
   length (own_entries (searchParts Samples.toLowerCase Samples.store "" 2)) = 2) /\
  FirebaseServiceOverrides.searchParts Samples.toLowerCase Samples.store "" 2
    = searchParts Samples.toLowerCase Samples.store "" 2 /\
  (forall rd' : Reader,
     rd' (mkQuery "material_summary_2025" None (Some 2))
       = Done (JObj (firstn 2 Samples.base_rows)) ->
     searchParts Samples.toLowerCase rd' "" 2
       = searchParts Samples.toLowerCase Samples.store "" 2).
Proof.
  apply (searchParts_empty_term Samples.toLowerCase Samples.store 2 Samples.base_rows
           (JObj (firstn 2 Samples.base_rows))).
  - reflexivity.
  - simpl. split; [reflexivity|split; [discriminate|reflexivity]].
Defined.

(** A fault of the limited read gives the empty mapping. *)
Lemma searchParts_empty_term_fault (toLowerCase : string -> string)
    (rd : Reader) (limit : nat) :
  rd (mkQuery "material_summary_2025" None (Some limit)) = Fault ->
  searchParts toLowerCase rd "" limit = JObj nil.
Proof.
  intros H. unfold searchParts. simpl. destruct limit; [reflexivity|].
  unfold limitToFirst. now rewrite H.
Qed.

End PartsRepository.

(** ** Pagination *)

Module PaginationFacts.
Import JS Remote FirebaseService JSFacts.

Lemma string_of_nat_inj (i j : nat) : string_of_nat i = string_of_nat j -> i = j.
Proof.
  unfold string_of_nat. intros H.
  apply DecimalNat.Unsigned.to_uint_inj.
  assert (NilEmpty.uint_of_string (NilEmpty.string_of_uint (Nat.to_uint i)) =
          NilEmpty.uint_of_string (NilEmpty.string_of_uint (Nat.to_uint j))) as H'
    by now rewrite H.
  rewrite !NilEmpty.usu in H'. now injection H'.
Qed.

Lemma keys_obj_delete (k k' : string) (o : obj) :
  In k' (obj_keys (obj_delete k o)) -> k' <> k.
Proof.
  unfold obj_keys, obj_delete. intros Hin Heq. subst k'.
  apply in_map_iff in Hin as [[k0 v0] [Hk Hin]]. simpl in Hk. subst k0.
  apply filter_In in Hin as [_ Hf]. simpl in Hf. now rewrite String.eqb_refl in Hf.
Qed.

Lemma obj_delete_absent (k : string) (o : obj) :
  obj_get k o = None -> obj_delete k o = o.
Proof.
  induction o as [|[k0 v0] r IH]; simpl; [reflexivity|].
  destruct (String.eqb k0 k) eqn:E; [discriminate|]. simpl. intros H. now rewrite IH.
Qed.

(** The keys of an array are the decimal forms of its indices in use, in
    ascending order. *)
Lemma index_entries_keys (b : nat) (l : list json) (k : string) :
  In k (obj_keys (index_entries b l)) -> exists j, b <= j /\ k = string_of_nat j.
Proof.
  revert b. induction l as [|v r IH]; intros b; simpl; [tauto|].
  assert (In k (obj_keys (index_entries (S b) r)) -> exists j, b <= j /\ k = string_of_nat j) as Hr.
  { intros H. apply IH in H as [j [Hj ->]]. exists j. split; [lia|reflexivity]. }
  destruct v; simpl; try (intros [<-|H]; [exists b; split; [lia|reflexivity]|now apply Hr]).
  exact Hr.
Qed.

Lemma index_entries_first (b : nat) (l : list json) :
  match first_index b l with
  | Some j =>
      b <= j /\
      exists v, index_entries b l =
                  (string_of_nat j, v) :: index_entries b (arr_delete (j - b) l)
  | None => index_entries b l = nil
  end.
Proof.
  revert b. induction l as [|v r IH]; intros b; simpl; [reflexivity|].
  assert (forall j, b < j -> S (j - S b) = j - b) as Hsub by (intros; lia).
  destruct v;
    try (split; [lia|]; rewrite Nat.sub_diag; simpl; eexists; reflexivity).
  specialize (IH (S b)). destruct (first_index (S b) r) as [j|].
  - destruct IH as [Hle [v Hv]]. split; [lia|]. exists v.
    rewrite Hv. replace (j - b) with (S (j - S b)) by lia. reflexivity.
  - exact IH.
Qed.

Lemma index_entries_keys_distinct (b : nat) (l : list json) :
  unique_keys (index_entries b l) = true.
Proof.
  revert b. induction l as [|v r IH]; intros b; simpl; [reflexivity|].
  destruct v; try apply IH; apply unique_keys_cons; (split; [|apply IH]);
    apply obj_get_None_keys; intros Hin;
    apply index_entries_keys in Hin as [j [Hj Heq]];
    apply string_of_nat_inj in Heq; lia.
Qed.

End PaginationFacts.

Module Pagination.
Import JS Remote FirebaseService JSFacts PaginationFacts.

Lemma delete_first_key_entries (data : json) (k : string) (v : json) (rest : obj) :
  typeof_object data = true ->
  own_entries data = (k, v) :: rest ->
  unique_keys (own_entries data) = true ->
  exists data', delete_first_key data = Some data' /\ own_entries data' = rest.
Proof.
  intros Hobj Hent Huniq. destruct data; try discriminate.
  - (* an array *)
    simpl in *. pose proof (index_entries_first 0 l) as Hf.
    destruct (first_index 0 l) as [i|].
    + destruct Hf as [_ [v' Hv']]. rewrite Nat.sub_0_r in Hv'.
      eexists. split; [reflexivity|]. simpl. rewrite Hv' in Hent. now injection Hent.
    + rewrite Hf in Hent. discriminate.
  - (* an object *)
    simpl in Hent. subst o. eexists. split; [reflexivity|].
    apply unique_keys_cons in Huniq as [Hnone _].
    cbn [own_entries obj_delete List.filter fst]. rewrite String.eqb_refl.
    cbn [negb]. now apply obj_delete_absent.
Qed.

Lemma delete_first_key_head (data data' : json) (k : string) :
  hd_error (obj_keys (own_entries data)) = Some k ->
  delete_first_key data = Some data' ->
  ~ In k (obj_keys (own_entries data')).
Proof.
  intros Hhd Hdel. destruct data as [| | |s|l|o]; try discriminate.
  - destruct s; discriminate.
  - cbn [own_entries delete_first_key] in Hhd, Hdel.
    pose proof (index_entries_first 0 l) as Hf.
    pose proof (index_entries_keys_distinct 0 l) as Hu.
    destruct (first_index 0 l) as [i|].
    + destruct Hf as [_ [v' Hv']]. rewrite Nat.sub_0_r in Hv'.
      injection Hdel as <-. cbn [own_entries]. rewrite Hv' in Hhd, Hu. simpl in Hhd.
      injection Hhd as <-. apply unique_keys_cons in Hu as [Hnone _].
      now apply obj_get_None_keys.
    + rewrite Hf in Hhd. discriminate.
  - destruct o as [|[k0 v0] r]; [discriminate|].
    cbn [own_entries obj_keys map hd_error fst] in Hhd. injection Hhd as ->.
    cbn [delete_first_key] in Hdel. injection Hdel as <-. cbn [own_entries].
    intros Hin. exact (keys_obj_delete k k ((k, v0) :: r) Hin eq_refl).
Qed.

(** A page asked for with a cursor never begins with the cursor key. *)
Lemma page_never_begins_with_cursor (rd : Reader) (limit : nat) (cursor : string) :
  cursor <> "" ->
  hd_error (obj_keys (own_entries (getPaginatedParts rd limit (Some cursor)))) <> Some cursor.
Proof.
  intros Hne. apply String.eqb_neq in Hne.
  unfold getPaginatedParts. rewrite Hne. rewrite Nat.add_1_r. cbn [limitToFirst].
  destruct (rd (mkQuery "Parts" (Some cursor) (Some (S limit)))) as [v|]; [|discriminate].
  destruct (obj_keys (own_entries (val_or_empty v))) as [|key0 keys] eqn:Hk.
  - rewrite Hk. discriminate.
  - destruct (String.eqb key0 cursor) eqn:E.
    + apply String.eqb_eq in E. subst key0.
      destruct (delete_first_key (val_or_empty v)) as [data'|] eqn:Hd; [|discriminate].
      assert (~ In cursor (obj_keys (own_entries data'))) as Hnin.
      { eapply delete_first_key_head; [|exact Hd]. now rewrite Hk. }
      destruct (obj_keys (own_entries data')) as [|k1 ks]; [discriminate|].
      simpl. intros [= ->]. apply Hnin. now left.
    + rewrite Hk. simpl. intros [= ->]. now rewrite String.eqb_refl in E.
Qed.

(** When the rows returned for the inclusive-start query begin with the
    cursor key, the page is these rows without the first. *)
Lemma page_drops_boundary_row (rd : Reader) (limit : nat) (cursor : string) (data : json) :
  cursor <> "" ->
  rd (mkQuery "Parts" (Some cursor) (Some (limit + 1))) = Done data ->
  typeof_object data = true ->
  unique_keys (own_entries data) = true ->
  hd_error (obj_keys (own_entries data)) = Some cursor ->
  own_entries (getPaginatedParts rd limit (Some cursor)) = tl (own_entries data) /\
  ~ In cursor (obj_keys (own_entries (getPaginatedParts rd limit (Some cursor)))).
Proof.
  intros Hne Hrd Hobj Huniq Hhd. apply String.eqb_neq in Hne.
  unfold getPaginatedParts. rewrite Hne. rewrite Nat.add_1_r in *. cbn [limitToFirst].
  rewrite Hrd.
  assert (val_or_empty data = data) as ->.
  { unfold val_or_empty. destruct data; try discriminate; reflexivity. }
  destruct (own_entries data) as [|[k v] rest] eqn:Hent; [discriminate|].
  simpl in Hhd. injection Hhd as ->. simpl obj_keys. rewrite String.eqb_refl.
  destruct (delete_first_key_entries data cursor v rest Hobj Hent) as [data' [Hd Hrest]].
  { now rewrite Hent. }
  rewrite Hd, ?String.eqb_refl. split; [exact Hrest|].
  eapply delete_first_key_head; [|exact Hd]. now rewrite Hent.
Qed.

(** C6 — a page asked for with a cursor never begins with the cursor key
    (so it does not when the cursor is the last key of the page before);
    and when the rows that the store returns for the inclusive-start query
    begin with the cursor key, the result is these rows without the first:
    the boundary row is dropped and occurs nowhere in the page. *)
Theorem getPaginatedParts_drops_cursor (rd : Reader) (limit : nat) (cursor : string) :
  cursor <> "" ->
  hd_error (obj_keys (own_entries (getPaginatedParts rd limit (Some cursor)))) <> Some cursor
  /\
  forall data,
    rd (mkQuery "Parts" (Some cursor) (Some (limit + 1))) = Done data ->
    typeof_object data = true ->
    unique_keys (own_entries data) = true ->
    hd_error (obj_keys (own_entries data)) = Some cursor ->
    own_entries (getPaginatedParts rd limit (Some cursor)) = tl (own_entries data) /\
    ~ In cursor (obj_keys (own_entries (getPaginatedParts rd limit (Some cursor)))).
Proof.
  intros Hne. split.
  - now apply page_never_begins_with_cursor.
  - intros data. now apply page_drops_boundary_row.
Qed.

Lemma getPaginatedParts_drops_cursor_witness :
  "M-200" <> "" /\
  (hd_error (obj_keys (own_entries (getPaginatedParts Samples.store 1 (Some "M-200"))))
     <> Some "M-200"
   /\
   forall data,
     Samples.store (mkQuery "Parts" (Some "M-200") (Some (1 + 1))) = Done data ->
     typeof_object data = true ->
     unique_keys (own_entries data) = true ->
     hd_error (obj_keys (own_entries data)) = Some "M-200" ->
     own_entries (getPaginatedParts Samples.store 1 (Some "M-200")) = tl (own_entries data) /\
     ~ In "M-200" (obj_keys (own_entries (getPaginatedParts Samples.store 1 (Some "M-200"))))).
Proof.
  split; [discriminate|].
  apply (getPaginatedParts_drops_cursor Samples.store 1 "M-200"). discriminate.
Defined.

(** The two calls of the claim on the sample store: the first page ends
    with [M-200], the second page begins after it. *)
Example two_pages :
  obj_keys (own_entries (getPaginatedParts Samples.store 1 None)) = "M-200" :: nil /\
  obj_keys (own_entries (getPaginatedParts Samples.store 1 (Some "M-200"))) = "M-900" :: nil.
Proof. split; reflexivity. Qed.

(** The pair of calls as the claim words it. *)
Lemma second_page_after_first (rd : Reader) (limit : nat) (cursor : string) :
  last (obj_keys (own_entries (getPaginatedParts rd limit None))) = Some cursor ->
  cursor <> "" ->
  hd_error (obj_keys (own_entries (getPaginatedParts rd limit (Some cursor)))) <> Some cursor.
Proof. intros _ Hne. now apply page_never_begins_with_cursor. Qed.

End Pagination.

(** ** Building an object in a loop *)

Module FoldFacts.
Import JS JSFacts.

Lemma obj_keys_replace (k : string) (v : json) (o : obj) :
  obj_keys (obj_replace k v o) = obj_keys o.
Proof.
  induction o as [|[k0 v0] r IH]; simpl; [reflexivity|].
  destruct (String.eqb k0 k); simpl; [reflexivity|now rewrite IH].
Qed.

Lemma unique_keys_insert_index (n : N) (k : string) (v : json) (o : obj) :
  obj_get k o = None -> unique_keys o = true ->
  unique_keys (obj_insert_index n k v o) = true.
Proof.
  induction o as [|[k0 v0] r IH]; intros Hnone Hu.
  - reflexivity.
  - assert (unique_keys ((k, v) :: (k0, v0) :: r) = true) as Hcons
      by (apply unique_keys_cons; now split).
    simpl in Hnone. destruct (String.eqb k0 k) eqn:E; [discriminate|].
    apply unique_keys_cons in Hu as [Hk0 Hu].
    cbn [obj_insert_index]. destruct (array_index k0) as [m|]; [|exact Hcons].
    destruct (m <? n)%N; [|exact Hcons].
    apply unique_keys_cons. split; [|now apply IH].
    rewrite obj_get_insert_index_other; [exact Hk0|].
    apply String.eqb_neq in E. congruence.
Qed.

Lemma unique_keys_snoc (k : string) (v : json) (o : obj) :
  obj_get k o = None -> unique_keys o = true ->
  unique_keys (o ++ (k, v) :: nil) = true.
Proof.
  induction o as [|[k0 v0] r IH]; intros Hnone Hu; [reflexivity|].
  simpl in Hnone. destruct (String.eqb k0 k) eqn:E; [discriminate|].
  apply unique_keys_cons in Hu as [Hk0 Hu].
  change (((k0, v0) :: r) ++ (k, v) :: nil) with ((k0, v0) :: (r ++ (k, v) :: nil)).
  apply unique_keys_cons. split; [|now apply IH].
  rewrite obj_get_app, Hk0. simpl.
  destruct (String.eqb k k0) eqn:E'; [|reflexivity].
  apply String.eqb_eq in E'. subst. now rewrite String.eqb_refl in E.
Qed.

(** A write keeps the property names distinct. *)
Lemma unique_keys_obj_set (k : string) (v : json) (o : obj) :
  unique_keys o = true -> unique_keys (obj_set k v o) = true.
Proof.
  intros Hu. unfold obj_set, obj_has. destruct (obj_get k o) eqn:G.
  - unfold unique_keys. now rewrite obj_keys_replace.
  - destruct (array_index k).
    + now apply unique_keys_insert_index.
    + now apply unique_keys_snoc.
Qed.

Section Collect.
Variable keep : json -> bool.
Variable make : string -> json -> json.
Variable step : obj -> string * json -> obj.
Hypothesis step_eq : forall acc k c,
  step acc (k, c) = if keep c then obj_set k (make k c) acc else acc.

(** What a loop of conditional writes leaves under each key, when it
    runs over entries of distinct keys. *)
Lemma collect_get (entries : obj) (k : string) :
  unique_keys entries = true ->
  forall init,
    obj_get k (fold_left step entries init) =
    match obj_get k entries with
    | Some c => if keep c then Some (make k c) else obj_get k init
    | None => obj_get k init
    end.
Proof.
  induction entries as [|[k0 c0] r IH]; intros Hu init; [reflexivity|].
  apply unique_keys_cons in Hu as [Hk0 Hu].
  cbn [fold_left obj_get]. rewrite (IH Hu), step_eq.
  destruct (String.eqb k0 k) eqn:E.
  - apply String.eqb_eq in E. subst k0. rewrite Hk0.
    destruct (keep c0); [apply obj_get_set_same|reflexivity].
  - apply String.eqb_neq in E.
    destruct (keep c0); [|reflexivity].
    rewrite obj_get_set_other by exact E. reflexivity.
Qed.

Lemma collect_unique (entries : obj) :
  forall init, unique_keys init = true ->
  unique_keys (fold_left step entries init) = true.
Proof.
  induction entries as [|[k0 c0] r IH]; intros init Hu; [exact Hu|].
  cbn [fold_left]. apply IH. rewrite step_eq.
  destruct (keep c0); [now apply unique_keys_obj_set|exact Hu].
Qed.
End Collect.

(** [{ ...o, ...src }] reads as [src] where [src] has the property and as
    [o] elsewhere. *)
Lemma obj_get_assign (o src : obj) (f : string) :
  unique_keys src = true ->
  obj_get f (assign o src) =
  match obj_get f src with Some v => Some v | None => obj_get f o end.
Proof.
  intros Hu. unfold assign.
  rewrite (collect_get (fun _ => true) (fun _ v => v)
             (fun acc kv => obj_set (fst kv) (snd kv) acc)); [|reflexivity|exact Hu].
  destruct (obj_get f src); reflexivity.
Qed.

Lemma unique_keys_assign (o src : obj) :
  unique_keys o = true -> unique_keys (assign o src) = true.
Proof.
  intros Hu. unfold assign.
  apply (collect_unique (fun _ => true) (fun _ v => v)
           (fun acc kv => obj_set (fst kv) (snd kv) acc)); [reflexivity|exact Hu].
Qed.

End FoldFacts.

(** ** The bill of materials *)

Module BoMRepository.
Import JS Remote FirebaseService JSFacts FoldFacts.

Lemma bom_step_eq (acc : obj) (k : string) (c : json) :
  bom_step acc (k, c) =
  if is_component_data c then obj_set k (bom_component k c) acc else acc.
Proof. reflexivity. Qed.

Lemma is_component_data_kind (componentData : json) :
  is_component_data componentData = Statements.object_or_array componentData.
Proof.
  unfold is_component_data.
  destruct componentData as [|b|q|t|l|o]; cbn [truthy typeof_object Statements.object_or_array];
    try reflexivity; apply andb_false_r.
Qed.

(** C8, as the code has it — for every model key and every stored subtree
    with children of distinct keys, [getBoMComponents] holds a component
    under exactly the keys of the children that are objects or arrays
    (non-null values of JavaScript type [object]); the component has the
    four fields, with the child's key as [Component_Material] and, for the
    description, the price and the supplier, the stored value when there is
    one and it is truthy, and [''], [0] and [''] otherwise. All other
    children are left out. The function returns a mapping on every
    input. *)
Theorem getBoMComponents_projects_records (rd : Reader) (modelWithMY : string) (data : json) :
  rd (ref ("BoM/" +:+ modelWithMY)) = Done data ->
  unique_keys (own_entries data) = true ->
  forall materialCode,
    match obj_get materialCode (own_entries data) with
    | Some componentData =>
        if Statements.object_or_array componentData then
          exists component,
            obj_get materialCode (getBoMComponents rd modelWithMY) = Some (JObj component) /\
            obj_keys component =
              "Component_Material" :: "Component_Description" :: "Standard_Price"
              :: "Supplier" :: nil /\
            obj_get "Component_Material" component = Some (JStr materialCode) /\
            obj_get "Component_Description" component =
              Some (Statements.shown (prop "Component_Description" componentData) (JStr "")) /\
            obj_get "Standard_Price" component =
              Some (Statements.shown (prop "Standard_Price" componentData) (JNum 0)) /\
            obj_get "Supplier" component =
              Some (Statements.shown (prop "Supplier" componentData) (JStr ""))
        else obj_get materialCode (getBoMComponents rd modelWithMY) = None
    | None => obj_get materialCode (getBoMComponents rd modelWithMY) = None
    end.
Proof.
  intros Hrd Hu k. unfold getBoMComponents. rewrite Hrd.
  assert (obj_get k (if truthy data then fold_left bom_step (own_entries data) nil else nil) =
          match obj_get k (own_entries data) with
          | Some c => if is_component_data c then Some (bom_component k c) else None
          | None => None
          end) as Hget.
  { destruct (truthy data) eqn:T.
    - rewrite (collect_get is_component_data bom_component bom_step bom_step_eq _ k Hu).
      reflexivity.
    - destruct data; try discriminate; try reflexivity.
      simpl in T. destruct s; [reflexivity|discriminate]. }
  rewrite Hget. destruct (obj_get k (own_entries data)) as [c|]; [|reflexivity].
  rewrite is_component_data_kind. destruct (Statements.object_or_array c); [|reflexivity].
  eexists. split; [reflexivity|]. repeat split.
Qed.

Lemma getBoMComponents_projects_records_witness :
  exists component,
    obj_get "C-1" (getBoMComponents Samples.store "X1-2024") = Some (JObj component) /\
    obj_keys component =
      "Component_Material" :: "Component_Description" :: "Standard_Price" :: "Supplier" :: nil /\
    obj_get "Component_Material" component = Some (JStr "C-1") /\
    obj_get "Component_Description" component = Some (JStr "Bracket") /\
    obj_get "Standard_Price" component = Some (JNum 12) /\
    obj_get "Supplier" component = Some (JStr "").
Proof.
  exact (getBoMComponents_projects_records Samples.store "X1-2024"
           (JObj (("C-1", JObj (("Component_Description", JStr "Bracket")
                                 :: ("Standard_Price", JNum 12) :: nil))
                  :: ("C-2", JStr "n/a") :: nil))
           eq_refl eq_refl "C-1").
Defined.

(** C8, as the claim has it, fails: a child that is a list is not a
    structured record, and [getBoMComponents] does not skip it; it holds a
    component under its key, made of the defaults. *)
Lemma getBoMComponents_not_only_records :
  obj_keys (getBoMComponents Samples.store_with_list "X1-2024")
  <> Statements.claimed_component_keys (JObj Samples.bom_rows_with_list).
Proof. vm_compute. discriminate. Qed.

Example getBoMComponents_list_child :
  Statements.structured_record (JArr (JStr "left" :: JStr "right" :: nil)) = false /\
  obj_get "C-3" (getBoMComponents Samples.store_with_list "X1-2024") =
  Some (JObj (("Component_Material", JStr "C-3")
           :: ("Component_Description", JStr "")
           :: ("Standard_Price", JNum 0)
           :: ("Supplier", JStr "") :: nil)).
Proof. split; reflexivity. Qed.

(** The child that is not a record is left out. *)
Example getBoMComponents_skips :
  obj_get "C-2" (getBoMComponents Samples.store "X1-2024") = None.
Proof. reflexivity. Qed.

Example getBoMComponents_sample :
  getBoMComponents Samples.store "X1-2024" =
  ("C-1", JObj (("Component_Material", JStr "C-1")
             :: ("Component_Description", JStr "Bracket")
             :: ("Standard_Price", JNum 12)
             :: ("Supplier", JStr "") :: nil)) :: nil.
Proof. reflexivity. Qed.

(** The values that are there and truthy are carried over as they are. *)
Lemma bom_component_keeps (materialCode f : string) (componentData v : json) :
  In f ("Component_Description" :: "Standard_Price" :: "Supplier" :: nil) ->
  prop f componentData = Some v -> truthy v = true ->
  prop f (bom_component materialCode componentData) = Some v.
Proof.
  intros Hin Hp Ht. simpl in Hin.
  destruct Hin as [<-|[<-|[<-|[]]]]; unfold bom_component, prop;
    cbn [obj_get String.eqb Ascii.eqb Bool.eqb]; unfold prop in Hp;
    rewrite Hp; unfold or_default; now rewrite Ht.
Qed.

(** A failed read and an absent subtree both give the empty mapping. *)
Lemma getBoMComponents_nothing (rd : Reader) (modelWithMY : string) :
  rd (ref ("BoM/" +:+ modelWithMY)) = Fault \/ rd (ref ("BoM/" +:+ modelWithMY)) = Done JNull ->
  getBoMComponents rd modelWithMY = nil.
Proof. unfold getBoMComponents. intros [-> | ->]; reflexivity. Qed.

End BoMRepository.

(** ** Base dataset and admin overrides *)

Module MergedCatalogue.
Import JS Remote FirebaseServiceOverrides JSFacts FoldFacts.

Lemma keep_record_eq (acc : obj) (k : string) (c : json) :
  keep_record acc (k, c) = if isRecord c then obj_set k ((fun _ v => v) k c) acc else acc.
Proof. reflexivity. Qed.

Lemma records_of_get (o : obj) (k : string) :
  unique_keys o = true ->
  obj_get k (records_of (JObj o)) =
  match obj_get k o with
  | Some c => if isRecord c then Some c else None
  | None => None
  end.
Proof.
  intros Hu. unfold records_of. cbn [isRecord own_entries].
  now rewrite (collect_get isRecord (fun _ v => v) keep_record keep_record_eq o k Hu).
Qed.

Lemma records_of_unique (val : json) : unique_keys (records_of val) = true.
Proof.
  unfold records_of. destruct (isRecord val); [|reflexivity].
  now apply (collect_unique isRecord (fun _ v => v) keep_record keep_record_eq).
Qed.

(** What the merge loop leaves under each key. *)
Lemma merge_get (overrides : obj) (k : string) :
  unique_keys overrides = true ->
  forall merged,
    obj_get k (fold_left merge_step overrides merged) =
    match obj_get k overrides with
    | Some ov =>
        Some (JObj (assign (spread (or_empty (obj_get k merged))) (own_entries ov)))
    | None => obj_get k merged
    end.
Proof.
  induction overrides as [|[k0 ov0] r IH]; intros Hu merged; [reflexivity|].
  apply unique_keys_cons in Hu as [Hk0 Hu].
  cbn [fold_left obj_get]. rewrite (IH Hu).
  change (merge_step merged (k0, ov0)) with
    (obj_set k0
       (JObj (assign (spread (or_empty (obj_get k0 merged))) (own_entries ov0))) merged).
  destruct (String.eqb k0 k) eqn:E.
  - apply String.eqb_eq in E. subst k0. rewrite Hk0. apply obj_get_set_same.
  - apply String.eqb_neq in E. rewrite obj_get_set_other by exact E. reflexivity.
Qed.

(** The revision with admin overrides merges: for a base mapping and an
    admin-overrides mapping that the store presents as objects, under every
    key at which both hold a record the mapping returned by its
    [getAllParts] holds a record that has, field by field, the override's
    value where the override has the field and the base's value where it
    has not. *)
Theorem getAllParts_override_wins (rd : Reader) (baseVal adminVal : obj)
    (material : string) (basePart overrides : obj) :
  rd (ref "material_summary_2025") = Done (JObj baseVal) ->
  rd (ref "Parts") = Done (JObj adminVal) ->
  unique_keys baseVal = true -> unique_keys adminVal = true ->
  unique_keys basePart = true -> unique_keys overrides = true ->
  obj_get material baseVal = Some (JObj basePart) ->
  obj_get material adminVal = Some (JObj overrides) ->
  exists merged,
    obj_get material (own_entries (getAllParts rd)) = Some (JObj merged) /\
    forall field,
      obj_get field merged =
      match obj_get field overrides with
      | Some v => Some v
      | None => obj_get field basePart
      end.
Proof.
  intros Hb Ha Hub Hua Hup Huo Hgb Hga.
  unfold getAllParts. rewrite Hb, Ha. cbn [own_entries].
  rewrite (merge_get _ material (records_of_unique _)).
  rewrite (records_of_get adminVal material Hua), Hga. cbn [isRecord].
  rewrite (obj_get_assign nil _ material (records_of_unique _)).
  rewrite (records_of_get baseVal material Hub), Hgb. cbn [isRecord or_empty own_entries].
  eexists. split; [reflexivity|]. intros field.
  rewrite (obj_get_assign _ overrides field Huo).
  destruct (obj_get field overrides); [reflexivity|].
  unfold spread. cbn [own_entries]. rewrite (obj_get_assign nil basePart field Hup).
  destruct (obj_get field basePart); reflexivity.
Qed.

Lemma getAllParts_override_wins_witness :
  exists merged,
    obj_get "M-200" (own_entries (getAllParts Samples.store)) = Some (JObj merged) /\
    forall field,
      obj_get field merged =
      match obj_get field
              (("SPRAS_EN", JStr "Steel nut M8") :: ("notes", JStr "check stock") :: nil) with
      | Some v => Some v
      | None =>
          obj_get field
            (("SPRAS_EN", JStr "Steel nut") :: ("Supplier_Name", JStr "Bolton Ltd") :: nil)
      end.
Proof.
  apply (getAllParts_override_wins Samples.store Samples.base_rows Samples.admin_rows
           "M-200"); reflexivity.
Defined.

Example getAllParts_sample :
  getAllParts Samples.store =
  JObj (("M-100", Samples.part "Hex Bolt M8" "Acme Fasteners")
     :: ("M-200", JObj (("SPRAS_EN", JStr "Steel nut M8")
                     :: ("Supplier_Name", JStr "Bolton Ltd")
                     :: ("notes", JStr "check stock") :: nil))
     :: ("M-300", Samples.part "Washer" "Acme Fasteners")
     :: ("M-900", JObj (("notes", JStr "admin only") :: nil))
     :: nil).
Proof. reflexivity. Qed.

(** The module [src/services/firebase.ts] has no overrides: its
    [getAllParts] is the base dataset as read. *)
Example getAllParts_base_only :
  obj_get "M-200" (own_entries (FirebaseService.getAllParts Samples.store)) =
  Some (Samples.part "Steel nut" "Bolton Ltd").
Proof. reflexivity. Qed.

(** C1 — the [getAllParts] of [src/services/firebase.ts], the module that
    the pages import, does not merge. It never reads [Parts]: two stores
    with the same answer for the base dataset get the same mapping. On the
    sample store, where [M-200] is in both datasets and the override gives
    another description and a note, the record returned under [M-200] has
    the base's description and no note, and the key [M-900], which only the
    overrides hold, is not in the mapping. *)
Theorem getAllParts_ignores_overrides :
  (forall rd rd' : Reader,
     rd (ref "material_summary_2025") = rd' (ref "material_summary_2025") ->
     FirebaseService.getAllParts rd = FirebaseService.getAllParts rd') /\
  Samples.store (ref "material_summary_2025") = Done (JObj Samples.base_rows) /\
  Samples.store (ref "Parts") = Done (JObj Samples.admin_rows) /\
  (exists basePart overrides,
     obj_get "M-200" Samples.base_rows = Some basePart /\
     obj_get "M-200" Samples.admin_rows = Some overrides /\
     prop "SPRAS_EN" basePart = Some (JStr "Steel nut") /\
     prop "SPRAS_EN" overrides = Some (JStr "Steel nut M8") /\
     prop "notes" overrides = Some (JStr "check stock")) /\
  (exists record,
     obj_get "M-200" (own_entries (FirebaseService.getAllParts Samples.store)) = Some record /\
     prop "SPRAS_EN" record = Some (JStr "Steel nut") /\
     prop "notes" record = None) /\
  obj_get "M-900" (own_entries (FirebaseService.getAllParts Samples.store)) = None.
Proof.
  split.
  - intros rd rd' H. unfold FirebaseService.getAllParts. now rewrite H.
  - split; [reflexivity|]. split; [reflexivity|].
    split; [eexists; eexists; repeat split; reflexivity|].
    split; [eexists; repeat split; reflexivity|reflexivity].
Qed.

End MergedCatalogue.

(** ** Runs of the workflow *)

Module RunFacts.
Import JS Backend Statements.

(** Unfold a run down to the case analysis on the plan and the stores. *)
Ltac unfold_run :=
  cbv beta iota zeta delta
    [bind try_catch ret throw now remote record_event
     db_get db_get_all db_set uploadBytes getDownloadURL deleteObject fetch
     plan blobs partApplications log clock List.tl fst snd].

(** Split on the next flag of the plan or on the next lookup. *)
Ltac split_run :=
  match goal with
  | |- context [match ?p with nil => _ | cons _ _ => _ end] => is_var p; destruct p as [|[|] p]
  | |- context [match ?x with Some _ => _ | None => _ end] => destruct x eqn:?
  | |- context [if ?b then _ else _] => destruct b eqn:?
  end.



End RunFacts.

(** ** Approval *)

Module Approval.
Import JS Backend Applications Statements JSFacts RunFacts.

(** With no fault, approving a stored application writes the record with
    status [approved] and the given part code, and nothing else. *)
Lemma approvePartApplication_approves (w : World) (applicationId code : string)
    (currentData : json) :
  partApplications w !! applicationId = Some currentData ->
  plan w = nil ->
  let '(r, w') := approvePartApplication applicationId code w in
  r = Ok tt /\
  partApplications w' =
    <[applicationId := approved_record currentData code (clock w)]> (partApplications w) /\
  blobs w' = blobs w /\
  stored_with w' applicationId "approved" (Some code).
Proof.
  destruct w as [apps bl ck pl lg]. cbn [partApplications plan clock blobs].
  intros Hget ->. unfold approvePartApplication. unfold_run. rewrite Hget.
  split; [reflexivity|]. split; [reflexivity|]. split; [reflexivity|].
  eexists. cbn [partApplications]. split; [apply lookup_insert_eq|].
  unfold approved_record, prop. split.
  - rewrite obj_get_set_other by discriminate.
    rewrite obj_get_set_other by discriminate. apply obj_get_set_same.
  - rewrite obj_get_set_other by discriminate. apply obj_get_set_same.
Qed.

(** C10 — when no record is stored under the identifier, a key of the
    store (and the read is not made to fail), [approvePartApplication]
    fulfils after a single read: no write is issued, the application
    collection and the Blob Store are as before, and what the caller gets
    is what it gets from an approval that went through. *)
Theorem approvePartApplication_missing_is_silent (w : World) (applicationId code : string) :
  Remote.valid_key applicationId = true ->
  partApplications w !! applicationId = None ->
  next_call_undisturbed w ->
  let '(r, w') := approvePartApplication applicationId code w in
  r = Ok tt /\
  partApplications w' = partApplications w /\
  blobs w' = blobs w /\
  log w' = log w ++ mkEvent (DbGet applicationId) true :: nil /\
  forall w2 record,
    partApplications w2 !! applicationId = Some record ->
    plan w2 = nil ->
    fst (approvePartApplication applicationId code w2) = r.
Proof.
  destruct w as [apps bl ck pl lg]. unfold next_call_undisturbed.
  cbn [partApplications plan clock blobs log].
  intros _ Hget Hplan. unfold approvePartApplication. unfold_run. rewrite Hget.
  assert (forall w2 record,
            partApplications w2 !! applicationId = Some record ->
            plan w2 = nil ->
            fst (approvePartApplication applicationId code w2) = Ok tt) as Hsame.
  { intros w2 record H2 Hp2.
    pose proof (approvePartApplication_approves w2 applicationId code record H2 Hp2) as H.
    destruct (approvePartApplication applicationId code w2) as [r2 w2']. now destruct H. }
  destruct pl as [|[|] pl]; [|exfalso; now apply Hplan|];
    (split; [reflexivity|]; split; [reflexivity|]; split; [reflexivity|];
     split; [reflexivity|]); exact Hsame.
Qed.

Lemma approvePartApplication_missing_is_silent_witness :
  Remote.valid_key "APP0404" = true /\
  Samples.world.(partApplications) !! "APP0404" = None /\
  next_call_undisturbed Samples.world /\
  let '(r, w') := approvePartApplication "APP0404" "PC-100" Samples.world in
  r = Ok tt /\
  partApplications w' = partApplications Samples.world /\
  blobs w' = blobs Samples.world /\
  log w' = log Samples.world ++ mkEvent (DbGet "APP0404") true :: nil /\
  forall w2 record,
    partApplications w2 !! "APP0404" = Some record ->
    plan w2 = nil ->
    fst (approvePartApplication "APP0404" "PC-100" w2) = r.
Proof.
  assert (Samples.world.(partApplications) !! "APP0404" = None) as H1 by reflexivity.
  assert (next_call_undisturbed Samples.world) as H2 by discriminate.
  split; [reflexivity|]. split; [exact H1|]. split; [exact H2|].
  exact (approvePartApplication_missing_is_silent Samples.world "APP0404" "PC-100"
           eq_refl H1 H2).
Defined.

End Approval.

(** ** Image re-homing *)

Module Rehoming.
Import JS Backend Applications Statements JSFacts RunFacts.



(** A failed deletion does not fail the run. *)
Example rename_survives_failed_delete :
  let '(r, w') :=
    renamePartApplicationImage "APP0001" "PC-100"
      (mkWorld (partApplications Samples.world) (blobs Samples.world)
         (clock Samples.world) (false :: false :: false :: true :: nil) nil) in
  r = Ok tt /\
  In (mkEvent (Delete "APP0001.png") false) (log w') /\
  is_Some (blobs w' !! "APP0001.png") /\
  is_Some (blobs w' !! "PC-100.png").
Proof. vm_compute. repeat split; eauto 10. Qed.

(** A failed upload leaves the old object in place. *)
Example rename_keeps_source_on_failed_upload :
  let '(r, w') :=
    renamePartApplicationImage "APP0001" "PC-100"
      (mkWorld (partApplications Samples.world) (blobs Samples.world)
         (clock Samples.world) (false :: false :: true :: nil) nil) in
  r = Throw (RemoteFault (Upload "PC-100.png" (Byte.x89 :: Byte.x50 :: Byte.x4e :: Byte.x47 :: nil)))
  /\ blobs w' = blobs Samples.world
  /\ forall e, In e (log w') -> ev_call e <> Delete "APP0001.png".
Proof.
  vm_compute. split; [reflexivity|]. split; [reflexivity|].
  intros e [<-|[<-|[<-|[]]]]; discriminate.
Qed.

End Rehoming.

(** ** Submission *)

Module Submission.
Import JS Backend Applications PartApplicationPage Statements JSFacts RunFacts.

Ltac unfold_page :=
  cbv beta delta
    [showMessage setIsSubmitting setApplications resetForm closeApproveDialog];
  cbn [message isSubmitting applications selectedFile approveDialog partCodeInput formData].

Lemma is_empty_true (s : string) : is_empty s = true <-> s = "".
Proof. unfold is_empty. apply String.eqb_eq. Qed.

Lemma required_check (f : FormData) :
  is_empty (f_requestedBy f) || is_empty (f_department f)
  || is_empty (f_specifications f) || is_empty (f_supplier f)
  || is_empty (f_standardPrice f) = true <-> missing_required f.
Proof.
  unfold missing_required. rewrite !orb_true_iff, !is_empty_true. tauto.
Qed.

(** C4 — [handleSubmit] answers a missing required field, and a missing
    image, with an error message that says so, and leaves the world as it
    was: no remote call is made. When it reports success, the identifier it
    names is [generateApplicationId], and the record stored under it has
    status [pending] and no [partCode]. *)
Theorem handleSubmit_validates_then_stores (p : Page) (w : World) :
  let '(r, w') := handleSubmit p w in
  (missing_required (formData p) ->
   r = Ok (showMessage error "Please fill in all required fields" p) /\ w' = w) /\
  (~ missing_required (formData p) -> selectedFile p = None ->
   r = Ok (showMessage error "Please upload an image" p) /\ w' = w) /\
  (forall p' text,
     r = Ok p' -> message p' = Some (success, text) ->
     text = "Part application " +:+ generateApplicationId p +:+ " submitted successfully!" /\
     stored_with w' (generateApplicationId p) "pending" None).
Proof.
  unfold handleSubmit.
  destruct (is_empty (f_requestedBy (formData p)) || is_empty (f_department (formData p))
            || is_empty (f_specifications (formData p)) || is_empty (f_supplier (formData p))
            || is_empty (f_standardPrice (formData p))) eqn:Hreq.
  - apply required_check in Hreq. cbv [ret].
    split; [intros _; split; reflexivity|]. split; [intros Hn; contradiction|].
    intros p' text [= <-]. unfold_page. discriminate.
  - assert (~ missing_required (formData p)) as Hn.
    { intros Hm. apply required_check in Hm. congruence. }
    destruct (selectedFile p) as [file|] eqn:Hfile.
    + change (generateApplicationId (setIsSubmitting true p)) with (generateApplicationId p).
      clear Hfile Hreq. revert Hn. generalize (generateApplicationId p) as applicationId.
      intros applicationId Hn. destruct w as [apps bl ck pl lg].
      unfold loadApplications, getPartApplications, savePartApplication,
        uploadPartApplicationImage.
      cbn [imageUrl id]. unfold_run. unfold_page.
      repeat split_run;
        (split; [intros Hm; contradiction|]);
        (split; [intros _; discriminate|]);
        intros p' text [= <-]; cbn [message]; intros [= <-];
        (split; [reflexivity|]);
        (eexists; cbn [partApplications]; split; [apply lookup_insert_eq|];
         split; reflexivity).
    + cbv [ret]. split; [intros Hm; contradiction|].
      split; [intros _ _; split; reflexivity|].
      intros p' text [= <-]. unfold_page. discriminate.
Qed.

Example handleSubmit_sample :
  let '(r, w') := handleSubmit Samples.submit_page Samples.world in
  (exists p', r = Ok p' /\
              message p' = Some (success, "Part application APP0001 submitted successfully!")) /\
  stored_with w' "APP0001" "pending" None /\
  ev_call <$> log w' =
    Upload "APP0001.png" (Byte.xff :: Byte.xd8 :: nil)
    :: GetURL "APP0001.png"
    :: DbSet "APP0001"
         (application_record
            (mkPartApplication "APP0001" "Lee" "Workshop" low "Gasket 40 mm" "Sealco" "2.10"
               "" "2025-02-01T09:00:00.000Z" pending None None)
            (downloadURL "APP0001.png"))
    :: DbGetAll :: nil.
Proof.
  vm_compute. split; [eexists; split; reflexivity|]. split; [|reflexivity].
  eexists. split; [reflexivity|]. split; reflexivity.
Qed.

Example handleSubmit_without_image :
  handleSubmit
    (mkPage false nil None None None "" (formData Samples.submit_page)) Samples.world =
  (Ok (mkPage false nil (Some (error, "Please upload an image")) None None ""
         (formData Samples.submit_page)),
   Samples.world).
Proof. reflexivity. Qed.

End Submission.

(** ** Approval followed by re-homing *)

Module ApprovalFlow.
Import JS Backend Applications PartApplicationPage Statements JSFacts RunFacts.
Import Submission.

(** [renamePartApplicationImage] passes on the failure of its first
    call. *)
Lemma renamePartApplicationImage_rethrows (w : World) (applicationId code : string)
    (rest : list bool) :
  plan w = true :: rest ->
  fst (renamePartApplicationImage applicationId code w)
    = Throw (RemoteFault (GetURL (applicationId +:+ ".png"))).
Proof.
  destruct w as [apps bl ck pl lg]. cbn [plan]. intros ->.
  unfold renamePartApplicationImage. unfold_run. reflexivity.
Qed.

(** Whenever the approval itself goes through and the first call of the
    re-homing fails, [handleApprove] ends on the message of a failed
    approval, with the record stored as approved. *)
Lemma handleApprove_surfaces_rehoming_failure (p : Page) (w : World)
    (a : PartApplication) (record : json) (rest : list bool) :
  approveDialog p = Some a ->
  trim (partCodeInput p) <> "" ->
  has_image a = true ->
  partApplications w !! id a = Some record ->
  plan w = false :: false :: true :: rest ->
  let '(r, w') := handleApprove p w in
  (exists p', r = Ok p' /\ message p' = Some (error, "Failed to approve application")) /\
  stored_with w' (id a) "approved" (Some (trim (partCodeInput p))).
Proof.
  intros Ha Hcode Himg Hrec Hplan. unfold handleApprove, handleApprove_with. rewrite Ha.
  apply String.eqb_neq in Hcode. unfold is_empty at 1. rewrite Hcode, Himg.
  destruct w as [apps bl ck pl lg]. cbn [plan partApplications] in Hrec, Hplan. subst pl.
  unfold approvePartApplication, renamePartApplicationImage. unfold_run.
  rewrite Hrec. unfold_page.
  split; [eexists; split; reflexivity|].
  eexists. cbn [partApplications]. split; [apply lookup_insert_eq|].
  unfold approved_record, prop. split.
  - rewrite obj_get_set_other by discriminate.
    rewrite obj_get_set_other by discriminate. apply obj_get_set_same.
  - rewrite obj_get_set_other by discriminate. apply obj_get_set_same.
Qed.

Lemma spread_unique (v : json) : unique_keys (spread v) = true.
Proof. unfold spread. now apply FoldFacts.unique_keys_assign. Qed.

Lemma approved_record_fields (currentData : json) (code stamp : string) :
  exists o,
    approved_record currentData code stamp = JObj o /\
    unique_keys o = true /\
    obj_get "status" o = Some (JStr "approved") /\
    obj_get "partCode" o = Some (JStr code).
Proof.
  eexists. split; [reflexivity|]. split; [|split].
  - repeat apply FoldFacts.unique_keys_obj_set. apply spread_unique.
  - rewrite obj_get_set_other by discriminate.
    rewrite obj_get_set_other by discriminate. apply obj_get_set_same.
  - rewrite obj_get_set_other by discriminate. apply obj_get_set_same.
Qed.

(** Pointing a record at another image leaves its other fields alone. *)
Lemma repointed_record_field (o : obj) (url : json) (k : string) :
  unique_keys o = true -> k <> "imageUrl" ->
  obj_get k (obj_set "imageUrl" url (spread (JObj o))) = obj_get k o.
Proof.
  intros Hu Hk. rewrite obj_get_set_other by congruence.
  unfold spread. cbn [own_entries]. rewrite (FoldFacts.obj_get_assign nil o k Hu).
  destruct (obj_get k o); reflexivity.
Qed.

(** Whatever becomes of the re-homing, once the two calls of the approval
    have gone through the record stays approved with the part code: there
    is no rollback. *)
Lemma handleApprove_keeps_approval (p : Page) (w : World)
    (a : PartApplication) (record : json) (rest : list bool) :
  approveDialog p = Some a ->
  trim (partCodeInput p) <> "" ->
  partApplications w !! id a = Some record ->
  plan w = false :: false :: rest ->
  stored_with (snd (handleApprove p w)) (id a) "approved" (Some (trim (partCodeInput p))).
Proof.
  intros Ha Hcode Hrec Hplan. unfold handleApprove, handleApprove_with. rewrite Ha.
  apply String.eqb_neq in Hcode. unfold is_empty at 1. rewrite Hcode.
  destruct w as [apps bl ck pl lg]. cbn [plan partApplications] in Hrec, Hplan. subst pl.
  destruct (approved_record_fields record (trim (partCodeInput p)) ck)
    as (o & Ho & Hu & Hstatus & Hpart).
  unfold approvePartApplication, renamePartApplicationImage, loadApplications,
    getPartApplications.
  unfold_run. rewrite Hrec, Ho. rewrite ?lookup_insert_eq.
  assert (forall m : gmap string json,
            m !! id a = Some (JObj o) ->
            exists r, m !! id a = Some r /\ prop "status" r = Some (JStr "approved") /\
                      prop "partCode" r = Some (JStr (trim (partCodeInput p)))) as Hkept.
  { intros m Hm. eexists. split; [exact Hm|]. now split. }
  assert (forall (m : gmap string json) url,
            exists r, <[id a := JObj (obj_set "imageUrl" url (spread (JObj o)))]> m !! id a
                        = Some r /\
                      prop "status" r = Some (JStr "approved") /\
                      prop "partCode" r = Some (JStr (trim (partCodeInput p)))) as Hmoved.
  { intros m url. eexists. split; [apply lookup_insert_eq|]. unfold prop.
    rewrite !repointed_record_field by (exact Hu || discriminate). now split. }
  unfold stored_with.
  destruct (has_image a); unfold_page; repeat split_run; cbn [snd partApplications];
    try match goal with
        | H : <[?k := _]> _ !! ?k = None |- _ =>
            rewrite lookup_insert_eq in H; discriminate H
        | H : <[?k := _]> _ !! ?k = Some _ |- _ =>
            rewrite lookup_insert_eq in H; injection H as <-
        end;
    first [ apply Hmoved | apply Hkept; apply lookup_insert_eq ].
Qed.

(** C2 — on the pending application [APP0001], with a Blob Store that
    fails the first call of the re-homing: the record is stored as approved
    with the part code [PC-100], and [handleApprove] ends on the error
    message of a failed approval, with the dialog still open and the list
    of applications not reloaded. The failure of the re-homing reaches the
    caller. *)
Theorem handleApprove_failed_rehoming_is_reported :
  let '(r, w') := handleApprove Samples.approve_page Samples.world_faulty_blob_store in
  (exists p',
     r = Ok p' /\
     message p' = Some (error, "Failed to approve application") /\
     approveDialog p' = Some Samples.application /\
     applications p' = nil) /\
  stored_with w' "APP0001" "approved" (Some "PC-100") /\
  log w' =
    mkEvent (DbGet "APP0001") true
    :: mkEvent (DbSet "APP0001"
                  (approved_record
                     (application_record Samples.application (downloadURL "APP0001.png"))
                     "PC-100" "2025-02-01T09:00:00.000Z")) true
    :: mkEvent (GetURL "APP0001.png") false
    :: nil.
Proof.
  vm_compute. split; [eexists; repeat split; reflexivity|].
  split; [|reflexivity]. eexists. split; [reflexivity|]. split; reflexivity.
Qed.

(** With a Blob Store that works, the same call ends on the success
    message. *)
Example handleApprove_sample :
  let '(r, w') := handleApprove Samples.approve_page Samples.world in
  (exists p',
     r = Ok p' /\
     message p' = Some (success, "Application APP0001 approved with part code PC-100") /\
     approveDialog p' = None) /\
  stored_with w' "APP0001" "approved" (Some "PC-100") /\
  (exists record,
     partApplications w' !! "APP0001" = Some record /\
     prop "imageUrl" record = Some (JStr (downloadURL "PC-100.png"))) /\
  blobs w' !! "APP0001.png" = None.
Proof.
  vm_compute. split; [eexists; repeat split; reflexivity|].
  split; [eexists; split; [reflexivity|]; split; reflexivity|].
  split; [eexists; split; reflexivity|reflexivity].
Qed.

End ApprovalFlow.

(** ** The image in the generated document *)

Module Renderer.
Import JS PDFService Statements.

Lemma try_image_stops (load : string -> LoadResult) (pageHeight margin contentWidth : Q)
    (c : Cursor) (u : string) :
  snd (try_image load pageHeight margin contentWidth c u) = loads load u.
Proof.
  unfold try_image, loads. destruct (load u) as [|width height| |]; try reflexivity.
  destruct (fit width height contentWidth). reflexivity.
Qed.

Lemma embed_loop_tried (load : string -> LoadResult) (pageHeight margin contentWidth : Q)
    (urls : list string) :
  forall c,
    snd (embed_loop load pageHeight margin contentWidth c urls) = tried_until_loaded load urls.
Proof.
  induction urls as [|u r IH]; intros c; [reflexivity|].
  cbn [embed_loop tried_until_loaded].
  pose proof (try_image_stops load pageHeight margin contentWidth c u) as Hs.
  destruct (try_image load pageHeight margin contentWidth c u) as [c' stop].
  cbn [snd] in Hs. subst stop. destruct (loads load u); [reflexivity|].
  specialize (IH c'). destruct (embed_loop load pageHeight margin contentWidth c' r).
  cbn [snd] in *. now rewrite IH.
Qed.

Lemma tried_until_loaded_first (load : string -> LoadResult) (pre post : list string)
    (u : string) :
  (forall x, In x pre -> loads load x = false) ->
  loads load u = true ->
  tried_until_loaded load (pre ++ u :: post) = pre ++ u :: nil.
Proof.
  intros Hpre Hu. induction pre as [|x pre IH]; cbn [app tried_until_loaded].
  - now rewrite Hu.
  - rewrite (Hpre x) by now left. rewrite IH; [reflexivity|].
    intros y Hy. apply Hpre. now right.
Qed.

Lemma tried_until_loaded_none (load : string -> LoadResult) (urls : list string) :
  (forall x, In x urls -> loads load x = false) ->
  tried_until_loaded load urls = urls.
Proof.
  intros Hall. induction urls as [|x r IH]; [reflexivity|].
  cbn [tried_until_loaded]. rewrite (Hall x) by now left.
  rewrite IH; [reflexivity|]. intros y Hy. apply Hall. now right.
Qed.

(** C7, as the code has it — the candidates are the stored image URL
    (when the record has one) and then two guessed URLs under
    [part-applications/] of the renderer's own bucket, with [.jpg] and then
    [.png]; they are tried in this order, the first that loads is the last
    one tried, and all are tried when none loads. *)
Theorem embedImage_tries_in_order (load : string -> LoadResult)
    (pageHeight margin contentWidth : Q) (c : Cursor) (a : PartApplication) :
  imageUrls a =
    stored_url a ++ firebaseImageUrl a ".jpg" :: firebaseImageUrl a ".png" :: nil /\
  snd (embedImage load pageHeight margin contentWidth c a)
    = tried_until_loaded load (imageUrls a) /\
  (forall pre u post,
     imageUrls a = pre ++ u :: post ->
     (forall x, In x pre -> loads load x = false) ->
     loads load u = true ->
     snd (embedImage load pageHeight margin contentWidth c a) = pre ++ u :: nil) /\
  ((forall x, In x (imageUrls a) -> loads load x = false) ->
   snd (embedImage load pageHeight margin contentWidth c a) = imageUrls a).
Proof.
  unfold embedImage. rewrite embed_loop_tried.
  split; [reflexivity|]. split; [reflexivity|]. split.
  - intros pre u post -> Hpre Hu. now apply tried_until_loaded_first.
  - apply tried_until_loaded_none.
Qed.

(** C7, as the claim has it, fails: for a record without a stored URL and
    a store where nothing loads, the renderer tries two URLs, with [.jpg]
    first, and not the three of [getPartImageUrlWithFallback]. *)
Lemma embedImage_not_png_jpg_webp :
  snd (embedImage (fun _ => LoadError) 297 20 170 (mkCursor 100 nil)
         (mkApplication "APP0001" None))
  <> tried_until_loaded (fun _ => LoadError)
       (claimed_candidates (mkApplication "APP0001" None)).
Proof. vm_compute. discriminate. Qed.

Example embedImage_sample :
  snd (embedImage (fun _ => LoadError) 297 20 170 (mkCursor 100 nil)
         (mkApplication "APP0001" None)) =
  "https://firebasestorage.googleapis.com/v0/b/parts-catalogue-mgx.appspot.com/o/part-applications%2FAPP0001.jpg?alt=media"
  :: "https://firebasestorage.googleapis.com/v0/b/parts-catalogue-mgx.appspot.com/o/part-applications%2FAPP0001.png?alt=media"
  :: nil.
Proof. reflexivity. Qed.

Example getPartImageUrlWithFallback_sample :
  FirebaseService.getPartImageUrlWithFallback "APP0001" =
  "https://firebasestorage.googleapis.com/v0/b/partssr.firebasestorage.app/o/APP0001.png?alt=media"
  :: "https://firebasestorage.googleapis.com/v0/b/partssr.firebasestorage.app/o/APP0001.jpg?alt=media"
  :: "https://firebasestorage.googleapis.com/v0/b/partssr.firebasestorage.app/o/APP0001.webp?alt=media"
  :: nil.
Proof. reflexivity. Qed.

End Renderer.

(** ** The revision that copies: re-homing never fails the approval *)

Module CopyStrategyFacts.
Import JS Backend Applications PartApplicationPage Statements RunFacts Submission.

(** This revision of [renamePartApplicationImage] fulfils in every world,
    for every browser. *)
Lemma copy_rename_never_throws (canvas : string -> option Blob) (toString : json -> string)
    (applicationId code : string) (w : World) :
  fst (CopyStrategy.renamePartApplicationImage canvas toString applicationId code w) = Ok tt.
Proof.
  unfold CopyStrategy.renamePartApplicationImage, try_catch.
  match goal with |- fst (match ?run with _ => _ end) = _ => destruct run as [[[]|e] w'] end;
    reflexivity.
Qed.

Lemma loadApplications_fulfils (p : Page) (w : World) :
  exists apps w', loadApplications p w = (Ok (setApplications apps p), w').
Proof.
  destruct w as [a bl ck pl lg].
  unfold loadApplications, getPartApplications. unfold_run.
  repeat split_run; eexists; eexists; reflexivity.
Qed.

(** With this revision, once the approval itself has gone through,
    [handleApprove] ends on the success message whatever happens to the
    image. *)
Lemma handleApprove_copy_succeeds (canvas : string -> option Blob) (toString : json -> string)
    (p : Page) (w : World) (a : PartApplication) (record : json) (rest : list bool) :
  approveDialog p = Some a ->
  trim (partCodeInput p) <> "" ->
  partApplications w !! id a = Some record ->
  plan w = false :: false :: rest ->
  exists p',
    fst (handleApprove_with (CopyStrategy.renamePartApplicationImage canvas toString) p w)
      = Ok p' /\
    message p' =
      Some (success,
            "Application " +:+ id a +:+ " approved with part code " +:+ partCodeInput p).
Proof.
  intros Ha Hcode Hrec Hplan. unfold handleApprove_with. rewrite Ha.
  apply String.eqb_neq in Hcode. unfold is_empty at 1. rewrite Hcode.
  destruct w as [apps bl ck pl lg]. cbn [plan partApplications] in Hrec, Hplan. subst pl.
  unfold approvePartApplication.
  cbv beta iota zeta delta
    [bind try_catch ret throw now remote record_event db_get db_set
     plan blobs partApplications log clock List.tl fst snd].
  rewrite Hrec.
  match goal with
  | |- context [(if has_image a then ?m else ?n) ?w1] =>
      assert (exists w2, (if has_image a then m else n) w1 = (Ok tt, w2)) as [w2 Hw2]
  end.
  { destruct (has_image a); [|eexists; reflexivity].
    match goal with
    | |- exists w2, ?run = _ =>
        pose proof (copy_rename_never_throws canvas toString (id a)
                      (trim (partCodeInput p)) _ : fst run = Ok tt) as Hnever;
        destruct run as [r w2]
    end.
    cbn [fst] in Hnever. subst r. eexists; reflexivity. }
  rewrite Hw2.
  destruct (loadApplications_fulfils (setIsSubmitting true p) w2) as [apps2 [w3 Hload]].
  rewrite Hload. eexists; split; reflexivity.
Qed.

(** This revision leaves the old object in place: no run of it asks the
    Blob Store to delete anything. *)
Lemma copy_rename_never_deletes (canvas : string -> option Blob) (toString : json -> string)
    (applicationId code : string) (w : World) :
  exists evs,
    log (snd (CopyStrategy.renamePartApplicationImage canvas toString applicationId code w))
      = log w ++ evs /\
    forall e key, In e evs -> ev_call e <> Delete key.
Proof.
  destruct w as [apps bl ck pl lg].
  unfold CopyStrategy.renamePartApplicationImage, CopyStrategy.copyImageToPartCode,
    CopyStrategy.copyImageViaCanvas.
  unfold_run.
  repeat split_run; cbn [snd log]; rewrite <- ?app_assoc; cbn [app];
    (eexists; split; [first [reflexivity | symmetry; apply app_nil_r]|]);
    intros e key Hin; cbn [In] in Hin;
    repeat (destruct Hin as [<-|Hin]; [discriminate|]); destruct Hin.
Qed.

End CopyStrategyFacts.


(** ** White space, percent-encoding, identifiers *)

Module TextFacts.
Import JS MoreStatements.

Lemma trimStart_fixed (s : string) : starts_space s = false -> trimStart s = s.
Proof.
  destruct s as [|a [|b [|c r]]]; cbn [starts_space trimStart]; intros H;
    try reflexivity;
    destruct (is_space a); try discriminate H;
    try destruct (is_space2 a b); try discriminate H;
    try destruct (is_space3 a b c); try discriminate H; reflexivity.
Qed.

Lemma trimStart_clean_upto (n : nat) :
  forall s, String.length s <= n -> starts_space (trimStart s) = false.
Proof.
  induction n as [|n IH]; intros s Hlen.
  - destruct s; [reflexivity|cbn in Hlen; lia].
  - destruct s as [|a r1]; [reflexivity|]. cbn [String.length] in Hlen.
    cbn [trimStart]. destruct (is_space a) eqn:Ha; [apply IH; lia|].
    destruct r1 as [|b r2]; [cbn [starts_space]; now rewrite Ha|].
    cbn [String.length] in Hlen.
    destruct (is_space2 a b) eqn:Hb; [apply IH; lia|].
    destruct r2 as [|c r3]; [cbn [starts_space]; now rewrite Ha, Hb|].
    cbn [String.length] in Hlen.
    destruct (is_space3 a b c) eqn:Hc; [apply IH; lia|].
    cbn [starts_space]. now rewrite Ha, Hb, Hc.
Qed.

Lemma trimStart_clean (s : string) : starts_space (trimStart s) = false.
Proof. now apply (trimStart_clean_upto (String.length s)). Qed.

Lemma trimEnd_prefix (s : string) : String.prefix (trimEnd s) s = true.
Proof.
  induction s as [|c r IH]; [reflexivity|].
  cbn [trimEnd]. destruct (is_space_string (String c (trimEnd r))); [reflexivity|].
  cbn [String.prefix]. destruct (ascii_dec c c); [exact IH|congruence].
Qed.

Lemma starts_space_prefix (p s : string) :
  String.prefix p s = true -> starts_space p = true -> starts_space s = true.
Proof.
  destruct p as [|a [|b [|c p]]], s as [|a' [|b' [|c' s]]]; cbn [String.prefix starts_space];
    try discriminate;
    repeat match goal with
           | |- context [ascii_dec ?x ?y] => destruct (ascii_dec x y) as [->|]; try discriminate
           end;
    intros _;
    destruct (is_space a'); try (intros; reflexivity);
    try destruct (is_space2 a' b'); try (intros; reflexivity);
    try destruct (is_space3 a' b' c'); try (intros; reflexivity);
    cbn [orb]; try discriminate.
Qed.

Lemma trimEnd_idempotent (s : string) : trimEnd (trimEnd s) = trimEnd s.
Proof.
  induction s as [|c r IH]; [reflexivity|].
  cbn [trimEnd]. destruct (is_space_string (String c (trimEnd r))) eqn:E; [reflexivity|].
  cbn [trimEnd]. rewrite IH, E. reflexivity.
Qed.

(** [trim] leaves nothing to trim. *)
Lemma trim_trimmed (s : string) : trimmed (trim s).
Proof.
  unfold trimmed, trim.
  assert (starts_space (trimEnd (trimStart s)) = false) as Hclean.
  { destruct (starts_space (trimEnd (trimStart s))) eqn:E; [|reflexivity].
    apply (starts_space_prefix _ _ (trimEnd_prefix (trimStart s))) in E.
    now rewrite trimStart_clean in E. }
  rewrite (trimStart_fixed _ Hclean). apply trimEnd_idempotent.
Qed.

(** A no-break space, a line separator and a byte order mark are white
    space as well. *)
Example trim_samples :
  trim " M-100 " = "M-100" /\
  trim (String (ascii_of_nat 194) (String (ascii_of_nat 160) "")) = "" /\
  trim (String (ascii_of_nat 226) (String (ascii_of_nat 128) (String (ascii_of_nat 168) "x y ")))
    = "x y" /\
  trim ("a" +:+ String (ascii_of_nat 239) (String (ascii_of_nat 187)
                   (String (ascii_of_nat 191) " "))) = "a".
Proof. repeat split; reflexivity. Qed.

Lemma append_assoc (x y z : string) : (x +:+ y) +:+ z = x +:+ (y +:+ z).
Proof.
  induction x as [|c r IH]; [reflexivity|].
  change (String c ((r +:+ y) +:+ z) = String c (r +:+ (y +:+ z))). now rewrite IH.
Qed.

Lemma append_cancel_l (a x y : string) : a +:+ x = a +:+ y -> x = y.
Proof. induction a as [|c a IH]; simpl; [auto|]. intros [= H]. auto. Qed.

Lemma length_append (x y : string) :
  String.length (x +:+ y) = String.length x + String.length y.
Proof. induction x as [|c x IH]; simpl; [reflexivity|now rewrite IH]. Qed.

Lemma append_cancel_r (b x y : string) : x +:+ b = y +:+ b -> x = y.
Proof.
  revert y. induction x as [|c x IH]; intros y H.
  - destruct y as [|d y]; [reflexivity|].
    apply (f_equal String.length) in H. rewrite !length_append in H. simpl in H. lia.
  - destruct y as [|d y].
    + apply (f_equal String.length) in H. rewrite !length_append in H. simpl in H. lia.
    + simpl in H. injection H as -> H. f_equal. auto.
Qed.

Lemma hex_digit_inj (k k' : nat) :
  k < 16 -> k' < 16 -> hex_digit k = hex_digit k' -> k = k'.
Proof.
  intros Hk Hk' H. apply (f_equal nat_of_ascii) in H. unfold hex_digit in H.
  destruct (k <? 10)%nat eqn:E; destruct (k' <? 10)%nat eqn:E';
    rewrite !nat_ascii_embedding in H by
      (apply Nat.ltb_lt in E || apply Nat.ltb_ge in E;
       apply Nat.ltb_lt in E' || apply Nat.ltb_ge in E'; lia);
    apply Nat.ltb_lt in E || apply Nat.ltb_ge in E;
    apply Nat.ltb_lt in E' || apply Nat.ltb_ge in E'; lia.
Qed.

Lemma nat_of_ascii_inj (c c' : ascii) : nat_of_ascii c = nat_of_ascii c' -> c = c'.
Proof. intros H. rewrite <- (ascii_nat_embedding c), <- (ascii_nat_embedding c'). now rewrite H. Qed.

Lemma escape_inj (c c' : ascii) :
  hex_digit (nat_of_ascii c / 16) = hex_digit (nat_of_ascii c' / 16) ->
  hex_digit (nat_of_ascii c mod 16) = hex_digit (nat_of_ascii c' mod 16) ->
  c = c'.
Proof.
  intros H1 H2. pose proof (nat_ascii_bounded c) as B. pose proof (nat_ascii_bounded c') as B'.
  apply hex_digit_inj in H1;
    [|apply Nat.Div0.div_lt_upper_bound; lia|apply Nat.Div0.div_lt_upper_bound; lia].
  apply hex_digit_inj in H2; [|apply Nat.mod_upper_bound; lia|apply Nat.mod_upper_bound; lia].
  apply nat_of_ascii_inj.
  rewrite (Nat.div_mod_eq (nat_of_ascii c) 16), (Nat.div_mod_eq (nat_of_ascii c') 16). lia.
Qed.

Lemma percent_reserved : uri_unreserved "%" = false.
Proof. reflexivity. Qed.

(** Two strings with the same percent-encoding are the same string. *)
Lemma encodeURIComponent_inj (s t : string) :
  encodeURIComponent s = encodeURIComponent t -> s = t.
Proof.
  revert t. induction s as [|c r IH]; intros t H.
  - destruct t as [|c' r']; [reflexivity|].
    cbn [encodeURIComponent] in H. destruct (uri_unreserved c'); discriminate.
  - destruct t as [|c' r'].
    + cbn [encodeURIComponent] in H. destruct (uri_unreserved c); discriminate.
    + cbn [encodeURIComponent] in H.
      destruct (uri_unreserved c) eqn:U; destruct (uri_unreserved c') eqn:U'.
      * injection H as -> H. f_equal. auto.
      * injection H as -> _. rewrite percent_reserved in U. discriminate.
      * injection H as <- _. rewrite percent_reserved in U'. discriminate.
      * injection H as H1 H2 H. rewrite (escape_inj c c' H1 H2). f_equal. auto.
Qed.

Lemma encodeURIComponent_append (s t : string) :
  encodeURIComponent (s +:+ t) = encodeURIComponent s +:+ encodeURIComponent t.
Proof.
  induction s as [|c r IH]; [reflexivity|].
  change (String c r +:+ t) with (String c (r +:+ t)).
  cbn [encodeURIComponent]. rewrite IH. destruct (uri_unreserved c); reflexivity.
Qed.

End TextFacts.


(** ** Identifiers and image URLs *)

Module Identifiers.
Import JS Backend PartApplicationPage MoreStatements TextFacts.

Lemma uint_of_string_zeros (k : nat) (s : string) :
  NilEmpty.uint_of_string (repeat_string "0" k +:+ s)
    = Nat.iter k D0 <$> NilEmpty.uint_of_string s.
Proof.
  induction k as [|k IH].
  - change (repeat_string "0" 0 +:+ s) with s.
    destruct (NilEmpty.uint_of_string s); reflexivity.
  - cbn [repeat_string]. change (String "0" (repeat_string "0" k) +:+ s)
      with (String "0" (repeat_string "0" k +:+ s)).
    cbn [NilEmpty.uint_of_string]. rewrite IH.
    destruct (NilEmpty.uint_of_string s); reflexivity.
Qed.

Lemma of_uint_zeros (k : nat) (d : uint) : Nat.of_uint (Nat.iter k D0 d) = Nat.of_uint d.
Proof. induction k as [|k IH]; [reflexivity|]. cbn [Nat.iter]. exact IH. Qed.

Lemma number_of_padded (n width : nat) :
  Nat.of_uint <$> NilEmpty.uint_of_string (padStart (string_of_nat n) width "0") = Some n.
Proof.
  unfold padStart, string_of_nat. rewrite uint_of_string_zeros, NilEmpty.usu.
  cbn [fmap option_fmap option_map]. now rewrite of_uint_zeros, DecimalNat.Unsigned.of_to.
Qed.

(** X1 — the number of an identifier made by [generateApplicationId] is
    the number of applications in the list plus one; so two page states
    get the same identifier exactly when their lists have the same length
    (a stale list gives an identifier already handed out). *)
Theorem generateApplicationId_number (p : Page) :
  application_number (generateApplicationId p) = Some (length (applications p) + 1) /\
  forall p',
    generateApplicationId p = generateApplicationId p' <->
    length (applications p) = length (applications p').
Proof.
  assert (forall q, application_number (generateApplicationId q)
                    = Some (length (applications q) + 1)) as Hnum.
  { intros q. unfold generateApplicationId. cbn [String.append application_number].
    apply number_of_padded. }
  split; [apply Hnum|]. intros p'. split.
  - intros H. pose proof (Hnum p) as H1. rewrite H, Hnum in H1. injection H1. lia.
  - intros H. unfold generateApplicationId. now rewrite H.
Qed.

Example generateApplicationId_samples :
  generateApplicationId Samples.submit_page = "APP0001" /\
  generateApplicationId
    (mkPage false (repeat JNull 41) None None None "" emptyForm) = "APP0042".
Proof. split; reflexivity. Qed.

(** X2 — [getPartImageUrl] tells materials apart: two material codes with
    the same image URL are the same code. *)
Theorem getPartImageUrl_inj (material material' : string) :
  Images.getPartImageUrl material = Images.getPartImageUrl material' ->
  material = material'.
Proof.
  unfold Images.getPartImageUrl. intros H. apply append_cancel_l in H.
  apply append_cancel_r in H. now apply encodeURIComponent_inj.
Qed.

Lemma getPartImageUrl_inj_witness :
  Images.getPartImageUrl "M 100/A" = Images.getPartImageUrl "M 100/A" /\
  "M 100/A" = "M 100/A".
Proof.
  split; [reflexivity|].
  exact (getPartImageUrl_inj "M 100/A" "M 100/A" eq_refl).
Defined.

Example getPartImageUrl_sample :
  Images.getPartImageUrl "M 100/A" =
  "https://firebasestorage.googleapis.com/v0/b/partssr.firebasestorage.app/o/M%20100%2FA.png?alt=media".
Proof. reflexivity. Qed.

End Identifiers.


(** ** What a search returns *)

Module SearchCompleteness.
Import JS Remote FirebaseService Statements MoreStatements JSFacts.

Section Engine.

Variable toLowerCase : string -> string.

Lemma search_step_matches (searchLower : string) (limit : nat) (filtered : obj) (count : nat)
    (material : string) (part : json) :
  search_step toLowerCase searchLower limit (filtered, count) (material, part) =
  if (limit <=? count)%nat then Some (filtered, count)
  else
    match matches toLowerCase searchLower (material, part) with
    | None => None
    | Some true => Some (obj_set material part filtered, S count)
    | Some false => Some (filtered, count)
    end.
Proof.
  unfold search_step, matches. cbn [fst snd].
  destruct (limit <=? count)%nat; [reflexivity|].
  destruct (lowered_field toLowerCase "SPRAS_EN" part); [|reflexivity].
  destruct (lowered_field toLowerCase "Supplier_Name" part); reflexivity.
Qed.




Lemma search_loop_app (searchLower : string) (limit : nat) (l1 l2 : obj) :
  forall st,
    search_loop toLowerCase searchLower limit st (l1 ++ l2) =
    match search_loop toLowerCase searchLower limit st l1 with
    | Some st' => search_loop toLowerCase searchLower limit st' l2
    | None => None
    end.
Proof.
  induction l1 as [|e r IH]; intros st; [reflexivity|].
  cbn [app search_loop]. destruct (search_step toLowerCase searchLower limit st e); [apply IH|reflexivity].
Qed.

Lemma search_loop_readable (searchLower : string) (limit : nat) (entries : obj) :
  all_readable toLowerCase searchLower entries ->
  forall filtered count,
    exists filtered',
      search_loop toLowerCase searchLower limit (filtered, count) entries
        = Some (filtered',
                count + length (firstn (limit - count) (matching toLowerCase searchLower entries))).
Proof.
  induction entries as [|[material part] r IH]; intros Hread filtered count.
  - exists filtered. cbn [search_loop matching List.filter]. rewrite firstn_nil.
    cbn [length]. now rewrite Nat.add_0_r.
  - assert (all_readable toLowerCase searchLower r) as Hread'.
    { intros e He. apply Hread. now right. }
    cbn [search_loop]. rewrite search_step_matches.
    destruct (limit <=? count)%nat eqn:L.
    + apply Nat.leb_le in L. destruct (IH Hread' filtered count) as [f' Hrun].
      exists f'. replace (limit - count) with 0 in * by lia. exact Hrun.
    + apply Nat.leb_gt in L.
      destruct (matches toLowerCase searchLower (material, part)) as [[|]|] eqn:M.
      * destruct (IH Hread' (obj_set material part filtered) (S count)) as [f' Hrun].
        exists f'. unfold matching in *. cbn [List.filter]. rewrite M.
        replace (limit - count) with (S (limit - S count)) by lia.
        cbn [firstn length]. rewrite Hrun. f_equal. f_equal. lia.
      * destruct (IH Hread' filtered count) as [f' Hrun].
        exists f'. unfold matching in *. cbn [List.filter]. now rewrite M.
      * exfalso. apply (Hread (material, part)); [now left|exact M].
Qed.

End Engine.



(** X4 — one row that makes the callback throw (its description or its
    supplier holds a truthy value that is not a string, or the row is
    [null]) empties the whole result, when it is reached before the limit:
    the rows that matched before it are lost with it. This holds whatever
    the engine's [toLowerCase] is. *)
Theorem searchParts_unreadable_row (toLowerCase : string -> string)
    (rd : Reader) (searchTerm : string) (limit : nat)
    (before after : obj) (material : string) (part : json) :
  searchTerm <> "" ->
  own_entries (getAllParts rd) = before ++ (material, part) :: after ->
  all_readable toLowerCase (toLowerCase searchTerm) before ->
  length (matching toLowerCase (toLowerCase searchTerm) before) < limit ->
  matches toLowerCase (toLowerCase searchTerm) (material, part) = None ->
  searchParts toLowerCase rd searchTerm limit = JObj nil.
Proof.
  intros Hterm Hent Hread Hfew Hbad. unfold searchParts.
  apply String.eqb_neq in Hterm. rewrite Hterm. unfold search_filter. cbv zeta.
  rewrite Hent, search_loop_app.
  destruct (search_loop_readable toLowerCase (toLowerCase searchTerm) limit before Hread nil 0)
    as [f' Hrun].
  destruct (search_loop toLowerCase (toLowerCase searchTerm) limit _ before)
    as [[f0 c0]|] eqn:E; [|reflexivity].
  injection Hrun as -> Hc. rewrite Nat.sub_0_r, firstn_all2 in Hc by lia.
  cbn [search_loop]. rewrite search_step_matches, Hbad.
  destruct (limit <=? c0)%nat eqn:L; [apply Nat.leb_le in L; lia|reflexivity].
Qed.

Lemma searchParts_unreadable_row_witness :
  let rows :=
    ("M-100", Samples.part "Hex Bolt M8" "Acme Fasteners")
    :: ("M-150", JObj (("SPRAS_EN", JNum 8) :: nil))
    :: ("M-200", Samples.part "Steel nut" "Bolton Ltd") :: nil in
  searchParts Samples.toLowerCase (fun _ => Done (JObj rows)) "bolt" 5 = JObj nil.
Proof.
  apply (searchParts_unreadable_row Samples.toLowerCase (fun _ => Done (JObj _)) "bolt" 5
           (("M-100", Samples.part "Hex Bolt M8" "Acme Fasteners") :: nil)
           (("M-200", Samples.part "Steel nut" "Bolton Ltd") :: nil)
           "M-150" (JObj (("SPRAS_EN", JNum 8) :: nil)));
    [discriminate|reflexivity| |vm_compute; lia|reflexivity].
  intros e [<-|[]]. discriminate.
Defined.

End SearchCompleteness.

(** ** Stored images and their URLs *)

Module BlobFacts.
Import JS Backend TextFacts.

Lemma downloadURL_inj (key key' : string) : downloadURL key = downloadURL key' -> key = key'.
Proof.
  unfold downloadURL. intros H. apply append_cancel_l in H.
  apply append_cancel_r in H. now apply encodeURIComponent_inj.
Qed.

Lemma png_inj (a b : string) : a +:+ ".png" = b +:+ ".png" -> a = b.
Proof. apply append_cancel_r. Qed.

(** The URL issued for a key leads back to the object stored under that
    key, and to nothing when there is none. *)
Lemma resolve_downloadURL (w : World) (key : string) :
  resolve w (downloadURL key) = blobs w !! key.
Proof.
  unfold resolve.
  destruct (List.find _ (map_to_list (blobs w))) as [[k b]|] eqn:F; cbn [fmap option_fmap option_map snd].
  - apply find_some in F as [Hin Heq]. cbn [fst] in Heq.
    apply String.eqb_eq, downloadURL_inj in Heq. subst k.
    apply list_elem_of_In, elem_of_map_to_list in Hin. now rewrite Hin.
  - destruct (blobs w !! key) as [b|] eqn:L; [|reflexivity].
    apply elem_of_map_to_list, list_elem_of_In in L.
    apply (find_none _ _ F) in L. cbn [fst] in L. now rewrite String.eqb_refl in L.
Qed.

End BlobFacts.

(** ** Uploads *)

Module Uploads.
Import JS Backend BlobFacts RunFacts.




End Uploads.

(** ** Re-homing, in a store that works *)

Module RehomingFacts.
Import JS Backend Applications PartApplicationPage Statements JSFacts RunFacts.
Import Submission ApprovalFlow BlobFacts.

(** Bring the lookups that a run has met to the stores of the start. *)
Ltac settle_lookups :=
  repeat match goal with
  | H : context [resolve _ (downloadURL _)] |- _ =>
      rewrite resolve_downloadURL in H; cbn [blobs] in H
  | H : context [<[?k := _]> _ !! ?k] |- _ => rewrite lookup_insert_eq in H
  | H : context [delete ?k _ !! ?k] |- _ => rewrite lookup_delete_eq in H
  | H : context [<[_ := _]> _ !! _] |- _ =>
      rewrite lookup_insert_ne in H by (intros E; apply png_inj in E; congruence)
  | H : context [delete _ _ !! _] |- _ =>
      rewrite lookup_delete_ne in H by (intros E; apply png_inj in E; congruence)
  end.



(** X7 — a part code equal to the application's identifier destroys the
    image: the copy is written over the original, the deletion of the
    "old" object then removes the only copy, and the call rejects because
    the "new" object is not found. The record is left as it was. *)
Theorem renamePartApplicationImage_onto_itself (w : World) (applicationId : string)
    (image : Blob) :
  plan w = nil ->
  blobs w !! (applicationId +:+ ".png") = Some image ->
  let '(r, w') := renamePartApplicationImage applicationId applicationId w in
  r = Throw (ObjectNotFound (applicationId +:+ ".png")) /\
  blobs w' !! (applicationId +:+ ".png") = None /\
  partApplications w' = partApplications w.
Proof.
  destruct w as [apps bl ck pl lg]. cbn [plan blobs partApplications].
  intros -> Himage.
  unfold renamePartApplicationImage. unfold_run.
  repeat split_run; settle_lookups; try congruence;
    cbv beta iota; cbn [blobs partApplications resp_body resp_ok] in *;
    (split; [reflexivity|]); (split; [apply lookup_delete_eq|reflexivity]).
Qed.

Lemma renamePartApplicationImage_onto_itself_witness :
  let '(r, w') := renamePartApplicationImage "APP0001" "APP0001" Samples.world in
  r = Throw (ObjectNotFound "APP0001.png") /\
  blobs w' !! "APP0001.png" = None /\
  partApplications w' = partApplications Samples.world.
Proof.
  exact (renamePartApplicationImage_onto_itself Samples.world "APP0001" _ eq_refl eq_refl).
Defined.

End RehomingFacts.

(** ** The application page, in a store that works and in one that fails *)

Module PageFacts.
Import JS Backend Applications PartApplicationPage Statements JSFacts RunFacts.
Import Submission ApprovalFlow BlobFacts RehomingFacts.

(** X8 — when the record has vanished from the collection while its image
    is still stored, [handleApprove] reports success, and what it leaves
    under the identifier (a key of the store) is a record with an
    [imageUrl] and nothing else: neither a status nor a part code. The part
    code is not blank and holds no [/]. *)
Theorem handleApprove_vanished_record (p : Page) (w : World) (a : PartApplication)
    (image : Blob) :
  approveDialog p = Some a ->
  Remote.valid_key (id a) = true ->
  trim (partCodeInput p) <> "" ->
  plain_name (trim (partCodeInput p)) = true ->
  has_image a = true ->
  id a <> trim (partCodeInput p) ->
  partApplications w !! id a = None ->
  blobs w !! (id a +:+ ".png") = Some image ->
  plan w = nil ->
  let '(r, w') := handleApprove p w in
  (exists p',
     r = Ok p' /\
     message p' =
       Some (success,
             "Application " +:+ id a +:+ " approved with part code " +:+ partCodeInput p)) /\
  partApplications w' !! id a =
    Some (JObj (("imageUrl", JStr (downloadURL (trim (partCodeInput p) +:+ ".png"))) :: nil)).
Proof.
  intros Ha _ Hcode _ Himg Hne Hrec Himage Hplan. unfold handleApprove, handleApprove_with.
  rewrite Ha. apply String.eqb_neq in Hcode. unfold is_empty at 1. rewrite Hcode, Himg.
  destruct w as [apps bl ck pl lg]. cbn [plan partApplications blobs] in Hrec, Himage, Hplan.
  subst pl.
  unfold approvePartApplication, renamePartApplicationImage, loadApplications,
    getPartApplications.
  unfold_run. rewrite Hrec. unfold_page.
  repeat split_run; settle_lookups; try congruence;
    cbv beta iota; cbn [partApplications message];
    (split; [eexists; split; reflexivity|apply lookup_insert_eq]).
Qed.

Lemma handleApprove_vanished_record_witness :
  let w :=
    mkWorld ∅ (blobs Samples.world) (clock Samples.world) nil nil in
  let '(r, w') := handleApprove Samples.approve_page w in
  (exists p',
     r = Ok p' /\
     message p' = Some (success, "Application APP0001 approved with part code PC-100")) /\
  partApplications w' !! "APP0001" =
    Some (JObj (("imageUrl", JStr (downloadURL "PC-100.png")) :: nil)).
Proof.
  exact (handleApprove_vanished_record Samples.approve_page
           (mkWorld ∅ (blobs Samples.world) (clock Samples.world) nil nil)
           Samples.application _
           eq_refl eq_refl ltac:(discriminate) eq_refl eq_refl ltac:(discriminate) eq_refl
           eq_refl eq_refl).
Defined.

(** X9 — in a store that works, [handleSubmit] on a complete form with a
    selected image reports success and clears the form; the image is
    stored, and the URL in the stored record leads back to exactly the
    bytes that were selected; no other record is touched; the list of the
    page holds one row for each record of the collection. *)
Theorem handleSubmit_image_round_trip (p : Page) (w : World) (file : Blob) :
  ~ missing_required (formData p) ->
  selectedFile p = Some file ->
  plan w = nil ->
  let '(r, w') := handleSubmit p w in
  (exists p',
     r = Ok p' /\
     message p' =
       Some (success,
             "Part application " +:+ generateApplicationId p +:+ " submitted successfully!") /\
     selectedFile p' = None /\ formData p' = emptyForm /\ isSubmitting p' = false /\
     length (applications p') = size (partApplications w')) /\
  (exists record url,
     partApplications w' !! generateApplicationId p = Some record /\
     prop "imageUrl" record = Some (JStr url) /\
     resolve w' url = Some file) /\
  (forall other,
     other <> generateApplicationId p ->
     partApplications w' !! other = partApplications w !! other).
Proof.
  intros Hn Hfile Hplan. unfold handleSubmit.
  destruct (is_empty (f_requestedBy (formData p)) || is_empty (f_department (formData p))
            || is_empty (f_specifications (formData p)) || is_empty (f_supplier (formData p))
            || is_empty (f_standardPrice (formData p))) eqn:Hreq;
    [apply required_check in Hreq; contradiction|].
  rewrite Hfile.
  change (generateApplicationId (setIsSubmitting true p)) with (generateApplicationId p).
  generalize (generateApplicationId p) as applicationId. intros applicationId.
  destruct w as [apps bl ck pl lg]. cbn [plan] in Hplan. subst pl.
  unfold loadApplications, getPartApplications, savePartApplication,
    uploadPartApplicationImage.
  cbn [imageUrl id]. unfold_run. unfold_page.
  repeat split_run; settle_lookups; try congruence;
    cbv beta iota; cbn [partApplications blobs message selectedFile formData isSubmitting
                        applications];
    (split; [eexists; repeat split; try reflexivity;
             cbn [applications]; rewrite length_map; apply length_map_to_list|]);
    (split; [eexists; eexists; split; [apply lookup_insert_eq|];
             split; [reflexivity|]; rewrite resolve_downloadURL; apply lookup_insert_eq|]);
    intros other Ho; now rewrite lookup_insert_ne by congruence.
Qed.

Lemma handleSubmit_image_round_trip_witness :
  let '(r, w') := handleSubmit Samples.submit_page Samples.world in
  exists record url,
    partApplications w' !! "APP0001" = Some record /\
    prop "imageUrl" record = Some (JStr url) /\
    resolve w' url = Some (Byte.xff :: Byte.xd8 :: nil).
Proof.
  assert (~ missing_required (formData Samples.submit_page)) as Hn.
  { intros [H|[H|[H|[H|H]]]]; discriminate H. }
  pose proof (handleSubmit_image_round_trip Samples.submit_page Samples.world _
                Hn eq_refl eq_refl) as H.
  destruct (handleSubmit Samples.submit_page Samples.world) as [r w'].
  exact (proj1 (proj2 H)).
Defined.

(** X10 — when the image has been stored and the write of the record then
    fails, [handleSubmit] reports the failure and keeps the form and the
    selected file, no record is written, and the image stays in the Blob
    Store under the identifier's name: nothing removes it. *)
Theorem handleSubmit_failed_save_leaves_image (p : Page) (w : World) (file : Blob)
    (rest : list bool) :
  ~ missing_required (formData p) ->
  selectedFile p = Some file ->
  plan w = false :: false :: true :: rest ->
  let '(r, w') := handleSubmit p w in
  (exists p',
     r = Ok p' /\
     message p' = Some (error, "Failed to submit part application") /\
     selectedFile p' = Some file /\ formData p' = formData p /\ isSubmitting p' = false) /\
  partApplications w' = partApplications w /\
  blobs w' = <[generateApplicationId p +:+ ".png" := file]> (blobs w).
Proof.
  intros Hn Hfile Hplan. unfold handleSubmit.
  destruct (is_empty (f_requestedBy (formData p)) || is_empty (f_department (formData p))
            || is_empty (f_specifications (formData p)) || is_empty (f_supplier (formData p))
            || is_empty (f_standardPrice (formData p))) eqn:Hreq;
    [apply required_check in Hreq; contradiction|].
  rewrite Hfile.
  change (generateApplicationId (setIsSubmitting true p)) with (generateApplicationId p).
  generalize (generateApplicationId p) as applicationId. intros applicationId.
  destruct w as [apps bl ck pl lg]. cbn [plan] in Hplan. subst pl.
  unfold loadApplications, getPartApplications, savePartApplication,
    uploadPartApplicationImage.
  cbn [imageUrl id]. unfold_run. unfold_page.
  repeat split_run; settle_lookups; try congruence;
    cbv beta iota; cbn [partApplications blobs message selectedFile formData isSubmitting];
    (split; [eexists; repeat split; try reflexivity; exact Hfile|]);
    split; reflexivity.
Qed.

Lemma handleSubmit_failed_save_leaves_image_witness :
  let w :=
    mkWorld (partApplications Samples.world) (blobs Samples.world) (clock Samples.world)
      (false :: false :: true :: nil) nil in
  let '(r, w') := handleSubmit Samples.submit_page w in
  (exists p',
     r = Ok p' /\
     message p' = Some (error, "Failed to submit part application") /\
     selectedFile p' = Some (Byte.xff :: Byte.xd8 :: nil) /\
     formData p' = formData Samples.submit_page /\ isSubmitting p' = false) /\
  partApplications w' = partApplications w /\
  blobs w' = <["APP0001.png" := Byte.xff :: Byte.xd8 :: nil]> (blobs w).
Proof.
  assert (~ missing_required (formData Samples.submit_page)) as Hn.
  { intros [H|[H|[H|[H|H]]]]; discriminate H. }
  exact (handleSubmit_failed_save_leaves_image Samples.submit_page
           (mkWorld (partApplications Samples.world) (blobs Samples.world)
              (clock Samples.world) (false :: false :: true :: nil) nil)
           _ nil Hn eq_refl eq_refl).
Defined.

End PageFacts.

(** ** What the approval and the page handlers leave alone *)

Module FrameFacts.
Import JS Backend Applications PartApplicationPage Statements JSFacts RunFacts.
Import Submission ApprovalFlow BlobFacts RehomingFacts.

Lemma approved_record_other_field (record : obj) (code stamp k : string) :
  unique_keys record = true ->
  k <> "status" -> k <> "partCode" -> k <> "approvedAt" ->
  prop k (approved_record (JObj record) code stamp) = obj_get k record.
Proof.
  intros Hu H1 H2 H3. unfold approved_record, prop.
  rewrite !obj_get_set_other by congruence.
  unfold spread. cbn [own_entries]. rewrite (FoldFacts.obj_get_assign nil record k Hu).
  destruct (obj_get k record); reflexivity.
Qed.

(** X11 — whatever fails, [approvePartApplication] on an identifier that
    is a key of the store touches nothing but the record it approves: the
    Blob Store and every other record are as before; when it rejects, the
    collection is unchanged; when it fulfils on a stored record, that
    record keeps every field other than [status], [partCode] and
    [approvedAt]. *)
Theorem approvePartApplication_frame (w : World) (applicationId code : string) :
  Remote.valid_key applicationId = true ->
  let '(r, w') := approvePartApplication applicationId code w in
  blobs w' = blobs w /\
  (forall other,
     other <> applicationId -> partApplications w' !! other = partApplications w !! other) /\
  (forall e, r = Throw e -> partApplications w' = partApplications w) /\
  (forall record,
     partApplications w !! applicationId = Some (JObj record) ->
     unique_keys record = true ->
     r = Ok tt ->
     exists record',
       partApplications w' !! applicationId = Some record' /\
       forall k,
         k <> "status" -> k <> "partCode" -> k <> "approvedAt" ->
         prop k record' = obj_get k record).
Proof.
  intros _. destruct w as [apps bl ck pl lg].
  unfold approvePartApplication. unfold_run.
  repeat split_run; cbv beta iota; cbn [blobs partApplications];
    (split; [reflexivity|]);
    (split; [intros other Ho; first [reflexivity | now rewrite lookup_insert_ne by congruence]|]);
    (split; [intros e He; first [reflexivity | discriminate He]|]);
    intros record Hrec Hu Hr; try discriminate;
    injection Hrec as ->; eexists; (split; [apply lookup_insert_eq|]);
    intros k H1 H2 H3; now apply approved_record_other_field.
Qed.

Lemma approvePartApplication_frame_witness :
  let '(r, w') := approvePartApplication "APP0001" "PC-100" Samples.world in
  r = Ok tt /\
  blobs w' = blobs Samples.world /\
  exists record',
    partApplications w' !! "APP0001" = Some record' /\
    prop "requestedBy" record' = Some (JStr "Dana") /\
    prop "status" record' = Some (JStr "approved").
Proof.
  pose proof (approvePartApplication_frame Samples.world "APP0001" "PC-100" eq_refl) as H.
  destruct (approvePartApplication "APP0001" "PC-100" Samples.world) as [r w'] eqn:E.
  assert (r = Ok tt /\ prop "status" <$> partApplications w' !! "APP0001"
                        = Some (Some (JStr "approved"))) as [-> Hs].
  { vm_compute in E. injection E as <- <-. split; reflexivity. }
  destruct H as (Hb & _ & _ & Hrec).
  destruct (Hrec _ eq_refl eq_refl eq_refl) as (record' & Hget & Hkeep).
  split; [reflexivity|]. split; [exact Hb|]. exists record'. split; [exact Hget|].
  split; [exact (Hkeep "requestedBy" ltac:(discriminate) ltac:(discriminate)
                   ltac:(discriminate))|].
  rewrite Hget in Hs. now injection Hs.
Defined.

Lemma bind_ok_post {A B : Type} (P : B -> Prop) (m : M A) (k : A -> M B) (w : World) :
  (forall a w1, match fst (k a w1) with Ok b => P b | Throw _ => True end) ->
  match fst (bind m k w) with Ok b => P b | Throw _ => True end.
Proof.
  intros Hk. unfold bind. destruct (m w) as [[a|e] w1]; [apply Hk|exact I].
Qed.

(** X12 — the two handlers of the application page never reject, whatever
    the store does and whichever revision of the re-homing is in use: each
    run ends with a message on the page, and with the page no longer
    submitting if it was not before. *)
Theorem page_handlers_always_settle (rename : string -> string -> M unit)
    (p : Page) (w : World) :
  (exists p',
     fst (handleSubmit p w) = Ok p' /\
     message p' <> None /\
     (isSubmitting p = false -> isSubmitting p' = false)) /\
  (exists p',
     fst (handleApprove_with rename p w) = Ok p' /\
     message p' <> None /\
     (isSubmitting p = false -> isSubmitting p' = false)).
Proof.
  split.
  - unfold handleSubmit.
    destruct (is_empty (f_requestedBy (formData p)) || is_empty (f_department (formData p))
              || is_empty (f_specifications (formData p)) || is_empty (f_supplier (formData p))
              || is_empty (f_standardPrice (formData p)));
      [eexists; split; [reflexivity|]; split; [discriminate|intros H; exact H]|].
    destruct (selectedFile p) as [file|];
      [|eexists; split; [reflexivity|]; split; [discriminate|intros H; exact H]].
    unfold bind at 1, try_catch at 1.
    match goal with
    | |- context [bind ?m ?k w] =>
        assert (match fst (bind m k w) with
                | Ok p2 => message p2 <> None
                | Throw _ => True
                end) as Hbody;
        [|destruct (bind m k w) as [[p2|e] w2]]
    end.
    + apply bind_ok_post; intros url w1. apply bind_ok_post; intros stamp w2.
      apply bind_ok_post; intros _ w3. apply bind_ok_post; intros p2 w4.
      cbn [fst ret]. unfold_page. discriminate.
    + eexists. split; [reflexivity|]. split; [exact Hbody|reflexivity].
    + eexists. split; [reflexivity|]. split; [discriminate|reflexivity].
  - unfold handleApprove_with.
    destruct (approveDialog p) as [a|];
      [|eexists; split; [reflexivity|]; split; [discriminate|intros H; exact H]].
    destruct (is_empty (trim (partCodeInput p)));
      [eexists; split; [reflexivity|]; split; [discriminate|intros H; exact H]|].
    unfold bind at 1, try_catch at 1.
    match goal with
    | |- context [bind ?m ?k w] =>
        assert (match fst (bind m k w) with
                | Ok p2 => message p2 <> None
                | Throw _ => True
                end) as Hbody;
        [|destruct (bind m k w) as [[p2|e] w2]]
    end.
    + apply bind_ok_post; intros _ w1. apply bind_ok_post; intros _ w2.
      apply bind_ok_post; intros p2 w3.
      cbn [fst ret]. unfold_page. discriminate.
    + eexists. split; [reflexivity|]. split; [exact Hbody|reflexivity].
    + eexists. split; [reflexivity|]. split; [discriminate|reflexivity].
Qed.

(** X13 — a failed load is silent, and the next submission then writes
    over the first application: when the read of the collection fails,
    [loadApplications] fulfils with an empty list and shows no message;
    [handleSubmit] on that page, complete and with an image, names the new
    application [APP0001], and the record and the image that were stored
    under that name are replaced by the new ones, a pending application
    without a part code. *)
Theorem failed_load_then_submit_overwrites (p : Page) (w : World) (file : Blob)
    (record : json) (image : Blob) :
  ~ missing_required (formData p) ->
  selectedFile p = Some file ->
  plan w = true :: nil ->
  partApplications w !! "APP0001" = Some record ->
  blobs w !! "APP0001.png" = Some image ->
  let '(r1, w1) := loadApplications p w in
  exists p1,
    r1 = Ok p1 /\ applications p1 = nil /\ message p1 = message p /\
    let '(r2, w2) := handleSubmit p1 w1 in
    (exists p2,
       r2 = Ok p2 /\
       message p2 = Some (success, "Part application APP0001 submitted successfully!")) /\
    stored_with w2 "APP0001" "pending" None /\
    blobs w2 !! "APP0001.png" = Some file.
Proof.
  intros Hn Hfile Hplan Hrec Himage.
  destruct w as [apps bl ck pl lg]. cbn [plan partApplications blobs] in *. subst pl.
  unfold loadApplications at 1, getPartApplications. unfold_run.
  eexists. split; [reflexivity|]. split; [reflexivity|]. split; [reflexivity|].
  unfold handleSubmit. unfold_page.
  destruct (is_empty (f_requestedBy (formData p)) || is_empty (f_department (formData p))
            || is_empty (f_specifications (formData p)) || is_empty (f_supplier (formData p))
            || is_empty (f_standardPrice (formData p))) eqn:Hreq;
    [apply required_check in Hreq; contradiction|].
  rewrite Hfile.
  change (generateApplicationId _) with "APP0001".
  unfold loadApplications, getPartApplications, savePartApplication,
    uploadPartApplicationImage.
  cbn [imageUrl id]. unfold_run. unfold_page.
  repeat split_run; settle_lookups; try congruence;
    cbv beta iota; cbn [partApplications blobs message];
    (split; [eexists; split; reflexivity|]);
    (split; [eexists; split; [apply lookup_insert_eq|split; reflexivity]
            |apply lookup_insert_eq]).
Qed.

Lemma failed_load_then_submit_overwrites_witness :
  let w :=
    mkWorld (partApplications Samples.world) (blobs Samples.world) (clock Samples.world)
      (true :: nil) nil in
  let '(r1, w1) := loadApplications Samples.submit_page w in
  exists p1,
    r1 = Ok p1 /\ applications p1 = nil /\ message p1 = None /\
    let '(r2, w2) := handleSubmit p1 w1 in
    (exists p2,
       r2 = Ok p2 /\
       message p2 = Some (success, "Part application APP0001 submitted successfully!")) /\
    stored_with w2 "APP0001" "pending" None /\
    blobs w2 !! "APP0001.png" = Some (Byte.xff :: Byte.xd8 :: nil).
Proof.
  assert (~ missing_required (formData Samples.submit_page)) as Hn.
  { intros [H|[H|[H|[H|H]]]]; discriminate H. }
  exact (failed_load_then_submit_overwrites Samples.submit_page
           (mkWorld (partApplications Samples.world) (blobs Samples.world)
              (clock Samples.world) (true :: nil) nil)
           _ _ _ Hn eq_refl eq_refl eq_refl eq_refl).
Defined.

End FrameFacts.

(** ** The revision that copies: what a run leaves in the stores *)

Module CopyFacts.
Import JS Backend Applications PartApplicationPage Statements JSFacts RunFacts.
Import Submission ApprovalFlow BlobFacts RehomingFacts.

(** [resolve] looks at the Blob Store only. *)
Ltac resolve_with H :=
  match type of H with
  | resolve ?w ?u = _ =>
      match goal with
      | |- context [resolve ?w0 u] => change (resolve w0 u) with (resolve w u); rewrite H
      end
  end.


Lemma copied_record_urls (o : obj) (url : json) :
  obj_get "imageUrl" (obj_set "partCodeImageUrl" url (obj_set "imageUrl" url o)) = Some url /\
  obj_get "partCodeImageUrl" (obj_set "partCodeImageUrl" url (obj_set "imageUrl" url o))
    = Some url.
Proof.
  split; [|apply obj_get_set_same].
  rewrite obj_get_set_other by discriminate. apply obj_get_set_same.
Qed.



(** X15 — when the upload of the copy fails, the copying revision falls
    back on the URL the record already has and writes it back as
    [imageUrl] and also as [partCodeImageUrl]: the run fulfils, the Blob
    Store is unchanged, and the record names the application's own image as
    the image of the part code. *)
Theorem copy_rename_failed_upload_keeps_old_url (canvas : string -> option Blob)
    (toString : json -> string) (w : World) (applicationId code url : string)
    (record : obj) (image : Blob) (rest : list bool) :
  plan w = false :: false :: true :: false :: false :: false :: rest ->
  partApplications w !! applicationId = Some (JObj record) ->
  obj_get "imageUrl" record = Some (JStr url) ->
  url <> "" ->
  resolve w url = Some image ->
  let '(r, w') :=
    CopyStrategy.renamePartApplicationImage canvas toString applicationId code w in
  r = Ok tt /\
  blobs w' = blobs w /\
  exists record',
    partApplications w' !! applicationId = Some (JObj record') /\
    obj_get "imageUrl" record' = Some (JStr url) /\
    obj_get "partCodeImageUrl" record' = Some (JStr url).
Proof.
  destruct w as [apps bl ck pl lg]. cbn [plan partApplications].
  intros -> Hrec Hurl Hne Himage.
  apply String.eqb_neq in Hne.
  unfold CopyStrategy.renamePartApplicationImage, CopyStrategy.copyImageToPartCode,
    CopyStrategy.copyImageViaCanvas.
  unfold_run. rewrite Hrec. cbn [prop]. rewrite Hurl.
  cbn [truthy CopyStrategy.url_of or_default]. rewrite Hne. cbn [negb]. resolve_with Himage.
  cbn [resp_ok resp_body negb]. rewrite Hrec. cbn [prop]. rewrite Hurl.
  cbn [truthy or_default]. rewrite Hne. cbn [negb truthy]. rewrite Hne. cbn [negb].
  rewrite Hrec.
  split; [reflexivity|]. split; [reflexivity|].
  eexists. cbn [partApplications]. split; [apply lookup_insert_eq|].
  split; apply copied_record_urls.
Qed.

Lemma copy_rename_failed_upload_keeps_old_url_witness :
  let w :=
    mkWorld (partApplications Samples.world) (blobs Samples.world) (clock Samples.world)
      (false :: false :: true :: false :: false :: false :: nil) nil in
  let '(r, w') :=
    CopyStrategy.renamePartApplicationImage (fun _ => None) (fun _ => "") "APP0001" "PC-100" w in
  r = Ok tt /\
  blobs w' = blobs w /\
  exists record',
    partApplications w' !! "APP0001" = Some (JObj record') /\
    obj_get "imageUrl" record' = Some (JStr (downloadURL "APP0001.png")) /\
    obj_get "partCodeImageUrl" record' = Some (JStr (downloadURL "APP0001.png")).
Proof.
  exact (copy_rename_failed_upload_keeps_old_url (fun _ => None) (fun _ => "")
           (mkWorld (partApplications Samples.world) (blobs Samples.world)
              (clock Samples.world)
              (false :: false :: true :: false :: false :: false :: nil) nil)
           "APP0001" "PC-100" (downloadURL "APP0001.png") _ _ nil
           eq_refl eq_refl eq_refl ltac:(discriminate) eq_refl).
Defined.

End CopyFacts.

(** ** The Take Photo page *)

Module PhotoFacts.
Import JS Backend MoreStatements TextFacts BlobFacts RunFacts.
Import TakePhotoPage.

Lemma getPartImageUrl_downloadURL (material : string) :
  Images.getPartImageUrl material = downloadURL (material +:+ ".png").
Proof.
  unfold Images.getPartImageUrl, downloadURL, storageBaseUrl.
  rewrite encodeURIComponent_append. cbv zeta.
  change (encodeURIComponent ".png") with ".png".
  now rewrite !append_assoc.
Qed.

Ltac unfold_photo :=
  cbv beta delta [showMessage setIsUploading setPartCode];
  cbn [selectedFile imagePreview partCode isUploading message].

(** X16 — in a store that works, [handleUpload] with a selected photo and
    a part code that is not blank and holds no [/] stores the photo under
    the trimmed code (over whatever was stored under that name), touches
    nothing else, and clears the page; the catalogue's image URL for that
    code then leads to the photo. The message names the code as typed. *)
Theorem handleUpload_publishes (p : Page) (w : World) (f : File) :
  selectedFile p = Some f ->
  trim (partCode p) <> "" ->
  plain_name (trim (partCode p)) = true ->
  plan w = nil ->
  let '(r, w') := handleUpload p w in
  r = Ok (mkPage None None "" false
            (Some (success, "Photo uploaded successfully as " +:+ partCode p))) /\
  blobs w' = <[trim (partCode p) +:+ ".png" := file_bytes f]> (blobs w) /\
  partApplications w' = partApplications w /\
  resolve w' (Images.getPartImageUrl (trim (partCode p))) = Some (file_bytes f).
Proof.
  intros Hfile Hcode _ Hplan. unfold handleUpload. rewrite Hfile.
  apply String.eqb_neq in Hcode. rewrite Hcode.
  destruct w as [apps bl ck pl lg]. cbn [plan] in Hplan. subst pl.
  unfold Images.uploadPartImageWithCode. unfold_run. rewrite lookup_insert_eq.
  unfold_photo. split; [reflexivity|]. split; [reflexivity|]. split; [reflexivity|].
  rewrite getPartImageUrl_downloadURL, resolve_downloadURL. apply lookup_insert_eq.
Qed.

Lemma handleUpload_publishes_witness :
  let p :=
    mkPage (Some (mkFile "image/jpeg" (Byte.xff :: Byte.xd8 :: nil)))
      (Some (Byte.xff :: Byte.xd8 :: nil)) " M-100 " false None in
  let '(r, w') := handleUpload p Samples.world in
  r = Ok (mkPage None None "" false
            (Some (success, "Photo uploaded successfully as  M-100 "))) /\
  blobs w' = <["M-100.png" := Byte.xff :: Byte.xd8 :: nil]> (blobs Samples.world) /\
  partApplications w' = partApplications Samples.world /\
  resolve w' (Images.getPartImageUrl "M-100") = Some (Byte.xff :: Byte.xd8 :: nil).
Proof.
  exact (handleUpload_publishes
           (mkPage (Some (mkFile "image/jpeg" (Byte.xff :: Byte.xd8 :: nil)))
              (Some (Byte.xff :: Byte.xd8 :: nil)) " M-100 " false None)
           Samples.world _ eq_refl ltac:(discriminate) eq_refl eq_refl).
Defined.

(** What a session keeps true of the page: the selected file, if any, is
    an image among [files]. *)
Lemma handleUpload_keeps (files : list File) (p : Page) (w : World) :
  (forall f, selectedFile p = Some f ->
             String.prefix "image/" (file_type f) = true /\ In f files) ->
  let '(r, w') := handleUpload p w in
  (exists p',
     r = Ok p' /\
     forall f, selectedFile p' = Some f ->
               String.prefix "image/" (file_type f) = true /\ In f files) /\
  partApplications w' = partApplications w /\
  (forall key, is_Some (blobs w !! key) -> is_Some (blobs w' !! key)) /\
  exists evs, log w' = log w ++ evs /\ Forall (photo_event files) evs.
Proof.
  intros Hsel. unfold handleUpload.
  destruct (selectedFile p) as [f|] eqn:Hfile.
  - destruct (trim (partCode p) =? "")%string eqn:Hcode.
    + cbv [ret]. split; [eexists; split; [reflexivity|]; unfold_photo; now rewrite Hfile|].
      split; [reflexivity|]. split; [tauto|]. exists nil. split; [now rewrite app_nil_r|constructor].
    + apply String.eqb_neq in Hcode. destruct (Hsel f eq_refl) as [Himg Hin].
      assert (photo_event files (mkEvent (Backend.Upload (trim (partCode p) +:+ ".png") (file_bytes f)) true)
              /\ photo_event files
                   (mkEvent (Backend.Upload (trim (partCode p) +:+ ".png") (file_bytes f)) false))
        as [Hup Hup'].
      { split; exists f, (trim (partCode p)); repeat split; try assumption; apply trim_trimmed. }
      destruct w as [apps bl ck pl lg].
      unfold Images.uploadPartImageWithCode. unfold_run. unfold_photo.
      repeat split_run; cbv beta iota; cbn [partApplications blobs log];
        (split; [eexists; split; [reflexivity|]; cbn [selectedFile];
                 first [discriminate | rewrite Hfile; exact Hsel]|]);
        (split; [reflexivity|]);
        (split; [intros key Hk;
                 first [exact Hk
                       | destruct (decide (key = trim (partCode p) +:+ ".png")) as [->|Hd];
                         [rewrite lookup_insert_eq; eauto
                         |rewrite lookup_insert_ne by congruence; exact Hk]]|]);
        rewrite <- ?app_assoc; cbn [app];
        (eexists; split; [reflexivity|]);
        repeat (constructor; try assumption; try exact I).
  - cbv [ret]. split; [eexists; split; [reflexivity|]; unfold_photo; now rewrite Hfile|].
    split; [reflexivity|]. split; [tauto|]. exists nil. split; [now rewrite app_nil_r|constructor].
Qed.

Lemma session_keeps (actions : list Action) (files : list File) :
  (forall f, In f (offered actions) -> In f files) ->
  forall (p : Page) (w : World),
    (forall f, selectedFile p = Some f ->
               String.prefix "image/" (file_type f) = true /\ In f files) ->
    let '(r, w') := session actions p w in
    (exists p',
       r = Ok p' /\
       forall f, selectedFile p' = Some f ->
                 String.prefix "image/" (file_type f) = true /\ In f files) /\
    partApplications w' = partApplications w /\
    (forall key, is_Some (blobs w !! key) -> is_Some (blobs w' !! key)) /\
    exists evs, log w' = log w ++ evs /\ Forall (photo_event files) evs.
Proof.
  induction actions as [|a r IH]; intros Hoff p w Hsel.
  - cbn [session]. cbv [ret]. split; [eexists; split; [reflexivity|exact Hsel]|].
    split; [reflexivity|]. split; [tauto|]. exists nil. split; [now rewrite app_nil_r|constructor].
  - assert (forall f, In f (offered r) -> In f files) as Hoff'.
    { intros f Hf. apply Hoff. destruct a as [[g|]| | |]; cbn [offered]; auto. now right. }
    assert (forall p1, (forall f, selectedFile p1 = Some f ->
                          String.prefix "image/" (file_type f) = true /\ In f files) ->
                       let '(r0, w') := session r p1 w in
                       (exists p', r0 = Ok p' /\
                          forall f, selectedFile p' = Some f ->
                            String.prefix "image/" (file_type f) = true /\ In f files) /\
                       partApplications w' = partApplications w /\
                       (forall key, is_Some (blobs w !! key) -> is_Some (blobs w' !! key)) /\
                       exists evs, log w' = log w ++ evs /\ Forall (photo_event files) evs)
      as Hpure.
    { intros p1 H1. exact (IH Hoff' p1 w H1). }
    cbn [session]. unfold bind.
    destruct a as [file| |code|]; cbn [act]; cbv [ret].
    + apply Hpure. unfold handleFileSelect. destruct file as [g|]; [|exact Hsel].
      destruct (String.prefix "image/" (file_type g)) eqn:Hg.
      * cbn [selectedFile]. intros f [= <-]. split; [exact Hg|]. apply Hoff. now left.
      * unfold_photo. exact Hsel.
    + apply Hpure. unfold clearPhoto. cbn [selectedFile]. discriminate.
    + apply Hpure. unfold_photo. exact Hsel.
    + pose proof (handleUpload_keeps files p w Hsel) as Hu.
      destruct (handleUpload p w) as [r1 w1].
      destruct Hu as ([p1 [-> Hsel1]] & Hpa1 & Hbl1 & evs1 & Hlog1 & Hev1).
      pose proof (IH Hoff' p1 w1 Hsel1) as Hs.
      destruct (session r p1 w1) as [r2 w2].
      destruct Hs as (Hp2 & Hpa2 & Hbl2 & evs2 & Hlog2 & Hev2).
      split; [exact Hp2|]. split; [congruence|]. split; [auto|].
      exists (evs1 ++ evs2). split; [rewrite Hlog2, Hlog1; now rewrite app_assoc|].
      apply Forall_app. now split.
Qed.

(** X17 — whatever the user does on the Take Photo page
    and whatever the store does, the page asks the remote side only to
    store images that the user has selected, under [{code}.png] for a
    trimmed code that is not empty, and to issue URLs: no session stores a
    file that is not an image, removes an object, or writes to the
    application collection; and no handler rejects. *)
Theorem session_stores_only_selected_images (actions : list Action) (w : World) :
  let '(r, w') := session actions initial w in
  (exists p', r = Ok p' /\ selection_is_image p') /\
  partApplications w' = partApplications w /\
  (forall key, is_Some (blobs w !! key) -> is_Some (blobs w' !! key)) /\
  exists evs, log w' = log w ++ evs /\ Forall (photo_event (offered actions)) evs.
Proof.
  pose proof (session_keeps actions (offered actions) (fun f H => H) initial w) as H.
  destruct (session actions initial w) as [r w'].
  destruct H as ([p' [-> Hsel]] & Hpa & Hbl & Hev); [discriminate|].
  split; [|now repeat split].
  exists p'. split; [reflexivity|]. unfold selection_is_image.
  destruct (selectedFile p') as [f|]; [|exact I]. now apply Hsel.
Qed.

Example session_sample :
  let photo := mkFile "image/jpeg" (Byte.xff :: Byte.xd8 :: nil) in
  let '(r, w') :=
    session
      (SelectFile (Some (mkFile "application/pdf" (Byte.x25 :: nil)))
       :: Upload
       :: SelectFile (Some photo) :: TypePartCode " M-100 " :: Upload :: nil)
      initial Samples.world in
  r = Ok (mkPage None None "" false (Some (success, "Photo uploaded successfully as  M-100 ")))
  /\ ev_call <$> log w' = Backend.Upload "M-100.png" (file_bytes photo) :: GetURL "M-100.png" :: nil.
Proof. vm_compute. split; reflexivity. Qed.

End PhotoFacts.

(** ** Single documents: what is written is what is read *)

Module DocumentFacts.
Import JS Backend Documents MoreStatements JSFacts.

Lemma obj_get_spread (o : obj) (k : string) :
  unique_keys o = true -> obj_get k (spread (JObj o)) = obj_get k o.
Proof.
  intros Hu. unfold spread. cbn [own_entries]. rewrite (FoldFacts.obj_get_assign nil o k Hu).
  destruct (obj_get k o); reflexivity.
Qed.

(** Reading back a value that has just been written shows its
    properties. *)
Lemma prop_kept (o : obj) (k : string) :
  prop k (if is_nothing (JObj o) then JNull else JObj o) = obj_get k o.
Proof. destruct o; reflexivity. Qed.

Lemma lookup_written (d : gmap string json) (path : string) (o : obj) :
  default JNull
    ((if is_nothing (JObj o) then delete path d else <[path := JObj o]> d) !! path)
  = if is_nothing (JObj o) then JNull else JObj o.
Proof.
  destruct (is_nothing (JObj o)).
  - now rewrite lookup_delete_eq.
  - now rewrite lookup_insert_eq.
Qed.

Lemma lookup_unwritten (d : gmap string json) (path path' : string) (v : json) :
  path' <> path ->
  (if is_nothing v then delete path d else <[path := v]> d) !! path' = d !! path'.
Proof.
  intros Hne. destruct (is_nothing v).
  - now rewrite lookup_delete_ne by congruence.
  - now rewrite lookup_insert_ne by congruence.
Qed.

(** X18 — in a store that works, after [updatePartData] with string
    fields on a material that is a key of the store, [getPartByMaterial]
    reads each updated field with its new value and every other field of
    the part as it was (a part that was not stored yet has just the updated
    fields); no other part and no application changes. *)
Theorem updatePartData_round_trip (db : Db) (material : string)
    (fields : list (string * string)) (current : option obj) :
  Remote.valid_key material = true ->
  faults db = nil ->
  parts db !! material = (JObj <$> current) ->
  unique_keys (default nil current) = true ->
  unique_keys (strings fields) = true ->
  let '(r, db1) := updatePartData material (strings fields) db in
  r = Ok tt /\
  let '(part, db2) := getPartByMaterial material db1 in
  (forall k,
     prop k part =
     match obj_get k (strings fields) with
     | Some v => Some v
     | None => obj_get k (default nil current)
     end) /\
  (forall other, other <> material -> parts db2 !! other = parts db !! other) /\
  applications db2 = applications db.
Proof.
  destruct db as [d a f pk n t]. cbn [faults parts applications]. intros _ -> Hcur Hu Hf.
  unfold updatePartData, getPartByMaterial, get, set, with_faults, with_children, children.
  cbn [faults parts applications push_key pushed date_now List.tl]. rewrite Hcur.
  assert (spread (FirebaseService.val_or_empty (default JNull (JObj <$> current)))
          = spread (JObj (default nil current))) as ->.
  { destruct current; reflexivity. }
  split; [reflexivity|]. rewrite lookup_written. split; [|split; [|reflexivity]].
  - intros k. rewrite prop_kept, (FoldFacts.obj_get_assign _ _ k Hf).
    now rewrite obj_get_spread.
  - intros other Ho. now apply lookup_unwritten.
Qed.

Lemma updatePartData_round_trip_witness :
  let db :=
    mkDb {[ "M-200" := JObj (("notes", JStr "check stock") :: ("year", JStr "2023") :: nil) ]}
      ∅ nil (fun _ => "-K1") 0 0 in
  let '(r, db1) := updatePartData "M-200" (strings (("notes", "in stock") :: nil)) db in
  r = Ok tt /\
  let '(part, db2) := getPartByMaterial "M-200" db1 in
  prop "notes" part = Some (JStr "in stock") /\ prop "year" part = Some (JStr "2023").
Proof.
  pose proof (updatePartData_round_trip
                (mkDb {[ "M-200" :=
                           JObj (("notes", JStr "check stock") :: ("year", JStr "2023") :: nil) ]}
                   ∅ nil (fun _ => "-K1") 0 0)
                "M-200" (("notes", "in stock") :: nil)
                (Some (("notes", JStr "check stock") :: ("year", JStr "2023") :: nil))
                eq_refl eq_refl eq_refl eq_refl eq_refl) as H.
  cbv zeta.
  destruct (updatePartData "M-200" _ _) as [r db1]. destruct H as [-> H].
  split; [reflexivity|].
  destruct (getPartByMaterial "M-200" db1) as [part db2]. destruct H as [H _].
  split; [exact (H "notes")|exact (H "year")].
Defined.

(** X19 — in a store that works, [submitPartApplication] returns the key
    that [push] made, and [getPartApplication] on that key reads the
    application back with this key as [ticket_id] and the time of the
    submission as [created_at] (whatever the application said of these
    two) and every other field as submitted. Stated for fields that are
    strings, numbers and booleans. *)
Theorem submitPartApplication_round_trip (db : Db) (application : obj) :
  faults db = nil ->
  unique_keys application = true ->
  plain application = true ->
  let '(r, db1) := submitPartApplication application db in
  r = Ok (push_key db (pushed db)) /\
  let '(stored, db2) := getPartApplication (push_key db (pushed db)) db1 in
  prop "ticket_id" stored = Some (JStr (push_key db (pushed db))) /\
  prop "created_at" stored = Some (JNum (inject_Z (date_now db))) /\
  forall k,
    k <> "ticket_id" -> k <> "created_at" -> prop k stored = obj_get k application.
Proof.
  destruct db as [d a f pk n t]. cbn [faults push_key pushed date_now]. intros -> Hu _.
  unfold submitPartApplication, getPartApplication, push, get, set, with_faults,
    with_children, children, fullApplication.
  cbn [faults parts applications push_key pushed date_now List.tl].
  split; [reflexivity|]. rewrite lookup_written, !prop_kept.
  split; [|split].
  - rewrite obj_get_set_other by discriminate. apply obj_get_set_same.
  - apply obj_get_set_same.
  - intros k H1 H2. rewrite prop_kept, !obj_get_set_other by congruence.
    rewrite (FoldFacts.obj_get_assign nil application k Hu).
    destruct (obj_get k application); reflexivity.
Qed.

Lemma submitPartApplication_round_trip_witness :
  let db := mkDb ∅ ∅ nil (fun _ => "-K1") 0 1700000000000 in
  let application :=
    ("requester", JStr "Dana") :: ("ticket_id", JStr "mine") :: nil in
  let '(r, db1) := submitPartApplication application db in
  r = Ok "-K1" /\
  let '(stored, db2) := getPartApplication "-K1" db1 in
  prop "ticket_id" stored = Some (JStr "-K1") /\
  prop "requester" stored = Some (JStr "Dana").
Proof.
  pose proof (submitPartApplication_round_trip
                (mkDb ∅ ∅ nil (fun _ => "-K1") 0 1700000000000)
                (("requester", JStr "Dana") :: ("ticket_id", JStr "mine") :: nil)
                eq_refl eq_refl eq_refl) as H.
  cbv zeta. cbn [push_key pushed date_now] in H.
  destruct (submitPartApplication _ _) as [r db1]. destruct H as [-> H].
  split; [reflexivity|].
  destruct (getPartApplication "-K1" db1) as [stored db2]. destruct H as (H1 & _ & H3).
  split; [exact H1|]. exact (H3 "requester" ltac:(discriminate) ltac:(discriminate)).
Defined.

End DocumentFacts.

(** ** The headings of the image step *)

Module RendererFacts.
Import JS PDFService Statements MoreStatements.

(** A candidate whose image is drawn. *)
Lemma try_image_ops (load : string -> LoadResult) (pageHeight margin contentWidth : Q)
    (c : Cursor) (u : string) :
  let c' := fst (try_image load pageHeight margin contentWidth c u) in
  length (headings (ops c')) = S (length (headings (ops c))) /\
  length (pictures (ops c')) =
    length (pictures (ops c)) + match load u with Decoded _ _ => 1 | _ => 0 end.
Proof.
  unfold try_image, headings, pictures.
  destruct (Qgtb (yPosition c) (pageHeight - 100)); cbn [ops yPosition];
    destruct (load u) as [|width height| |];
    try destruct (fit width height contentWidth);
    cbn [fst ops]; rewrite ?List.filter_app, ?length_app; cbn [List.filter length app];
    split; lia.
Qed.

Lemma embed_loop_ops (load : string -> LoadResult) (pageHeight margin contentWidth : Q)
    (urls : list string) :
  forall c,
    let '(c', tried) := embed_loop load pageHeight margin contentWidth c urls in
    length (headings (ops c')) = length (headings (ops c)) + length tried /\
    length (pictures (ops c')) <= length (pictures (ops c)) + 1 /\
    ((forall u, In u tried -> match load u with Decoded _ _ => False | _ => True end) ->
     length (pictures (ops c')) = length (pictures (ops c))) /\
    (urls <> nil -> tried <> nil).
Proof.
  induction urls as [|u r IH]; intros c.
  - cbn [embed_loop length]. repeat split; try lia. congruence.
  - cbn [embed_loop].
    pose proof (try_image_ops load pageHeight margin contentWidth c u) as Ht.
    pose proof (Renderer.try_image_stops load pageHeight margin contentWidth c u) as Hs.
    destruct (try_image load pageHeight margin contentWidth c u) as [c1 stop].
    cbn [fst snd] in Ht, Hs. destruct Ht as [Hh Hp]. subst stop.
    unfold loads. destruct (load u) as [|width height| |] eqn:Hl.
    + specialize (IH c1). destruct (embed_loop load pageHeight margin contentWidth c1 r)
        as [c2 tried].
      destruct IH as (IH1 & IH2 & IH3 & _). cbn [length]. repeat split; try lia; try discriminate.
      intros Hnone. rewrite IH3; [lia|]. intros x Hx. apply Hnone. now right.
    + cbn [length]. repeat split; try lia; try discriminate.
      intros Hnone. specialize (Hnone u (or_introl eq_refl)). now rewrite Hl in Hnone.
    + cbn [length]. repeat split; try lia; discriminate.
    + specialize (IH c1). destruct (embed_loop load pageHeight margin contentWidth c1 r)
        as [c2 tried].
      destruct IH as (IH1 & IH2 & IH3 & _). cbn [length]. repeat split; try lia; try discriminate.
      intros Hnone. rewrite IH3; [lia|]. intros x Hx. apply Hnone. now right.
Qed.

(** X20 — the image step writes the heading [Attached Image] once for
    every candidate it tries, also for those that do not load, and draws at
    most one picture: a record whose image does not load at the first
    candidate gets the heading more than once, and one without any image
    that loads gets headings and no picture. At least one candidate is
    always tried. *)
Theorem embedImage_headings (load : string -> LoadResult)
    (pageHeight margin contentWidth : Q) (c : Cursor) (a : PartApplication) :
  let '(c', tried) := embedImage load pageHeight margin contentWidth c a in
  length (headings (ops c')) = length (headings (ops c)) + length tried /\
  1 <= length tried /\
  length (pictures (ops c')) <= length (pictures (ops c)) + 1 /\
  ((forall u, In u tried -> match load u with Decoded _ _ => False | _ => True end) ->
   length (pictures (ops c')) = length (pictures (ops c))).
Proof.
  unfold embedImage.
  pose proof (embed_loop_ops load pageHeight margin contentWidth (imageUrls a) c) as H.
  destruct (embed_loop load pageHeight margin contentWidth c (imageUrls a)) as [c' tried].
  destruct H as (H1 & H2 & H3 & H4).
  split; [exact H1|]. split; [|split; assumption].
  assert (tried <> nil) as Hne.
  { apply H4. unfold imageUrls. destruct (image_url a) as [url|]; [|discriminate].
    destruct (url =? "")%string; discriminate. }
  destruct tried; [congruence|cbn [length]; lia].
Qed.

Example headings_sample :
  let '(c', tried) :=
    embedImage (fun _ => LoadError) 297 20 170 (mkCursor 100 nil)
      (mkApplication "APP0001" None) in
  ops c' = Heading "Attached Image" 100 :: Heading "Attached Image" (100 + 10) :: nil.
Proof. reflexivity. Qed.

End RendererFacts.

(** ** The size of a page *)

Module PageSize.
Import JS Remote FirebaseService Statements JSFacts.

(** X21 — when the store answers the query of a later page with at most
    [limit + 1] rows: if the first row is the cursor it is dropped and the
    page holds at most [limit] rows; if it is not (the cursor's row is no
    longer stored), nothing is dropped and the page holds all the rows of
    the answer, which can be [limit + 1]. *)
Theorem getPaginatedParts_page_size (rd : Reader) (limit : nat) (cursor : string)
    (data : json) :
  cursor <> "" ->
  rd (mkQuery "Parts" (Some cursor) (Some (limit + 1))) = Done data ->
  typeof_object data = true ->
  unique_keys (own_entries data) = true ->
  length (own_entries data) <= limit + 1 ->
  let page := own_entries (getPaginatedParts rd limit (Some cursor)) in
  (hd_error (obj_keys (own_entries data)) = Some cursor ->
   S (length page) = length (own_entries data) /\ length page <= limit) /\
  (hd_error (obj_keys (own_entries data)) <> Some cursor ->
   page = own_entries data).
Proof.
  intros Hne Hrd Hobj Hu Hlen page. split.
  - intros Hhd.
    destruct (Pagination.page_drops_boundary_row rd limit cursor data Hne Hrd Hobj Hu Hhd)
      as [Hpage _].
    subst page. rewrite Hpage. destruct (own_entries data); [discriminate|].
    cbn [tl length] in *. split; lia.
  - intros Hhd. subst page. apply String.eqb_neq in Hne.
    unfold getPaginatedParts. rewrite Hne. rewrite Nat.add_1_r in *. cbn [limitToFirst].
    rewrite Hrd.
    assert (own_entries (val_or_empty data) = own_entries data) as Hval.
    { unfold val_or_empty. destruct (truthy data) eqn:T; [reflexivity|].
      destruct data; try discriminate; reflexivity. }
    rewrite Hval.
    destruct (obj_keys (own_entries data)) as [|key0 keys] eqn:Hk; [exact Hval|].
    destruct (String.eqb key0 cursor) eqn:E; [|exact Hval].
    apply String.eqb_eq in E. subst key0. now contradict Hhd.
Qed.

Lemma getPaginatedParts_page_size_witness :
  let page := own_entries (getPaginatedParts Samples.store 1 (Some "M-150")) in
  page = Samples.admin_rows /\ length page = 2.
Proof.
  split; [|reflexivity].
  refine (proj2 (getPaginatedParts_page_size Samples.store 1 "M-150" _
                   ltac:(discriminate) eq_refl eq_refl eq_refl _) _).
  - vm_compute. lia.
  - discriminate.
Defined.

End PageSize.
